(** * The per-document controller of the Coq language server (server-side
      [CoqDocument]) and the way the editor-side [CoqDocument] reads its
      results.

    The controller is the class [CoqDocument] of the server: it owns the
    document text and a [CoqStateMachine] (the STM), turns client requests
    into STM calls and turns the STM's callbacks into client notifications.
    The STM, the sentence parser and the text utilities are other modules of
    the server; the controller is verified against their interfaces. *)

From Stdlib Require Import List ZArith Bool Ascii String Lia Permutation Sorted.
Import ListNotations.
Local Open Scope Z_scope.

(** ** JavaScript strings

    A string is a sequence of code units; [substring] and [substr] are
    written out with the clamping that JavaScript performs. *)

Definition Text := list ascii.

Definition textLength (t : Text) : Z := Z.of_nat (List.length t).

(** An index argument of [substring]: negative values count as 0, values
    past the end as the length. *)
Definition clampIndex (t : Text) (i : Z) : nat :=
  Z.to_nat (Z.min (Z.max i 0) (textLength t)).

(** [t.substring(s, e)]: the two clamped indices are swapped when [s > e]. *)
Definition substring (t : Text) (s e : Z) : Text :=
  let a := clampIndex t s in
  let b := clampIndex t e in
  firstn (Nat.max a b - Nat.min a b) (skipn (Nat.min a b) t).

(** [t.substring(s)]: up to the end of the string. *)
Definition substringFrom (t : Text) (s : Z) : Text :=
  skipn (clampIndex t s) t.

(** [t.substr(start, length)]: a negative start counts from the end, a
    length that is not positive gives the empty string. *)
Definition substr (t : Text) (start len : Z) : Text :=
  let st := if start <? 0 then Z.max (textLength t + start) 0
            else Z.min start (textLength t) in
  firstn (Z.to_nat len) (skipn (Z.to_nat st) t).

(** ** Positions and ranges (vscode-languageserver) *)

Record Position := { line : nat; character : nat }.

Record Range := { start : Position; end_ : Position }.

Module RangeNS.
(** [Range.create(start, end)] *)
Definition create (s e : Position) : Range := {| start := s; end_ := e |}.
End RangeNS.

(** ** Text utilities *)

Module textUtil.

Definition isCR (c : ascii) : bool := Ascii.eqb c "013"%char.
Definition isLF (c : ascii) : bool := Ascii.eqb c "010"%char.

(** Modelled from the spec: the module text-util is missing from the
    sources.  Positions are ordered by line, then by character. *)
Definition positionIsAfter (p q : Position) : bool :=
  Nat.ltb (line q) (line p)
  || (Nat.eqb (line p) (line q) && Nat.ltb (character q) (character p)).

(** Length of the match of [lineEndingRE = /[^\r\n]*(\r\n|\r|\n)?/] at the
    start of [t]: the body of the line and its terminator, when there is
    one. *)
Fixpoint lineMatch (t : Text) : nat :=
  match t with
  | [] => 0%nat
  | c :: r =>
      if isCR c then
        match r with
        | c' :: _ => if isLF c' then 2%nat else 1%nat
        | [] => 1%nat
        end
      else if isLF c then 1%nat
      else S (lineMatch r)
  end.

(** Offset at which line number [n] starts: [n] matches of [lineEndingRE]
    are skipped ("line endings are recognized as \r\n, \r or \n
    independently per line"). *)
Fixpoint lineOffset (t : Text) (n : nat) : nat :=
  match n with
  | O => 0%nat
  | S n' => let m := lineMatch t in (m + lineOffset (skipn m t) n')%nat
  end.

(** Modelled from the spec: the module text-util is missing from the
    sources; [offsetAt] is the pure conversion of a position to an offset:
    the start of the position's line plus its character. *)
Definition offsetAt (t : Text) (p : Position) : Z :=
  Z.of_nat (lineOffset t (line p)) + Z.of_nat (character p).

(** Walk over [n] code units from position [(l, c)]. *)
Fixpoint advance (t : Text) (n l c : nat) : Position :=
  match n, t with
  | O, _ => {| line := l; character := c |}
  | S _, [] => {| line := l; character := c |}
  | S n', x :: r =>
      if isLF x then advance r n' (S l) 0%nat
      else if isCR x then
        match r with
        | y :: _ => if isLF y then advance r n' l (S c)
                    else advance r n' (S l) 0%nat
        | [] => advance r n' (S l) 0%nat
        end
      else advance r n' l (S c)
  end.

(** Modelled from the spec: the module text-util is missing from the
    sources; [positionAt] is the pure conversion of an offset to a
    position; an offset past the end is the position of the end. *)
Definition positionAt (t : Text) (offset : Z) : Position :=
  advance t (Z.to_nat offset) 0%nat 0%nat.

End textUtil.

(** ** Protocol types

    The enumerations are those the controller names; payloads that the
    controller only passes on are kept as opaque records. *)

(** [coqProto.SentenceStatus]: the six members that
    [sentenceStatusToHighlightType] and [highlightTypeToSentenceStatus]
    convert. *)
Module coqProto.
Inductive SentenceStatus :=
| Parsed | ProcessingInput | Processed | InProgress | Incomplete | Complete.
End coqProto.

(** [thmProto.HighlightType]: the closed set of highlight styles. *)
Module thmProto.
Inductive HighlightType :=
| Clear | Parsing | Processing | InProgress | Incomplete | Processed
| Complete | TacticFailure.

Record Highlight := { style : HighlightType; range : Range }.
End thmProto.

Inductive DiagnosticSeverity := SevError | SevWarning | SevInformation | SevHint.

Record Diagnostic := {
  drange : Range;
  dmessage : string;
  severity : DiagnosticSeverity;
  source : string
}.

Module DiagnosticNS.
(** [Diagnostic.create(range, message, severity, code, source)]; the
    controller passes [undefined] for the code. *)
Definition create (r : Range) (m : string) (sev : DiagnosticSeverity)
    (src : string) : Diagnostic :=
  {| drange := r; dmessage := m; severity := sev; source := src |}.
End DiagnosticNS.

(** An element of [stm.getErrors()]. *)
Record SentenceError := {
  erange : Range;
  emessage : string;
  esentence : Range
}.

(** [TextDocumentContentChangeEvent] *)
Record Change := { crange : Range; rangeLength : Z; ctext : Text }.

(** An element of the command sequence: [{text, range}]. *)
Record Command := { cmdText : Text; cmdRange : Range }.

Record FailValue := { failMessage : string; failRange : option Range }.
Record ProofView := { goals : list string }.
Record CommandInterrupted := { interruptedRange : option Range }.

(** [GoalResult] of the STM: a tagged union on [type]. *)
Inductive GoalResult :=
| GNotRunning
| GNoProof
| GFailure (f : FailValue)
| GProofView (p : ProofView)
| GInterrupted (i : CommandInterrupted).

(** [thmProto.CommandResult]: every variant but not-running carries
    [focus]. *)
Inductive CommandResult :=
| RNotRunning
| RNoProof (focus : Position)
| RFailure (f : FailValue) (focus : Position)
| RProofView (p : ProofView) (focus : Position)
| RInterrupted (i : CommandInterrupted) (focus : Position).

(** The [focus] field of a result, when it has one. *)
Definition focusOf (r : CommandResult) : option Position :=
  match r with
  | RNotRunning => None
  | RNoProof f | RFailure _ f | RProofView _ f | RInterrupted _ f => Some f
  end.

(** The variant ([type] tag and payload) of a result, without its focus. *)
Definition variantOf (r : CommandResult) : GoalResult :=
  match r with
  | RNotRunning => GNotRunning
  | RNoProof _ => GNoProof
  | RFailure f _ => GFailure f
  | RProofView p _ => GProofView p
  | RInterrupted i _ => GInterrupted i
  end.

Record CancellationToken := { isCancellationRequested : bool }.
Record CoqTopSettings := { coqtopArgs : list string }.
Record LtacProfResults := { profEntries : list string }.

(** A value of the enum [coqProto.MessageLevel], which is not in the
    sources: a number, with the name that the enum gives this number,
    [coqProto.MessageLevel[level]]; a number that is no member of the enum
    has none. *)
Record MessageLevel := { levelNumber : nat; levelName : option string }.

(** The callbacks handed to the STM at construction ([resetCoq]). *)
Inductive StmCallback :=
| sentenceStatusUpdate (range : Range) (status : coqProto.SentenceStatus)
| clearSentence (range : Range)
| error (sentenceRange errorRange : Range) (message : string)
| message (level : MessageLevel) (text : string) (rich : option string)
| ltacProfResults (range : Range) (results : LtacProfResults)
| coqDied (reason : option string).

(** ** What the controller does to the outside

    Every notification sent through [DocumentCallbacks], every line written
    to the client console and every call made on the STM, in the order in
    which they happen. *)

Inductive StmCall :=
| newCoqStateMachine
| callShutdown
| callApplyChanges (sortedChanges : list Change) (newVersion : Z)
| callStepForward
| callStepBackward
| callInterpretToPoint (pos : Position) (token : CancellationToken)
| callGetGoal.

Inductive Action :=
| sendHighlightUpdates (highlights : list thmProto.Highlight)
| sendDiagnostics (diagnostics : list Diagnostic)
| sendMessage (level : option string) (text : string) (rich : option string)
| sendReset
| sendLtacProfResults (results : LtacProfResults)
| consoleError (text : string)
| onStm (c : StmCall).

(** A promise settles with a value or is rejected. *)
Inductive Outcome (A : Type) :=
| Return (a : A)
| Throw (e : string).
Arguments Return {A} a.
Arguments Throw {A} e.

(** ** The command iterator

    [commandSequenceGenerator] is a generator function: what is handed to
    the STM is a suspended generator, which runs up to its next [yield] each
    time the STM calls [next()]. *)
Inductive Generator :=
| GenStart (begin : Position) (endPos : option Position) (highlight : bool)
| GenYielded (endOffset nextOffset : Z) (result : Command) (highlight : bool)
| GenDone.

(** [CommandIterator] of the STM: [(begin, end?) => iterator]. *)
Definition CommandIterator := Position -> option Position -> Generator.

(** ** The STM, as the controller sees it

    An operation of the STM is asynchronous.  Until it settles it may invoke
    the callbacks it was constructed with and pull commands from an
    iterator; [s] is the state of the machine at that moment, which is what
    the controller reads through [this.stm] inside a callback. *)
Inductive StmOp (Stm A : Type) :=
| Settle (s : Stm) (r : Outcome A)
| Invoke (s : Stm) (cb : StmCallback) (k : StmOp Stm A)
| Next (g : Generator) (k : option Command -> Generator -> StmOp Stm A).
Arguments Settle {Stm A} s r.
Arguments Invoke {Stm A} s cb k.
Arguments Next {Stm A} g k.

(** The members of [CoqStateMachine] that the controller uses.  What
    [stepForward] and [interpretToPoint] resolve to, when it is not null, is
    returned to the client as it is, so it is a [CommandResult]. *)
Class CoqStateMachine (Stm : Type) := {
  construct : CoqTopSettings -> Stm;
  isRunning : Stm -> bool;
  getFocusedPosition : Stm -> Position;
  getErrors : Stm -> list SentenceError;
  shutdown : Stm -> StmOp Stm unit;
  applyChanges : list Change -> Z -> Stm -> StmOp Stm unit;
  stmStepForward : CommandIterator -> Stm -> StmOp Stm (option CommandResult);
  stmStepBackward : Stm -> StmOp Stm unit;
  stmInterpretToPoint :
    Position -> CommandIterator -> CancellationToken -> Stm ->
    StmOp Stm (option CommandResult);
  stmGetGoal : Stm -> StmOp Stm GoalResult
}.

(** The sentence parser: [coqParser.parseSentence(text)] is the length of
    the first sentence of [text]; it is not positive when there is none. *)
Class CoqParser := { parseSentence : Text -> Z }.

(** ** [Array.prototype.sort]

    The sort is the one of the JavaScript engine, and the controller is
    verified for every engine.  The comparison function of
    [applyTextEdits] never answers 0, so which of two changes that start
    at the same position comes first is left to the engine. *)
Class ArraySort := {
  sort : forall {A : Type}, (A -> A -> Z) -> list A -> list A
}.

(** What the statements on the order of a batch take from the engine, and
    what a comparison sort gives: the sorted array holds the same
    elements; when the comparison function never puts two elements each
    before the other and what it does not put after is transitive, no
    element of the sorted array is put by it before an earlier one; and
    the engine reads the elements through the comparison function only. *)
Class ArraySortLaws (engine : ArraySort) : Prop := {
  sort_permutes :
    forall (A : Type) (comparefn : A -> A -> Z) (a : list A),
      Permutation a (sort comparefn a);
  sort_orders :
    forall (A : Type) (comparefn : A -> A -> Z) (a : list A),
      (forall x y, comparefn x y <= 0 -> ~ comparefn y x < 0) ->
      (forall x y z,
          ~ comparefn y x < 0 -> ~ comparefn z y < 0 -> ~ comparefn z x < 0) ->
      StronglySorted (fun x y => ~ comparefn y x < 0) (sort comparefn a);
  sort_compares :
    forall (A B : Type) (R : A -> B -> Prop)
           (comparefn : A -> A -> Z) (comparefn' : B -> B -> Z),
      (forall x y x' y',
          R x x' -> R y y' -> comparefn x y = comparefn' x' y') ->
      forall a b,
        Forall2 R a b -> Forall2 R (sort comparefn a) (sort comparefn' b)
}.

(** One engine: the insertion sort that V8 ran on arrays of at most ten
    elements.  Each element in turn moves left past every element [tmp] of
    the sorted prefix with [comparefn(tmp, element) > 0].  The prefix is
    kept reversed, its last element first. *)
Module InsertionSort.
Section Sort.
Context {A : Type} (comparefn : A -> A -> Z).

Fixpoint insertLeft (element : A) (revPrefix : list A) : list A :=
  match revPrefix with
  | [] => [element]
  | tmp :: rest =>
      if comparefn tmp element >? 0 then tmp :: insertLeft element rest
      else element :: tmp :: rest
  end.

Definition sorted (a : list A) : list A :=
  rev (fold_left (fun revPrefix element => insertLeft element revPrefix) a []).
End Sort.

Definition engine : ArraySort := {| sort := @sorted |}.
End InsertionSort.

(** ** The controller: state and effects *)

(** The fields of the class [CoqDocument] that its methods read or write.
    [stmIdentity] is not a field: it tells the machine objects apart that
    [this.stm] holds one after the other, so that an operation still running
    on a machine that was replaced does not write to the new one. *)
Record CoqDocument (Stm : Type) := {
  uri : string;
  version : option Z;
  documentText : Text;
  stm : option Stm;
  stmIdentity : nat;
  coqtopSettings : CoqTopSettings
}.
Arguments uri {Stm} _.
Arguments version {Stm} _.
Arguments documentText {Stm} _.
Arguments stm {Stm} _.
Arguments stmIdentity {Stm} _.
Arguments coqtopSettings {Stm} _.

Definition setStm {Stm} (d : CoqDocument Stm) (s : option Stm) (i : nat) :=
  {| uri := uri d; version := version d; documentText := documentText d;
     stm := s; stmIdentity := i; coqtopSettings := coqtopSettings d |}.

Definition setDocumentText {Stm} (d : CoqDocument Stm) (t : Text) :=
  {| uri := uri d; version := version d; documentText := t;
     stm := stm d; stmIdentity := stmIdentity d;
     coqtopSettings := coqtopSettings d |}.

Definition setVersion {Stm} (d : CoqDocument Stm) (v : Z) :=
  {| uri := uri d; version := Some v; documentText := documentText d;
     stm := stm d; stmIdentity := stmIdentity d;
     coqtopSettings := coqtopSettings d |}.

(** A method of the controller: from the state of the document to its
    outcome, the new state and what was done to the outside, in order. *)
Definition M (Stm A : Type) : Type :=
  CoqDocument Stm -> Outcome A * CoqDocument Stm * list Action.

Section Effects.
Context {Stm : Type}.

Definition ret {A} (a : A) : M Stm A := fun d => (Return a, d, []).

Definition throw {A} (e : string) : M Stm A := fun d => (Throw e, d, []).

Definition bind {A B} (m : M Stm A) (f : A -> M Stm B) : M Stm B :=
  fun d =>
    match m d with
    | (Return a, d1, t1) => let '(o, d2, t2) := f a d1 in (o, d2, t1 ++ t2)
    | (Throw e, d1, t1) => (Throw e, d1, t1)
    end.

Definition get : M Stm (CoqDocument Stm) := fun d => (Return d, d, []).

Definition put (d' : CoqDocument Stm) : M Stm unit :=
  fun _ => (Return tt, d', []).

Definition emit (a : Action) : M Stm unit := fun d => (Return tt, d, [a]).

(** [try { body } finally { fin }]: [fin] runs whatever the outcome of
    [body]; the outcome is that of [body] unless [fin] throws. *)
Definition tryFinally {A} (body : M Stm A) (fin : M Stm unit) : M Stm A :=
  fun d =>
    let '(o, d1, t1) := body d in
    match fin d1 with
    | (Return _, d2, t2) => (o, d2, t1 ++ t2)
    | (Throw e, d2, t2) => (Throw e, d2, t1 ++ t2)
    end.

(** [try { body } catch (err) { handler }] *)
Definition tryCatch {A} (body : M Stm A) (handler : string -> M Stm A)
    : M Stm A :=
  fun d =>
    match body d with
    | (Return a, d1, t1) => (Return a, d1, t1)
    | (Throw e, d1, t1) =>
        let '(o, d2, t2) := handler e d1 in (o, d2, t1 ++ t2)
    end.
End Effects.

Declare Scope ctl_scope.
Delimit Scope ctl_scope with ctl.
Notation "x <- m ;; k" := (bind m (fun x => k))
  (at level 100, m at next level, right associativity) : ctl_scope.
Notation "m ;; k" := (bind m (fun _ => k))
  (at level 100, right associativity) : ctl_scope.
Local Open Scope ctl_scope.

(** The parts of the outcome of a method. *)
Definition outcomeOf {Stm A} (x : Outcome A * CoqDocument Stm * list Action) :=
  fst (fst x).
Definition stateOf {Stm A} (x : Outcome A * CoqDocument Stm * list Action) :=
  snd (fst x).
Definition actionsOf {Stm A} (x : Outcome A * CoqDocument Stm * list Action) :=
  snd x.

(** ** The controller: methods of [CoqDocument] *)

Section Controller.
Context {Stm : Type} {machine : CoqStateMachine Stm} {parser : CoqParser}
        {engine : ArraySort}.

Abbreviation Ctl := (M Stm).

Definition applyEditToDocument (begin : Z) (change : Change) : Ctl unit :=
  d <- get;;
  put (setDocumentText d
         (substring (documentText d) 0 begin
          ++ ctext change
          ++ substringFrom (documentText d) (begin + rangeLength change))).

Definition offsetAt (pos : Position) : Ctl Z :=
  d <- get;; ret (textUtil.offsetAt (documentText d) pos).

Definition positionAt (offset : Z) : Ctl Position :=
  d <- get;; ret (textUtil.positionAt (documentText d) offset).

Definition sentenceStatusToHighlightType (status : coqProto.SentenceStatus)
    : thmProto.HighlightType :=
  match status with
  | coqProto.Complete => thmProto.Complete
  | coqProto.Incomplete => thmProto.Incomplete
  | coqProto.InProgress => thmProto.InProgress
  | coqProto.Parsed => thmProto.Parsing
  | coqProto.Processed => thmProto.Processed
  | coqProto.ProcessingInput => thmProto.Processing
  end.

Definition highlightTypeToSentenceStatus (type : thmProto.HighlightType)
    : Outcome coqProto.SentenceStatus :=
  match type with
  | thmProto.Complete => Return coqProto.Complete
  | thmProto.Incomplete => Return coqProto.Incomplete
  | thmProto.InProgress => Return coqProto.InProgress
  | thmProto.Parsing => Return coqProto.Parsed
  | thmProto.Processed => Return coqProto.Processed
  | thmProto.Processing => Return coqProto.ProcessingInput
  | thmProto.Clear => Throw "Cannot convert Clear to a SentenceStatus"
  | thmProto.TacticFailure =>
      Throw "Cannot convert TacticFailure to a SentenceStatus"
  end.

Definition highlightSentence (sentence : Range)
    (type : thmProto.HighlightType) : thmProto.Highlight :=
  {| thmProto.style := type; thmProto.range := sentence |}.

(** [this.stm.m(...)] for a synchronous member [m]: a [TypeError] when
    [this.stm] is null. *)
Definition withStm {A} (m : Stm -> A) : Ctl A :=
  d <- get;;
  match stm d with
  | Some s => ret (m s)
  | None => throw "TypeError: this.stm is null"
  end.

(** The diagnostics of a list of sentence errors. *)
Definition diagnosticsOf (errors : list SentenceError) : list Diagnostic :=
  map (fun error =>
         DiagnosticNS.create (erange error) (emessage error) SevError "coqtop")
      errors.

Definition updateDiagnostics : Ctl unit :=
  errors <- withStm getErrors;;
  emit (sendDiagnostics (diagnosticsOf errors)).

Definition onCoqStateStatusUpdate (range : Range)
    (status : coqProto.SentenceStatus) : Ctl unit :=
  emit (sendHighlightUpdates
          [highlightSentence range (sentenceStatusToHighlightType status)]).

Definition onClearSentence (range : Range) : Ctl unit :=
  emit (sendHighlightUpdates [highlightSentence range thmProto.Clear]).

Definition onCoqStateError (sentenceRange errorRange : Range)
    (message : string) : Ctl unit :=
  emit (sendHighlightUpdates
          [highlightSentence sentenceRange thmProto.TacticFailure]);;
  updateDiagnostics.

Definition onCoqMessage (level : MessageLevel) (message : string)
    (rich_message : option string) : Ctl unit :=
  emit (sendMessage (levelName level) message rich_message).

Definition onCoqStateLtacProf (range : Range) (results : LtacProfResults)
    : Ctl unit :=
  emit (sendLtacProfResults results).

(** [this.stm && this.stm.isRunning()] *)
Definition stmIsRunning (d : CoqDocument Stm) : bool :=
  match stm d with
  | Some s => isRunning s
  | None => false
  end.

(** [shutdown] is called and not awaited: the machine is dropped at once,
    and what it still does afterwards is not followed. *)
Definition resetCoq : Ctl unit :=
  d <- get;;
  (if stmIsRunning d then emit (onStm callShutdown) else ret tt);;
  emit (onStm newCoqStateMachine);;
  put (setStm d (Some (construct (coqtopSettings d))) (S (stmIdentity d))).

(** [!error]: [undefined] and the empty string are falsy. *)
Definition falsy (error : option string) : bool :=
  match error with
  | None => true
  | Some e => String.eqb e EmptyString
  end.

Definition onCoqDied (error : option string) : Ctl unit :=
  if falsy error then ret tt
  else (resetCoq;; emit sendReset).

(** The table of callbacks that [resetCoq] gives to the constructor of the
    machine. *)
Definition callbacks (cb : StmCallback) : Ctl unit :=
  match cb with
  | sentenceStatusUpdate x1 x2 => onCoqStateStatusUpdate x1 x2
  | clearSentence x1 => onClearSentence x1
  | error x1 x2 x3 => onCoqStateError x1 x2 x3
  | message x1 x2 x3 => onCoqMessage x1 x2 x3
  | ltacProfResults x1 x2 => onCoqStateLtacProf x1 x2
  | coqDied e => onCoqDied e
  end.

Definition commandSequenceGenerator (begin : Position)
    (endPos : option Position) (highlight : bool) : Generator :=
  GenStart begin endPos highlight.

(** One turn of the [while(true)] loop of [commandSequenceGenerator], up to
    its [yield] or its [return]. *)
Definition generatorLoop (endOffset currentOffset : Z) (highlight : bool)
    : Ctl (option Command * Generator) :=
  d <- get;;
  let commandLength :=
    parseSentence (substr (documentText d) currentOffset endOffset) in
  let nextOffset := currentOffset + commandLength in
  if (commandLength >? 0) || (nextOffset >? endOffset) then
    p1 <- positionAt currentOffset;;
    p2 <- positionAt nextOffset;;
    let result :=
      {| cmdText := substring (documentText d) currentOffset nextOffset;
         cmdRange := RangeNS.create p1 p2 |} in
    ret (Some result, GenYielded endOffset nextOffset result highlight)
  else ret (None, GenDone).

(** [next()] on a generator of [commandSequenceGenerator]: the body runs
    from where it was suspended to the next [yield] or to its end. *)
Definition next (g : Generator) : Ctl (option Command * Generator) :=
  match g with
  | GenStart begin endPos highlight =>
      d <- get;;
      endOffset <-
        match endPos with
        | None => ret (textLength (documentText d))
        | Some e =>
            o <- offsetAt e;; ret (Z.min o (textLength (documentText d)))
        end;;
      currentOffset <- offsetAt begin;;
      if currentOffset >=? endOffset then ret (None, GenDone)
      else generatorLoop endOffset currentOffset highlight
  | GenYielded endOffset nextOffset result highlight =>
      (if highlight then
         emit (sendHighlightUpdates
                 [{| thmProto.style := thmProto.Parsing;
                     thmProto.range := cmdRange result |}])
       else ret tt);;
      generatorLoop endOffset nextOffset highlight
  | GenDone => ret (None, GenDone)
  end.

(** The argument [highlight] is not passed on: the generator runs with
    the default value of its third parameter. *)
Definition commandSequence (highlight : bool) : CommandIterator :=
  fun begin endPos => commandSequenceGenerator begin endPos false.

(** The machine [me] moved to state [s]; nothing to record when
    [this.stm] has been given another machine in the meantime. *)
Definition observe (me : nat) (s : Stm) : Ctl unit :=
  d <- get;;
  if Nat.eqb (stmIdentity d) me then put (setStm d (Some s) me) else ret tt.

(** [await] of an operation of the machine [me]: its callbacks and its
    pulls on the iterator run in the controller, in order; an exception
    thrown by a callback ends the operation. *)
Fixpoint await {A} (me : nat) (op : StmOp Stm A) : Ctl A :=
  match op with
  | Settle s r =>
      observe me s;;
      match r with
      | Return a => ret a
      | Throw e => throw e
      end
  | Invoke s cb k => observe me s;; callbacks cb;; await me k
  | Next g k => r <- next g;; await me (k (fst r) (snd r))
  end.

(** [await this.stm.op(...)] *)
Definition call {A} (c : StmCall) (op : Stm -> StmOp Stm A) : Ctl A :=
  d <- get;;
  match stm d with
  | Some s => emit (onStm c);; await (stmIdentity d) (op s)
  | None => throw "TypeError: this.stm is null"
  end.

Definition logDebuggingSentences : Ctl unit := withStm (fun _ => tt).

Definition close : Ctl unit := call callShutdown shutdown.

(** Make sure that the STM is running *)
Definition assertStm : Ctl unit :=
  d <- get;;
  if negb (stmIsRunning d) then resetCoq else ret tt.

Definition toGoal (goal : GoalResult) : Ctl CommandResult :=
  match goal with
  | GNotRunning => ret RNotRunning
  | GProofView p => f <- withStm getFocusedPosition;; ret (RProofView p f)
  | GNoProof => f <- withStm getFocusedPosition;; ret (RNoProof f)
  | GFailure v => f <- withStm getFocusedPosition;; ret (RFailure v f)
  | GInterrupted i =>
      f <- withStm getFocusedPosition;; ret (RInterrupted i f)
  end.

(** The comparison function of [applyTextEdits]: a change that starts
    after another one comes first. *)
Definition laterFirst (change1 change2 : Change) : Z :=
  if textUtil.positionIsAfter (start (crange change1))
                              (start (crange change2))
  then -1 else 1.

(** [for (const x of l) body] *)
Fixpoint forOf {A} (l : list A) (body : A -> Ctl unit) : Ctl unit :=
  match l with
  | [] => ret tt
  | x :: r => body x;; forOf r body
  end.

Definition applyTextEdits (changes : list Change) (newVersion : Z)
    : Ctl unit :=
  let sortedChanges := sort laterFirst changes in
  tryCatch
    (call (callApplyChanges sortedChanges newVersion)
          (applyChanges sortedChanges newVersion))
    (fun err =>
       emit (consoleError
               ("STM crashed while applying text edit: " ++ err)));;
  forOf sortedChanges
    (fun change =>
       beginOffset <- offsetAt (start (crange change));;
       applyEditToDocument beginOffset change);;
  d <- get;;
  put (setVersion d newVersion).

Definition stepForward (token : CancellationToken) : Ctl CommandResult :=
  assertStm;;
  tryFinally
    (error <- call callStepForward (stmStepForward (commandSequence true));;
     match error with
     | Some e => ret e
     | None =>
         logDebuggingSentences;;
         goal <- call callGetGoal stmGetGoal;;
         toGoal goal
     end)
    updateDiagnostics.

Definition stepBackward (token : CancellationToken) : Ctl CommandResult :=
  assertStm;;
  tryFinally
    (call callStepBackward stmStepBackward;;
     logDebuggingSentences;;
     goal <- call callGetGoal stmGetGoal;;
     toGoal goal)
    updateDiagnostics.

Definition interpretToPoint (offset : Z) (token : CancellationToken)
    : Ctl CommandResult :=
  assertStm;;
  tryFinally
    (pos <- positionAt offset;;
     focus <- withStm getFocusedPosition;;
     let parsingHighlights :=
       [{| thmProto.style := thmProto.Parsing;
           thmProto.range := RangeNS.create focus pos |}] in
     emit (sendHighlightUpdates parsingHighlights);;
     error <- call (callInterpretToPoint pos token)
                   (stmInterpretToPoint pos (commandSequence false) token);;
     match error with
     | Some e => ret e
     | None =>
         logDebuggingSentences;;
         goal <- call callGetGoal stmGetGoal;;
         toGoal goal
     end)
    updateDiagnostics.

(** A [CommandResult] is an object: [if(error)] holds of it. *)
Definition truthy (r : CommandResult) : bool := true.

Definition interpretToEnd (token : CancellationToken) : Ctl CommandResult :=
  assertStm;;
  tryFinally
    (d <- get;;
     error <- interpretToPoint (textLength (documentText d)) token;;
     if truthy error then ret error
     else
       (logDebuggingSentences;;
        goal <- call callGetGoal stmGetGoal;;
        toGoal goal))
    updateDiagnostics.

Definition getGoal : Ctl CommandResult :=
  d <- get;;
  if negb (stmIsRunning d) then ret RNotRunning
  else
    tryFinally
      (goal <- call callGetGoal stmGetGoal;; toGoal goal)
      updateDiagnostics.

(** [dispose] frees the machine, which is then dropped. *)
Definition quitCoq : Ctl unit :=
  d <- get;;
  if negb (stmIsRunning d) then ret tt
  else
    (call callShutdown shutdown;;
     d' <- get;;
     put (setStm d' None (S (stmIdentity d')))).

End Controller.

(** The constructor of [CoqDocument]: the text is stored and [resetCoq]
    creates the first machine; [version] is not set. *)
Definition newCoqDocument {Stm} `{CoqStateMachine Stm} `{CoqParser}
    (settings : CoqTopSettings) (uri : string) (text : Text)
    : CoqDocument Stm :=
  stateOf (resetCoq {| uri := uri; version := None; documentText := text;
                       stm := None; stmIdentity := 0;
                       coqtopSettings := settings |}).

(** ** The editor side

    [stepForward] and [stepBackward] of the editor's [CoqDocument] move the
    cursors to [value.focus] unless [value.type] is ['not-running']: where
    the cursors of the editors that did not move are put. *)
Module Client.
Definition cursorAfter (value : CommandResult) : option Position :=
  match value with
  | RNotRunning => None
  | RNoProof focus | RFailure _ focus | RProofView _ focus
  | RInterrupted _ focus => Some focus
  end.
End Client.

(** ** A sentence parser *)

Module coqParser.
Definition isSpace (c : ascii) : bool :=
  Ascii.eqb c " "%char || Ascii.eqb c "009"%char
  || textUtil.isCR c || textUtil.isLF c.
Definition isChar (x c : ascii) : bool := Ascii.eqb c x.

(** Inside a sentence that started [n] code units ago: up to the first
    "." that is followed by white space or by the end of the input,
    outside comments (nested [depth] deep) and quoted literals. *)
Fixpoint sentenceBody (t : Text) (n : Z) (depth : nat) (quoted : bool) : Z :=
  match t with
  | [] => -1
  | c :: r =>
      if quoted then sentenceBody r (n + 1) depth (negb (isChar "034" c))
      else
        match depth with
        | S depth' =>
            match r with
            | c2 :: r2 =>
                if isChar "*" c && isChar ")" c2
                then sentenceBody r2 (n + 2) depth' false
                else if isChar "(" c && isChar "*" c2
                then sentenceBody r2 (n + 2) (S depth) false
                else sentenceBody r (n + 1) depth false
            | [] => -1
            end
        | O =>
            if isChar "034" c then sentenceBody r (n + 1) O true
            else if isChar "." c then
              match r with
              | [] => n + 1
              | c2 :: _ =>
                  if isSpace c2 then n + 1 else sentenceBody r (n + 1) O false
              end
            else
              match r with
              | c2 :: r2 =>
                  if isChar "(" c && isChar "*" c2
                  then sentenceBody r2 (n + 2) 1%nat false
                  else sentenceBody r (n + 1) O false
              | [] => -1
              end
        end
  end.

(** Number of code units equal to [x] at the start of [t]. *)
Fixpoint run (x : ascii) (t : Text) : Z :=
  match t with
  | c :: r => if isChar x c then 1 + run x r else 0
  | [] => 0
  end.

(** Before the sentence: white space and comments are skipped; a bullet
    or a brace there is a sentence of its own. *)
Fixpoint sentenceStart (t : Text) (n : Z) (depth : nat) : Z :=
  match t with
  | [] => -1
  | c :: r =>
      match depth with
      | S depth' =>
          match r with
          | c2 :: r2 =>
              if isChar "*" c && isChar ")" c2
              then sentenceStart r2 (n + 2) depth'
              else if isChar "(" c && isChar "*" c2
              then sentenceStart r2 (n + 2) (S depth)
              else sentenceStart r (n + 1) depth
          | [] => -1
          end
      | O =>
          if isSpace c then sentenceStart r (n + 1) O
          else if isChar "{" c || isChar "}" c then n + 1
          else if isChar "-" c || isChar "+" c || isChar "*" c
          then n + 1 + run c r
          else
            match r with
            | c2 :: r2 =>
                if isChar "(" c && isChar "*" c2
                then sentenceStart r2 (n + 2) 1%nat
                else sentenceBody t n O false
            | [] => sentenceBody t n O false
            end
      end
  end.

(** Modelled from the spec: the module coq-parser is missing from the
    sources.  The terminator rules of the sentence parser: a sentence
    ends at a "." followed by white space or the end of the input, outside
    nested comments and quoted literals; a bullet or a brace at the start
    is a sentence of its own.  The result is the number of code units up
    to and including the terminator, counted from the start of the input,
    and -1 when the input holds no complete sentence.  Bracketed groups
    and backquote notations are read as ordinary text. *)
Definition parseSentence (t : Text) : Z := sentenceStart t 0 O.

Definition instance : CoqParser := Build_CoqParser parseSentence.
End coqParser.

(** ** A state machine over a prover that accepts sentences one by one *)

Module LinearStm.

(** The spine, its tip first, and the errors of the last operation. *)
Record State := {
  running : bool;
  spine : list Command;
  errors : list SentenceError
}.

Definition origin : Position := {| line := 0; character := 0 |}.

Definition focus (s : State) : Position :=
  match spine s with
  | tip :: _ => end_ (cmdRange tip)
  | [] => origin
  end.

Fixpoint trimStart (t : Text) : Text :=
  match t with
  | c :: r => if coqParser.isSpace c then trimStart r else t
  | [] => []
  end.

(** The prover fails on the sentence [Fail.] and on no other. *)
Definition proverAccepts (c : Command) : bool :=
  negb (String.eqb (string_of_list_ascii (trimStart (cmdText c))) "Fail.").

(** Modelled from the spec: the STM is missing from the sources.  [add] of
    one command at the tip, after section 4.3 of the specification: the
    sentence is reported as parsed, which the controller turns into the
    Parsing-style highlight, before the prover is asked; when the prover
    fails, the sentence is cleared and the error is recorded and reported;
    when it accepts, the sentence is on the spine and the operation goes on
    with [accepted]. *)
Definition add (s : State) (c : Command)
    (accepted : State -> StmOp State (option CommandResult))
    : StmOp State (option CommandResult) :=
  Invoke s (sentenceStatusUpdate (cmdRange c) coqProto.Parsed)
    (if proverAccepts c then
       let s' := {| running := running s; spine := c :: spine s;
                    errors := [] |} in
       Invoke s' (sentenceStatusUpdate (cmdRange c) coqProto.Processed)
         (accepted s')
     else
       let e := {| erange := cmdRange c; emessage := "syntax";
                   esentence := cmdRange c |} in
       let s' := {| running := running s; spine := spine s;
                    errors := [e] |} in
       Invoke s (clearSentence (cmdRange c))
         (Invoke s' (error (cmdRange c) (cmdRange c) "syntax")
            (Settle s'
               (Return
                  (Some (RFailure {| failMessage := "syntax";
                                     failRange := Some (cmdRange c) |}
                                  (focus s))))))).

Definition stepForward (commandSequence : CommandIterator) (s : State)
    : StmOp State (option CommandResult) :=
  if running s then
    Next (commandSequence (focus s) None)
      (fun c _ =>
         match c with
         | Some cmd => add s cmd (fun s' => Settle s' (Return None))
         | None => Settle s (Return None)
         end)
  else Settle s (Return None).

Definition stepBackward (s : State) : StmOp State unit :=
  match running s, spine s with
  | true, tip :: rest =>
      let s' := {| running := true; spine := rest; errors := [] |} in
      Invoke s' (clearSentence (cmdRange tip)) (Settle s' (Return tt))
  | _, _ => Settle s (Return tt)
  end.

(** Forward steps of [interpretToPoint], at most [n] of them: until the
    next sentence would exceed [target], the iterator is exhausted or the
    prover fails. *)
Fixpoint forwardTo (n : nat) (target : Position) (g : Generator)
    (s : State) : StmOp State (option CommandResult) :=
  match n with
  | O => Settle s (Return None)
  | S n' =>
      Next g
        (fun c g' =>
           match c with
           | None => Settle s (Return None)
           | Some cmd =>
               if textUtil.positionIsAfter (end_ (cmdRange cmd)) target
               then Settle s (Return None)
               else add s cmd (forwardTo n' target g')
           end)
  end.

(** The sentences of the spine that end at or before [target]. *)
Definition rewindTo (target : Position) (s : State) : State :=
  {| running := running s;
     spine := filter (fun c => negb (textUtil.positionIsAfter
                                       (end_ (cmdRange c)) target))
                     (spine s);
     errors := [] |}.

Definition maxSteps : nat := 4096.

Definition interpretToPoint (target : Position)
    (commandSequence : CommandIterator) (token : CancellationToken)
    (s : State) : StmOp State (option CommandResult) :=
  if negb (running s) then Settle s (Return None)
  else if textUtil.positionIsAfter (focus s) target
  then Settle (rewindTo target s) (Return None)
  else forwardTo maxSteps target (commandSequence (focus s) (Some target)) s.

Definition getGoal (s : State) : StmOp State GoalResult :=
  Settle s (Return (if running s then GNoProof else GNotRunning)).

Definition shutdown (s : State) : StmOp State unit :=
  Settle {| running := false; spine := spine s; errors := errors s |}
         (Return tt).

(** Every change rewinds the spine to the sentences that end at or before
    its start. *)
Definition applyChanges (changes : list Change) (newVersion : Z) (s : State)
    : StmOp State unit :=
  if running s then
    Settle (fold_left (fun s' change => rewindTo (start (crange change)) s')
                      changes s)
           (Return tt)
  else Settle s (Return tt).

(** Modelled from the spec: the class [CoqStateMachine] (module STM) is
    missing from the sources.  A machine after section 4.3 of the
    specification, with a linear spine and a prover that accepts every
    sentence but [Fail.]: a new machine is running, its spine is empty
    and its focus is the origin; [stepForward] reports the command at the
    focus as parsed before it adds it, and a failure of the prover clears
    the sentence, is recorded as an error and returned as a failure;
    [stepBackward] removes the tip and clears it;
    [interpretToPoint] rewinds or steps forward; after [shutdown] the
    machine is not running, changes nothing and answers not-running. *)
Definition instance : CoqStateMachine State :=
  @Build_CoqStateMachine State
    (fun _ => {| running := true; spine := []; errors := [] |})
    running focus errors shutdown applyChanges stepForward stepBackward
    interpretToPoint getGoal.
End LinearStm.

(** ** Vocabulary of the statements *)

(** [d'] differs from [d] in its machine at most, and holds a machine if
    [d] does. *)
Definition sameDocument {Stm} (d d' : CoqDocument Stm) : Prop :=
  uri d' = uri d /\ version d' = version d
  /\ documentText d' = documentText d
  /\ coqtopSettings d' = coqtopSettings d
  /\ (stm d <> None -> stm d' <> None).

(** A method that changes nothing of the document but its machine. *)
Definition steady {Stm A} (m : M Stm A) : Prop :=
  forall d, sameDocument d (stateOf (m d)).

(** The last thing a run did was to send the diagnostics of the errors of
    the machine that the document holds at the end. *)
Definition endsWithDiagnostics {Stm} `{CoqStateMachine Stm} {A}
    (x : Outcome A * CoqDocument Stm * list Action) : Prop :=
  exists s' t,
    stm (stateOf x) = Some s'
    /\ actionsOf x = t ++ [sendDiagnostics (diagnosticsOf (getErrors s'))].

(** The first things a run did were the actions [l], in this order. *)
Definition startsWith {Stm A} (l : list Action)
    (x : Outcome A * CoqDocument Stm * list Action) : Prop :=
  exists t, actionsOf x = l ++ t.

(** The calls made on the STM among the things a run did, in order. *)
Fixpoint stmCallsOf (t : list Action) : list StmCall :=
  match t with
  | [] => []
  | onStm c :: r => c :: stmCallsOf r
  | _ :: r => stmCallsOf r
  end.

(** The text after one change spliced in at offset [begin]. *)
Definition editAt (t : Text) (begin : Z) (change : Change) : Text :=
  substring t 0 begin ++ ctext change
  ++ substringFrom t (begin + rangeLength change).

(** The text after one change, its offset taken in the text as it is
    then. *)
Definition editText (t : Text) (change : Change) : Text :=
  editAt t (textUtil.offsetAt t (start (crange change))) change.

(** The text [t] with the code units of a change replaced: what comes
    before the offset [begin], the text of the change, and what comes after
    the [rangeLength] code units from [begin] on. *)
Definition spliceAt (t : Text) (begin : Z) (change : Change) : Text :=
  firstn (Z.to_nat begin) t ++ ctext change
  ++ skipn (Z.to_nat (begin + rangeLength change)) t.

(** The same, at the offset that the start of the change has in [t]. *)
Definition spliceText (t : Text) (change : Change) : Text :=
  spliceAt t (textUtil.offsetAt t (start (crange change))) change.

(** The offset of the start of a change, taken in the text [t0] as it was
    before the batch. *)
Definition offsetBefore (t0 : Text) (change : Change) : Z :=
  textUtil.offsetAt t0 (start (crange change)).

(** The offsets are below [bound] and strictly decreasing. *)
Fixpoint descendingFrom (bound : Z) (offsets : list Z) : bool :=
  match offsets with
  | [] => true
  | o :: r => (o <? bound) && descendingFrom o r
  end.

(** [change1] does not start after [change2]. *)
Definition startsNotAfter (change1 change2 : Change) : Prop :=
  textUtil.positionIsAfter (start (crange change1)) (start (crange change2))
  = false.

(** The statuses of a sentence in the specification and the table of their
    highlights. *)
Module Spec.
Inductive Status :=
| Parsed | Processing | InProgress | Incomplete | Processed | Complete
| Error | Cleared.

Definition highlightOf (st : Status) : thmProto.HighlightType :=
  match st with
  | Parsed => thmProto.Parsing
  | Processing => thmProto.Processing
  | InProgress => thmProto.InProgress
  | Incomplete => thmProto.Incomplete
  | Processed => thmProto.Processed
  | Complete => thmProto.Complete
  | Error => thmProto.TacticFailure
  | Cleared => thmProto.Clear
  end.

(** The status that a member of [coqProto.SentenceStatus] stands for. *)
Definition ofSentenceStatus (s : coqProto.SentenceStatus) : Status :=
  match s with
  | coqProto.Parsed => Parsed
  | coqProto.ProcessingInput => Processing
  | coqProto.Processed => Processed
  | coqProto.InProgress => InProgress
  | coqProto.Incomplete => Incomplete
  | coqProto.Complete => Complete
  end.

(** The status of a sentence that a callback of the machine reports, and
    the range of that sentence. *)
Definition reported (cb : StmCallback) : option (Range * Status) :=
  match cb with
  | sentenceStatusUpdate range status => Some (range, ofSentenceStatus status)
  | clearSentence range => Some (range, Cleared)
  | error sentenceRange _ _ => Some (sentenceRange, Error)
  | _ => None
  end.
End Spec.

(** ** Documents of the examples *)

Module Scenario.
Definition text (s : string) : Text := list_ascii_of_string s.
Definition settings : CoqTopSettings := {| coqtopArgs := [] |}.
Definition token : CancellationToken :=
  {| isCancellationRequested := false |}.
Definition at_ (l c : nat) : Position := {| line := l; character := c |}.

(** A document just opened on the text [s]. *)
Definition opened (s : string) : CoqDocument LinearStm.State :=
  @newCoqDocument _ LinearStm.instance coqParser.instance settings
                  "file:///a.v" (text s).

(** The document of the scenarios of the specification. *)
Definition abc : CoqDocument LinearStm.State := opened "A. B. C.".

(** A document whose only sentence the prover has refused, and the same
    document once its machine has been shut down by [close]. *)
Definition failed : CoqDocument LinearStm.State :=
  stateOf (@stepForward _ LinearStm.instance coqParser.instance token
                        (opened "Fail.")).
Definition closed : CoqDocument LinearStm.State :=
  stateOf (@close _ LinearStm.instance coqParser.instance failed).

(** The document of the scenarios once its machine has been shut down by
    [close]. *)
Definition stopped : CoqDocument LinearStm.State :=
  stateOf (@close _ LinearStm.instance coqParser.instance abc).

(** A document at version 5. *)
Definition versioned : CoqDocument LinearStm.State :=
  stateOf (@applyTextEdits _ LinearStm.instance coqParser.instance
                           InsertionSort.engine [] 5 (opened "abc")).

(** The insertion of [text] at [(l, c)]. *)
Definition insertion (l c : nat) (s : string) : Change :=
  {| crange := RangeNS.create (at_ l c) (at_ l c); rangeLength := 0;
     ctext := text s |}.

(** The replacement of [len] code units from [(l, c)] by [text]. *)
Definition replacement (l c len : nat) (s : string) : Change :=
  {| crange := RangeNS.create (at_ l c) (at_ l (c + len));
     rangeLength := Z.of_nat len; ctext := text s |}.
End Scenario.

(** ** More of the controller *)

(** An element of [stm.getSentences()], as [createHighlights] reads it. *)
Record Sentence := { sentRange : Range; sentStatus : coqProto.SentenceStatus }.

(** The two views of the machine that only [createHighlights] and
    [createDiagnostics] read. *)
Class SentenceViews (Stm : Type) := {
  getSentences : Stm -> list Sentence;
  getSentenceErrors : Stm -> list SentenceError
}.

(** [createHighlights]: the highlight of a sentence is computed and
    dropped, [highlights] is what is returned. *)
Definition createHighlights {Stm} `{SentenceViews Stm}
    : M Stm (list thmProto.Highlight) :=
  let highlights : list thmProto.Highlight := [] in
  sentences <- withStm getSentences;;
  forOf sentences
    (fun sent =>
       let dropped :=
         highlightSentence (sentRange sent)
           (sentenceStatusToHighlightType (sentStatus sent)) in
       ret tt);;
  ret highlights.

(** [createDiagnostics] *)
Definition createDiagnostics {Stm} `{SentenceViews Stm}
    : M Stm (list Diagnostic) :=
  errors <- withStm getSentenceErrors;;
  ret (fold_left
         (fun diagnostics error =>
            diagnostics
            ++ [{| drange := erange error; dmessage := emessage error;
                   severity := SevError; source := "coq" |}])
         errors []).

(** [for (const command of generator)], left after [n] commands at most: the
    commands taken and the generator as it is then. *)
Fixpoint pull {Stm} `{CoqParser} (n : nat) (g : Generator)
    : M Stm (list Command * Generator) :=
  match n with
  | O => ret ([], g)
  | S n' =>
      r <- next g;;
      match fst r with
      | None => ret ([], snd r)
      | Some c =>
          rest <- pull n' (snd r);;
          ret (c :: fst rest, snd rest)
      end
  end.

(** The value of [highlight] in a generator. *)
Definition highlighting (g : Generator) : bool :=
  match g with
  | GenStart _ _ h | GenYielded _ _ _ h => h
  | GenDone => false
  end.

(** [endOffset] of [commandSequenceGenerator] on the text [t]. *)
Definition endOffsetOf (t : Text) (endPos : option Position) : Z :=
  match endPos with
  | None => textLength t
  | Some e => Z.min (textUtil.offsetAt t e) (textLength t)
  end.

(** Each command starts at the position where the one before it ends, the
    first one at [p]. *)
Fixpoint contiguousFrom (p : Position) (cs : list Command) : Prop :=
  match cs with
  | [] => True
  | c :: r => start (cmdRange c) = p /\ contiguousFrom (end_ (cmdRange c)) r
  end.

(** The text of the command is the slice of [t] between two offsets, and
    its range lies between the positions of these offsets. *)
Definition sliceOf (t : Text) (c : Command) : Prop :=
  exists a b,
    cmdText c = substring t a b
    /\ cmdRange c
       = RangeNS.create (textUtil.positionAt t a) (textUtil.positionAt t b).

(** A machine whose operations are all rejected. *)
Module BrokenStm.
Definition rejected {A} (s : unit) : StmOp unit A :=
  Settle s (Throw "coqtop is not responding").

Definition instance : CoqStateMachine unit :=
  @Build_CoqStateMachine unit
    (fun _ => tt) (fun _ => true)
    (fun _ => {| line := 0; character := 0 |}) (fun _ => [])
    rejected (fun _ _ => rejected) (fun _ => rejected) rejected
    (fun _ _ _ => rejected) rejected.
End BrokenStm.

(** Two changes that start at the same position, replace as many code
    units and put the same text: they differ in the end of their range at
    most. *)
Definition sameEffect (change1 change2 : Change) : Prop :=
  start (crange change1) = start (crange change2)
  /\ rangeLength change1 = rangeLength change2
  /\ ctext change1 = ctext change2.

(** ** The editor side: the [CoqDocument] of the extension

    The status bar, the highlights, the goal view, the output channels and
    the language server are other objects: what the document does to them
    is recorded in order, and their methods are taken to return; only a
    request to the server can fail.  The state is what the methods read and
    write themselves: the visible editors of the window with their
    selections and the set [cursorUnmovedSinceCommandInitiated]. *)
Module Editor.

Record Selection := { anchor : Position; active : Position }.

(** A [vscode.TextEditor]: [editorId] stands for the identity of the
    object. *)
Record TextEditor := {
  editorId : nat;
  editorUri : string;
  selections : list Selection
}.

Inductive Channel := infoOut | queryOut | noticeOut.

Definition Channel_eqb (c c' : Channel) : bool :=
  match c, c' with
  | infoOut, infoOut | queryOut, queryOut | noticeOut, noticeOut => true
  | _, _ => false
  end.

(** The requests sent through [CoqLanguageServer]. *)
Inductive Request :=
| reqStepForward | reqStepBackward | reqInterpretToPoint (offset : Z)
| reqInterpretToEnd | reqInterruptCoq | reqQuitCoq | reqResetCoq
| reqCheck (query : string) | reqLocate (query : string)
| reqSearch (query : string) | reqSearchAbout (query : string)
| reqLtacProfGetResults (offset : Z).

Inductive Ui :=
| setStateWorking (name : string)
| setStateReady
| setStateComputing (status : string) (computeTimeMS : Z)
| statusFocus
| statusUnfocus
| viewUpdate (value : CommandResult)
| clearAllHighlights (editors : list nat)
| updateHighlightsOf (editors : list nat) (params : list thmProto.Highlight)
| refreshHighlights (editors : list nat)
| channelShow (c : Channel)
| channelClear (c : Channel)
| channelAppend (c : Channel) (text : string)
| channelAppendLine (c : Channel) (text : string)
| showErrorMessage (text : string)
| newHtmlLtacProf (results : LtacProfResults)
| request (r : Request).

Record State := {
  documentUri : string;
  visibleTextEditors : list TextEditor;
  cursorUnmovedSinceCommandInitiated : list nat
}.

Definition C (A : Type) : Type := State -> Outcome A * State * list Ui.

Definition outcomeOf {A} (x : Outcome A * State * list Ui) := fst (fst x).
Definition stateOf {A} (x : Outcome A * State * list Ui) := snd (fst x).
Definition actionsOf {A} (x : Outcome A * State * list Ui) := snd x.

Definition ret {A} (a : A) : C A := fun st => (Return a, st, []).
Definition throw {A} (e : string) : C A := fun st => (Throw e, st, []).
Definition bind {A B} (m : C A) (f : A -> C B) : C B :=
  fun st =>
    match m st with
    | (Return a, st1, t1) =>
        let '(o, st2, t2) := f a st1 in (o, st2, t1 ++ t2)
    | (Throw e, st1, t1) => (Throw e, st1, t1)
    end.
Definition get : C State := fun st => (Return st, st, []).
Definition put (st' : State) : C unit := fun _ => (Return tt, st', []).
Definition emit (a : Ui) : C unit := fun st => (Return tt, st, [a]).

(** [try { body } catch (err) { }] *)
Definition tryCatch {A} (body : C A) (handler : string -> C A) : C A :=
  fun st =>
    match body st with
    | (Return a, st1, t1) => (Return a, st1, t1)
    | (Throw e, st1, t1) =>
        let '(o, st2, t2) := handler e st1 in (o, st2, t1 ++ t2)
    end.

(** [try { body } finally { fin }] *)
Definition tryFinally {A} (body : C A) (fin : C unit) : C A :=
  fun st =>
    let '(o, st1, t1) := body st in
    match fin st1 with
    | (Return _, st2, t2) => (o, st2, t1 ++ t2)
    | (Throw e, st2, t2) => (Throw e, st2, t1 ++ t2)
    end.

Declare Scope ui_scope.
Delimit Scope ui_scope with ui.
Notation "x <- m ;; k" := (bind m (fun x => k))
  (at level 100, m at next level, right associativity) : ui_scope.
Notation "m ;; k" := (bind m (fun _ => k))
  (at level 100, right associativity) : ui_scope.
Local Open Scope ui_scope.

Fixpoint forOf {A} (l : list A) (body : A -> C unit) : C unit :=
  match l with
  | [] => ret tt
  | x :: r => body x;; forOf r body
  end.

(** [Set.has], [Set.add] and [Set.delete] on a set kept in the order in
    which its elements were added. *)
Definition setHas (x : nat) (s : list nat) : bool := existsb (Nat.eqb x) s.
Definition setAdd (x : nat) (s : list nat) : list nat :=
  if setHas x s then s else s ++ [x].
Definition setDelete (x : nat) (s : list nat) : list nat :=
  filter (fun y => negb (Nat.eqb x y)) s.

Definition setUnmoved (st : State) (s : list nat) : State :=
  {| documentUri := documentUri st;
     visibleTextEditors := visibleTextEditors st;
     cursorUnmovedSinceCommandInitiated := s |}.

Definition withSelections (sels : list Selection) (e : TextEditor)
    : TextEditor :=
  {| editorId := editorId e; editorUri := editorUri e; selections := sels |}.

(** [editor.selections = sels] on the editor [id]. *)
Definition setSelections (id : nat) (sels : list Selection) (st : State)
    : State :=
  {| documentUri := documentUri st;
     visibleTextEditors :=
       map (fun e => if Nat.eqb (editorId e) id
                     then withSelections sels e else e)
           (visibleTextEditors st);
     cursorUnmovedSinceCommandInitiated :=
       cursorUnmovedSinceCommandInitiated st |}.

Definition allEditors (st : State) : list TextEditor :=
  filter (fun editor => String.eqb (editorUri editor) (documentUri st))
         (visibleTextEditors st).

Definition reset : C unit :=
  st <- get;; emit (clearAllHighlights (map editorId (allEditors st))).

Definition rememberCursors : C unit :=
  st <- get;;
  put (setUnmoved st []);;
  forOf (allEditors st)
    (fun editor =>
       st' <- get;;
       put (setUnmoved st'
              (setAdd (editorId editor)
                      (cursorUnmovedSinceCommandInitiated st')))).

(** The listener of [onDidChangeTextEditorSelection] that the constructor
    installs. *)
Definition onDidChangeTextEditorSelection (editor : nat) : C unit :=
  st <- get;;
  if setHas editor (cursorUnmovedSinceCommandInitiated st)
  then put (setUnmoved st
              (setDelete editor (cursorUnmovedSinceCommandInitiated st)))
  else ret tt.

(** The user changes the selections of an editor: the editor gets them and
    the listener runs. *)
Definition userSelects (change : nat * list Selection) : C unit :=
  st <- get;;
  put (setSelections (fst change) (snd change) st);;
  onDidChangeTextEditorSelection (fst change).

(** [await this.langServer.r(...)]: the request is sent; until the reply
    comes the user may change selections, in the editors that are visible
    when the command starts; the promise settles with [reply]. *)
Definition awaitServer {A} (r : Request) (during : list (nat * list Selection))
    (reply : Outcome A) : C A :=
  emit (request r);;
  forOf during userSelects;;
  match reply with
  | Return a => ret a
  | Throw e => throw e
  end.

Definition onDidUpdateHighlights (params : list thmProto.Highlight) : C unit :=
  st <- get;;
  forOf (allEditors st)
    (fun editor =>
       st' <- get;;
       emit (updateHighlightsOf (map editorId (allEditors st')) params)).

Definition onUpdateComputingStatus (status : string) (computeTimeMS : Z)
    : C unit :=
  emit (setStateComputing status computeTimeMS).

(** The [switch] on [params.level]: the case of a warning has no [return]
    and runs on into the case of an info. *)
Definition onCoqMessage (level messageText : string) : C unit :=
  if String.eqb level "warning" then
    emit (channelShow infoOut);;
    emit (channelAppendLine infoOut messageText);;
    emit (channelShow infoOut);;
    emit (channelAppendLine infoOut messageText)
  else if String.eqb level "info" then
    emit (channelShow infoOut);;
    emit (channelAppendLine infoOut messageText)
  else if String.eqb level "notice" then
    emit (channelClear noticeOut);;
    emit (channelShow noticeOut);;
    emit (channelAppend noticeOut messageText)
  else if String.eqb level "error" then
    emit (showErrorMessage messageText)
  else ret tt.

Definition onCoqReset : C unit := reset;; emit setStateReady.

Definition onLtacProfResults (results : LtacProfResults) : C unit :=
  emit (newHtmlLtacProf results).

Definition interruptCoq (reply : Outcome unit) : C unit :=
  emit (setStateWorking "Killing CoqTop");;
  tryFinally (awaitServer reqInterruptCoq [] reply) (ret tt);;
  emit setStateReady.

Definition quitCoq (reply : Outcome unit) : C unit :=
  emit (setStateWorking "Killing CoqTop");;
  tryFinally (awaitServer reqQuitCoq [] reply) (ret tt);;
  reset;;
  emit setStateReady.

Definition resetCoq (reply : Outcome unit) : C unit :=
  emit (setStateWorking "Resetting Coq");;
  tryFinally (awaitServer reqResetCoq [] reply) (ret tt);;
  reset;;
  emit setStateReady.

(** The cursors of the editors left in the set go to [value.focus]. *)
Definition moveCursors (value : CommandResult) : C unit :=
  match Client.cursorAfter value with
  | None => ret tt
  | Some focus =>
      st <- get;;
      forOf (cursorUnmovedSinceCommandInitiated st)
        (fun editor =>
           st' <- get;;
           put (setSelections editor
                  [{| anchor := focus; active := focus |}] st'))
  end.

Definition stepForward (during : list (nat * list Selection))
    (reply : Outcome CommandResult) : C unit :=
  emit (setStateWorking "Stepping forward");;
  tryCatch
    (rememberCursors;;
     value <- awaitServer reqStepForward during reply;;
     emit (viewUpdate value);;
     moveCursors value)
    (fun err => ret tt);;
  emit setStateReady.

Definition stepBackward (during : list (nat * list Selection))
    (reply : Outcome CommandResult) : C unit :=
  emit (setStateWorking "Stepping backward");;
  tryCatch
    (rememberCursors;;
     value <- awaitServer reqStepBackward during reply;;
     emit (viewUpdate value);;
     moveCursors value)
    (fun err => ret tt);;
  emit setStateReady.

(** [!editor || editor.document.uri.toString() !== this.documentUri] *)
Definition notMine (editor : option TextEditor) (st : State) : bool :=
  match editor with
  | None => true
  | Some e => negb (String.eqb (editorUri e) (documentUri st))
  end.

(** [offset] is [editor.document.offsetAt(editor.selection.active)].  The
    [return] inside [try] leaves the method: what follows the [try] is not
    run. *)
Definition interpretToCursorPosition (editor : option TextEditor)
    (offset : Z) (during : list (nat * list Selection))
    (reply : Outcome CommandResult) : C unit :=
  emit (setStateWorking "Interpretting to point");;
  returned <-
    tryCatch
      (st <- get;;
       if notMine editor st then ret true
       else
         (value <- awaitServer (reqInterpretToPoint offset) during reply;;
          emit (viewUpdate value);;
          ret false))
      (fun err => ret false);;
  if returned then ret tt else emit setStateReady.

Definition interpretToEnd (during : list (nat * list Selection))
    (reply : Outcome CommandResult) : C unit :=
  emit (setStateWorking "Interpreting to end");;
  tryCatch
    (value <- awaitServer reqInterpretToEnd during reply;;
     emit (viewUpdate value))
    (fun err => ret tt);;
  emit setStateReady.

(** [check] returns what the server answers, and [undefined] when the
    request fails. *)
Definition check (query : string) (reply : Outcome string)
    : C (option string) :=
  emit (setStateWorking "Running query");;
  tryFinally
    (tryCatch
       (r <- awaitServer (reqCheck query) [] reply;; ret (Some r))
       (fun err => ret None))
    (emit setStateReady).

Definition displayQueryResults (searchResults : string) : C unit :=
  emit (channelClear queryOut);;
  emit (channelShow queryOut);;
  emit (channelAppend queryOut searchResults).

Definition query (r : Request) (reply : Outcome string) : C unit :=
  emit (setStateWorking "Running query");;
  tryFinally
    (tryCatch
       (results <- awaitServer r [] reply;; displayQueryResults results)
       (fun err => ret tt))
    (emit setStateReady).

Definition locate (q : string) := query (reqLocate q).
Definition search (q : string) := query (reqSearch q).
Definition searchAbout (q : string) := query (reqSearchAbout q).

Definition ltacProfGetResults (editor : option TextEditor) (offset : Z)
    (reply : Outcome unit) : C unit :=
  emit (setStateWorking "Running query");;
  tryFinally
    (tryCatch
       (st <- get;;
        if notMine editor st then ret tt
        else awaitServer (reqLtacProfGetResults offset) [] reply)
       (fun err => ret tt))
    (emit setStateReady).

Definition doOnLostFocus : C unit := emit statusUnfocus.

Definition doOnFocus (editor : nat) : C unit :=
  emit (refreshHighlights [editor]);; emit statusFocus.

(** The notifications of the server and the listeners that the constructor
    gives them. *)
Inductive Notification :=
| notifyHighlights (uri : string) (params : list thmProto.Highlight)
| notifyMessage (uri : string) (level messageText : string)
| notifyReset (uri : string)
| notifyStateViewUrl (uri : string) (stateUrl : string)
| notifyComputingStatus (uri : string) (status : string) (computeTimeMS : Z)
| notifyLtacProfResults (uri : string) (results : LtacProfResults).

Definition onNotification (n : Notification) : C unit :=
  match n with
  | notifyHighlights _ params => onDidUpdateHighlights params
  | notifyMessage _ level messageText => onCoqMessage level messageText
  | notifyReset uri =>
      st <- get;;
      if String.eqb uri (documentUri st) then onCoqReset else ret tt
  | notifyStateViewUrl uri stateUrl => ret tt
  | notifyComputingStatus uri status ms =>
      st <- get;;
      if String.eqb uri (documentUri st)
      then onUpdateComputingStatus status ms else ret tt
  | notifyLtacProfResults uri results =>
      st <- get;;
      if String.eqb uri (documentUri st)
      then onLtacProfResults results else ret tt
  end.

Definition newline : string := String "010" EmptyString.

(** What an output channel shows after the things done to it: [clear]
    empties it, [append] adds a text and [appendLine] a text and a line
    feed. *)
Fixpoint channelText (c : Channel) (shown : string) (t : list Ui) : string :=
  match t with
  | [] => shown
  | a :: r =>
      channelText c
        (match a with
         | channelClear c' => if Channel_eqb c c' then EmptyString else shown
         | channelAppend c' s => if Channel_eqb c c' then shown ++ s else shown
         | channelAppendLine c' s =>
             if Channel_eqb c c' then shown ++ s ++ newline
             else shown
         | _ => shown
         end)%string r
  end.

(** The messages shown to the user as errors, in order. *)
Fixpoint errorsShown (t : list Ui) : list string :=
  match t with
  | [] => []
  | showErrorMessage s :: r => s :: errorsShown r
  | _ :: r => errorsShown r
  end.

(** The requests sent to the server, in order. *)
Fixpoint requestsOf (t : list Ui) : list Request :=
  match t with
  | [] => []
  | request r :: t' => r :: requestsOf t'
  | _ :: t' => requestsOf t'
  end.

(** The lists of editors whose highlights were cleared, in order. *)
Fixpoint clearsOf (t : list Ui) : list (list nat) :=
  match t with
  | [] => []
  | clearAllHighlights editors :: t' => editors :: clearsOf t'
  | _ :: t' => clearsOf t'
  end.

(** The last thing done to the status bar. *)
Fixpoint statusAfter (t : list Ui) (before : option Ui) : option Ui :=
  match t with
  | [] => before
  | a :: r =>
      statusAfter r
        (match a with
         | setStateWorking _ | setStateReady | setStateComputing _ _ => Some a
         | _ => before
         end)
  end.

(** Messages of the server, one after the other. *)
Definition onCoqMessages (ms : list (string * string)) : C unit :=
  forOf ms (fun m => onCoqMessage (fst m) (snd m)).

(** What the selections of an editor are once the user has made the
    changes [during]. *)
Fixpoint selectedBy (during : list (nat * list Selection)) (e : TextEditor)
    : TextEditor :=
  match during with
  | [] => e
  | (id, sels) :: r =>
      selectedBy r
        (if Nat.eqb (editorId e) id then withSelections sels e else e)
  end.

(** Whether the user changed the selections of the editor [id]. *)
Definition movedBy (during : list (nat * list Selection)) (id : nat) : bool :=
  existsb (fun change => Nat.eqb (fst change) id) during.

(** An editor with its only cursor at [focus]. *)
Definition cursorAt (focus : Position) (e : TextEditor) : TextEditor :=
  withSelections [{| anchor := focus; active := focus |}] e.

(** Whether an editor shows this document. *)
Definition mine (st : State) (e : TextEditor) : bool :=
  String.eqb (editorUri e) (documentUri st).

(** The lines that a message adds to the channel of the infos. *)
Definition infoLines (m : string * string) : string :=
  (if String.eqb (fst m) "warning"
   then snd m ++ newline ++ snd m ++ newline
   else if String.eqb (fst m) "info" then snd m ++ newline
   else EmptyString)%string.

(** The text of the last notice among the messages, [shown] when there is
    none. *)
Fixpoint lastNotice (ms : list (string * string)) (shown : string) : string :=
  match ms with
  | [] => shown
  | m :: r =>
      lastNotice r (if String.eqb (fst m) "notice" then snd m else shown)
  end.

End Editor.

(** ** The language server: [lspManager]

    The second program of the file, in OCaml.  Its state is the three
    references [trace_value], [init_state] and [states]; what it writes on
    the standard output and what it logs is recorded in order. *)
Module lspManager.
Local Open Scope string_scope.
Local Open Scope list_scope.

(** [Yojson.Basic.t]; a float is kept by its bits, the program reads
    none. *)
Module Yojson.
#[local] Set Warnings "-register-all".
Inductive t :=
| Null
| Bool (b : bool)
| Int (i : Z)
| Float (bits : Z)
| String (s : string)
| Assoc (l : list (string * t))
| List (l : list t).
End Yojson.

(** The exceptions that the program raises or lets through; the payload
    of [Yojson.Basic.Util.Type_error] is left out. *)
Inductive exn :=
| Invalid_argument (s : string)
| Type_error
| Not_found
| Anomaly (s : string).

Inductive Result (A : Type) :=
| Ok (a : A)
| Raise (e : exn).
Arguments Ok {A} a.
Arguments Raise {A} e.

Definition andThen {A B} (r : Result A) (f : A -> Result B) : Result B :=
  match r with
  | Ok a => f a
  | Raise e => Raise e
  end.

(** [Yojson.Basic.Util] *)
Module Util.
Fixpoint assoc (name : string) (obj : list (string * Yojson.t))
    : option Yojson.t :=
  match obj with
  | [] => None
  | (k, v) :: r => if String.eqb k name then Some v else assoc name r
  end.

Definition member (name : string) (js : Yojson.t) : Result Yojson.t :=
  match js with
  | Yojson.Assoc obj =>
      Ok (match assoc name obj with Some v => v | None => Yojson.Null end)
  | _ => Raise Type_error
  end.

Definition to_string (js : Yojson.t) : Result string :=
  match js with
  | Yojson.String s => Ok s
  | _ => Raise Type_error
  end.

Definition to_int (js : Yojson.t) : Result Z :=
  match js with
  | Yojson.Int i => Ok i
  | _ => Raise Type_error
  end.

Definition to_int_option (js : Yojson.t) : Result (option Z) :=
  match js with
  | Yojson.Int i => Ok (Some i)
  | Yojson.Null => Ok None
  | _ => Raise Type_error
  end.

Definition to_list (js : Yojson.t) : Result (list Yojson.t) :=
  match js with
  | Yojson.List l => Ok l
  | _ => Raise Type_error
  end.
End Util.

Module TraceValue.
Inductive t := Off | Messages | Verbose.

Definition of_string (s : string) : Result t :=
  if String.eqb s "messages" then Ok Messages
  else if String.eqb s "verbose" then Ok Verbose
  else if String.eqb s "off" then Ok Off
  else Raise (Invalid_argument "TraceValue.parse").

Definition to_string (v : t) : string :=
  match v with
  | Off => "off"
  | Messages => "messages"
  | Verbose => "verbose"
  end.
End TraceValue.

(** [Lsp.LspData] *)
Module LspData.
Module Position.
Record t := { line : Z; char : Z }.
End Position.
Module Range.
Record t := { start : Position.t; stop : Position.t }.
End Range.
End LspData.

(** [Hashtbl] on a list of bindings, the latest first: [add] hides the
    bindings of the key, [replace] changes the one that is seen. *)
Module Hashtbl.
Definition add {V} (k : string) (v : V) (tbl : list (string * V)) :=
  (k, v) :: tbl.

Fixpoint find_opt {V} (tbl : list (string * V)) (k : string) : option V :=
  match tbl with
  | [] => None
  | (k', v) :: r => if String.eqb k' k then Some v else find_opt r k
  end.

Definition find {V} (tbl : list (string * V)) (k : string) : Result V :=
  match find_opt tbl k with
  | Some v => Ok v
  | None => Raise Not_found
  end.

Fixpoint replace {V} (k : string) (v : V) (tbl : list (string * V))
    : list (string * V) :=
  match tbl with
  | [] => [(k, v)]
  | (k', v') :: r =>
      if String.eqb k' k then (k, v) :: r else (k', v') :: replace k v r
  end.
End Hashtbl.

(** The result of [Dm.DocumentManager.executed_ranges]. *)
Record executed_ranges_t := {
  parsed : list LspData.Range.t;
  checked : list LspData.Range.t;
  checked_by_delegate : list LspData.Range.t;
  legacy_highlight : list LspData.Range.t
}.

(** [Dm.DocumentManager], [Vernacstate], [Coqargs] and the encoders
    [mk_range] and [mk_proofview] of [Lsp.LspEncode] are other modules: the
    manager is verified for any of them, as long as their functions return;
    an exception raised inside one of them is not followed.  [dm_events]
    stands for [Dm.DocumentManager.event Sel.event], and [from_string] for
    [Yojson.Basic.from_string], which gives nothing when it raises. *)
Class DocumentManager := {
  state : Type;
  event : Type;
  dm_events : Type;
  vernac_state : Type;
  injection_commands : Type;
  proofview : Type;
  diagnostic : Type;
  init : vernac_state -> injection_commands -> string -> string
         -> state * list dm_events;
  validate_document : state -> state;
  interpret_to_end : state -> state * list dm_events;
  apply_text_edits : state -> list (LspData.Range.t * string) -> state;
  interpret_to_position : state -> LspData.Position.t
                          -> state * list dm_events;
  interpret_to_previous : state -> state * list dm_events;
  interpret_to_next : state -> state * list dm_events;
  reset : state -> state;
  dm_handle_event : event -> state -> option state * list dm_events;
  get_proof : state -> LspData.Position.t -> option proofview;
  diagnostics : state -> list diagnostic;
  executed_ranges : state -> executed_ranges_t;
  mk_range : LspData.Range.t -> Yojson.t;
  mk_proofview : proofview -> Yojson.t;
  from_string : string -> option Yojson.t
}.

Section Manager.
Context {DM : DocumentManager}.

(** A message by the encoder of [Lsp.LspEncode] that makes it. *)
Inductive Message :=
| mk_response (id : Z) (result : Yojson.t)
| mk_notification (event : string) (params : Yojson.t)
| mk_diagnostics (uri : string) (diags : list diagnostic).

Inductive Out :=
| output_json (obj : Message)
| log (msg : string).

Inductive lsp_event :=
| Request (req : option Yojson.t).

Inductive event_t :=
| LspManagerEvent (e : lsp_event)
| DocumentManagerEvent (uri : string) (e : event).

(** [event Sel.event]: what the server waits for. *)
Inductive sel_event :=
| lsp
| inject_dm_event (uri : string) (x : dm_events).

Record Server := {
  trace_value : TraceValue.t;
  init_state : option (vernac_state * injection_commands);
  states : list (string * state)
}.

Definition L (A : Type) : Type := Server -> Result A * Server * list Out.

Definition ret {A} (a : A) : L A := fun s => (Ok a, s, []).
Definition raise {A} (e : exn) : L A := fun s => (Raise e, s, []).
Definition bind {A B} (m : L A) (f : A -> L B) : L B :=
  fun s =>
    match m s with
    | (Ok a, s1, t1) => let '(o, s2, t2) := f a s1 in (o, s2, t1 ++ t2)
    | (Raise e, s1, t1) => (Raise e, s1, t1)
    end.
Definition get : L Server := fun s => (Ok s, s, []).
Definition put (s' : Server) : L unit := fun _ => (Ok tt, s', []).
Definition emit (o : Out) : L unit := fun s => (Ok tt, s, [o]).
Definition lift {A} (r : Result A) : L A := fun s => (r, s, []).

Definition resultOf {A} (x : Result A * Server * list Out) := fst (fst x).
Definition serverOf {A} (x : Result A * Server * list Out) := snd (fst x).
Definition outputOf {A} (x : Result A * Server * list Out) := snd x.

Declare Scope lsp_scope.
Delimit Scope lsp_scope with lsp.
Notation "x <- m ;; k" := (bind m (fun x => k))
  (at level 100, m at next level, right associativity) : lsp_scope.
Notation "m ;; k" := (bind m (fun _ => k))
  (at level 100, right associativity) : lsp_scope.
Local Open Scope lsp_scope.

Definition set_trace_value (v : TraceValue.t) : L unit :=
  s <- get;;
  put {| trace_value := v; init_state := init_state s; states := states s |}.

Definition set_states (tbl : list (string * state)) : L unit :=
  s <- get;;
  put {| trace_value := trace_value s; init_state := init_state s;
         states := tbl |}.

Definition get_init_state : L (vernac_state * injection_commands) :=
  s <- get;;
  match init_state s with
  | Some st => ret st
  | None => raise (Anomaly "Initial state not available")
  end.

(** The function that [lsp] gives to [Sel.on_httpcle]: [msg] is what was
    read, or the text of the exception of the read. *)
Definition lsp_ready (msg : string + string) : L event_t :=
  match msg with
  | inl buff =>
      emit (log "UI req ready");;
      match from_string buff with
      | Some json => ret (LspManagerEvent (Request (Some json)))
      | None =>
          emit (log "failed to decode json");;
          ret (LspManagerEvent (Request None))
      end
  | inr exn_text =>
      emit (log ("failed to read message: " ++ exn_text)%string);;
      ret (LspManagerEvent (Request None))
  end.

Definition logTrace (message : string) (extra : option string) : L Message :=
  s <- get;;
  let event := "$/logTrace"%string in
  let params :=
    match trace_value s, extra with
    | TraceValue.Verbose, Some extra =>
        Yojson.Assoc [("message", Yojson.String message);
                      ("verbose", Yojson.String extra)]
    | _, _ => Yojson.Assoc [("message", Yojson.String message)]
    end in
  ret (mk_notification event params).

Definition logMessage (lvl message : string) : L unit :=
  let event := "window/logMessage"%string in
  let params := Yojson.Assoc [("type", Yojson.String lvl);
                              ("message", Yojson.String message)] in
  emit (output_json (mk_notification event params)).

Definition do_initialize (id : Z) (params : Yojson.t) : L unit :=
  trace <- lift (andThen (Util.member "trace" params) Util.to_string);;
  let capabilities := Yojson.Assoc [("textDocumentSync", Yojson.Int 2)] in
  let result := Yojson.Assoc [("capabilities", capabilities)] in
  v <- lift (TraceValue.of_string trace);;
  set_trace_value v;;
  emit (output_json (mk_response id result)).

Definition parse_loc (json : Yojson.t) : Result LspData.Position.t :=
  andThen (andThen (Util.member "line" json) Util.to_int) (fun line =>
  andThen (andThen (Util.member "character" json) Util.to_int) (fun char =>
  Ok {| LspData.Position.line := line; LspData.Position.char := char |})).

Definition publish_diagnostics (uri : string) (doc : state) : L unit :=
  emit (output_json (mk_diagnostics uri (diagnostics doc))).

Definition send_highlights (uri : string) (doc : state) : L unit :=
  let r := executed_ranges doc in
  let parsed := map mk_range (parsed r) in
  let checked := map mk_range (checked r) in
  let legacy_highlight := map mk_range (legacy_highlight r) in
  let params := Yojson.Assoc [
    ("uri", Yojson.String uri);
    ("parsedRange", Yojson.List parsed);
    ("processingRange", Yojson.List checked);
    ("processedRange", Yojson.List legacy_highlight)] in
  emit (output_json (mk_notification "vscoq/updateHighlights" params)).

Definition update_view (uri : string) (st : state) : L unit :=
  send_highlights uri st;;
  publish_diagnostics uri st.

Definition textDocumentDidOpen (params : Yojson.t)
    : L (string * list dm_events) :=
  textDocument <- lift (Util.member "textDocument" params);;
  uri <- lift (andThen (Util.member "uri" textDocument) Util.to_string);;
  text <- lift (andThen (Util.member "text" textDocument) Util.to_string);;
  i <- get_init_state;;
  let '(vst, opts) := i in
  let '(st, events) := init vst opts uri text in
  let st := validate_document st in
  let '(st, events') := interpret_to_end st in
  s <- get;;
  set_states (Hashtbl.add uri st (states s));;
  update_view uri st;;
  ret (uri, events ++ events').

Definition read_edit (edit : Yojson.t) : Result (LspData.Range.t * string) :=
  andThen (andThen (Util.member "text" edit) Util.to_string) (fun text =>
  andThen (Util.member "range" edit) (fun range =>
  andThen (andThen (Util.member "start" range) parse_loc) (fun start =>
  andThen (andThen (Util.member "end" range) parse_loc) (fun stop =>
  Ok ({| LspData.Range.start := start; LspData.Range.stop := stop |},
      text))))).

(** [List.map] with a function that can raise: the elements are read in
    order. *)
Fixpoint map_result {A B} (f : A -> Result B) (l : list A) : Result (list B) :=
  match l with
  | [] => Ok []
  | x :: r =>
      andThen (f x) (fun y => andThen (map_result f r) (fun ys => Ok (y :: ys)))
  end.

Definition textDocumentDidChange (params : Yojson.t)
    : L (string * list dm_events) :=
  textDocument <- lift (Util.member "textDocument" params);;
  uri <- lift (andThen (Util.member "uri" textDocument) Util.to_string);;
  contentChanges <-
    lift (andThen (Util.member "contentChanges" params) Util.to_list);;
  textEdits <- lift (map_result read_edit contentChanges);;
  s <- get;;
  st <- lift (Hashtbl.find (states s) uri);;
  let st := apply_text_edits st textEdits in
  let '(st, events) := interpret_to_end st in
  s <- get;;
  set_states (Hashtbl.replace uri st (states s));;
  update_view uri st;;
  ret (uri, events).

Definition textDocumentDidSave (params : Yojson.t) : L unit :=
  textDocument <- lift (Util.member "textDocument" params);;
  uri <- lift (andThen (Util.member "uri" textDocument) Util.to_string);;
  s <- get;;
  st <- lift (Hashtbl.find (states s) uri);;
  let st := validate_document st in
  set_states (Hashtbl.replace uri st (states s));;
  update_view uri st.

Definition progress_hook (uri : string) : L unit :=
  s <- get;;
  st <- lift (Hashtbl.find (states s) uri);;
  update_view uri st.

Definition coqtopInterpretToPoint (id : Z) (params : Yojson.t)
    : L (string * list dm_events) :=
  uri <- lift (andThen (Util.member "uri" params) Util.to_string);;
  loc <- lift (andThen (Util.member "location" params) parse_loc);;
  s <- get;;
  st <- lift (Hashtbl.find (states s) uri);;
  let '(st, events) := interpret_to_position st loc in
  set_states (Hashtbl.replace uri st (states s));;
  update_view uri st;;
  ret (uri, events).

Definition coqtopStepBackward (id : Z) (params : Yojson.t)
    : L (string * list dm_events) :=
  uri <- lift (andThen (Util.member "uri" params) Util.to_string);;
  s <- get;;
  st <- lift (Hashtbl.find (states s) uri);;
  let '(st, events) := interpret_to_previous st in
  set_states (Hashtbl.replace uri st (states s));;
  update_view uri st;;
  ret (uri, events).

Definition coqtopStepForward (id : Z) (params : Yojson.t)
    : L (string * list dm_events) :=
  uri <- lift (andThen (Util.member "uri" params) Util.to_string);;
  s <- get;;
  st <- lift (Hashtbl.find (states s) uri);;
  let '(st, events) := interpret_to_next st in
  set_states (Hashtbl.replace uri st (states s));;
  update_view uri st;;
  ret (uri, events).

Definition coqtopResetCoq (id : Z) (params : Yojson.t) : L unit :=
  uri <- lift (andThen (Util.member "uri" params) Util.to_string);;
  s <- get;;
  st <- lift (Hashtbl.find (states s) uri);;
  let st := reset st in
  set_states (Hashtbl.replace uri st (states s));;
  update_view uri st.

Definition coqtopInterpretToEnd (id : Z) (params : Yojson.t)
    : L (string * list dm_events) :=
  uri <- lift (andThen (Util.member "uri" params) Util.to_string);;
  s <- get;;
  st <- lift (Hashtbl.find (states s) uri);;
  let '(st, events) := interpret_to_end st in
  set_states (Hashtbl.replace uri st (states s));;
  update_view uri st;;
  ret (uri, events).

Definition inject_dm_events (x : string * list dm_events) : list sel_event :=
  map (inject_dm_event (fst x)) (snd x).

Definition coqtopUpdateProofView (id : Z) (params : Yojson.t) : L unit :=
  uri <- lift (andThen (Util.member "uri" params) Util.to_string);;
  loc <- lift (andThen (Util.member "location" params) parse_loc);;
  s <- get;;
  st <- lift (Hashtbl.find (states s) uri);;
  match get_proof st loc with
  | None => ret tt
  | Some proofview =>
      let result := mk_proofview proofview in
      emit (output_json (mk_response id result))
  end.

Definition dispatch_method (id : Z) (method_name : string)
    (params : Yojson.t) : L (list sel_event) :=
  if String.eqb method_name "initialize" then
    do_initialize id params;; ret []
  else if String.eqb method_name "initialized" then ret []
  else if String.eqb method_name "textDocument/didOpen" then
    x <- textDocumentDidOpen params;; ret (inject_dm_events x)
  else if String.eqb method_name "textDocument/didChange" then
    x <- textDocumentDidChange params;; ret (inject_dm_events x)
  else if String.eqb method_name "textDocument/didSave" then
    textDocumentDidSave params;; ret []
  else if String.eqb method_name "vscoq/interpretToPoint" then
    x <- coqtopInterpretToPoint id params;; ret (inject_dm_events x)
  else if String.eqb method_name "vscoq/stepBackward" then
    x <- coqtopStepBackward id params;; ret (inject_dm_events x)
  else if String.eqb method_name "vscoq/stepForward" then
    x <- coqtopStepForward id params;; ret (inject_dm_events x)
  else if String.eqb method_name "vscoq/resetCoq" then
    coqtopResetCoq id params;; ret []
  else if String.eqb method_name "vscoq/interpretToEnd" then
    x <- coqtopInterpretToEnd id params;; ret (inject_dm_events x)
  else if String.eqb method_name "vscoq/updateProofView" then
    coqtopUpdateProofView id params;; ret []
  else
    emit (log ("Ignoring call to unknown method: " ++ method_name)%string);;
    ret [].

Definition handle_lsp_event (e : lsp_event) : L (list sel_event) :=
  match e with
  | Request None => ret []
  | Request (Some req) =>
      i <- lift (andThen (Util.member "id" req) Util.to_int_option);;
      let id := match i with Some id => id | None => 0 end in
      method_name <- lift (andThen (Util.member "method" req) Util.to_string);;
      params <- lift (Util.member "params" req);;
      emit (log ("ui request: " ++ method_name)%string);;
      more_events <- dispatch_method id method_name params;;
      ret (more_events ++ [lsp])
  end.

Definition handle_event (e : event_t) : L (list sel_event) :=
  match e with
  | LspManagerEvent e => handle_lsp_event e
  | DocumentManagerEvent uri e =>
      s <- get;;
      match Hashtbl.find_opt (states s) uri with
      | None =>
          emit (log "ignoring event on non-existing document");;
          ret []
      | Some st =>
          let '(ost, events) := dm_handle_event e st in
          match ost with
          | None => ret tt
          | Some st =>
              s <- get;;
              set_states (Hashtbl.replace uri st (states s));;
              update_view uri st
          end;;
          ret (inject_dm_events (uri, events))
      end
  end.

Definition init_ (vst : vernac_state) (injections : injection_commands)
    : L unit :=
  s <- get;;
  put {| trace_value := trace_value s; init_state := Some (vst, injections);
         states := states s |}.

(** After [r] the table gives some state for [uri], the view that was
    written is the one of this state, and nothing else of [s] has changed. *)
Definition viewSent {A} (s : Server) (uri : string)
    (r : Result A * Server * list Out) : Prop :=
  exists st,
    Hashtbl.find_opt (states (serverOf r)) uri = Some st
    /\ (forall uri', uri' <> uri ->
          Hashtbl.find_opt (states (serverOf r)) uri'
          = Hashtbl.find_opt (states s) uri')
    /\ outputOf r = outputOf (update_view uri st s)
    /\ trace_value (serverOf r) = trace_value s
    /\ init_state (serverOf r) = init_state s.

(** What is written besides the view of a document: answers and logs. *)
Definition noView (o : Out) : Prop :=
  match o with
  | output_json (mk_response _ _) | log _ => True
  | output_json (mk_notification _ _) | output_json (mk_diagnostics _ _) =>
      False
  end.

End Manager.
End lspManager.

(** A document manager whose state counts the operations done on the
    document, for the examples. *)
Module CountingManager.
Definition instance : lspManager.DocumentManager :=
  @lspManager.Build_DocumentManager
    nat unit unit unit unit nat string
    (fun _ _ _ _ => (O, [tt]))
    (fun st => st)
    (fun st => (S st, []))
    (fun st _ => S st)
    (fun st _ => (S st, []))
    (fun st => (Nat.pred st, []))
    (fun st => (S st, [tt]))
    (fun _ => O)
    (fun _ st => (Some (S st), []))
    (fun st _ => Some st)
    (fun _ => [])
    (fun _ => {| lspManager.parsed := []; lspManager.checked := [];
                 lspManager.checked_by_delegate := [];
                 lspManager.legacy_highlight := [] |})
    (fun _ => lspManager.Yojson.Null)
    (fun n => lspManager.Yojson.Int (Z.of_nat n))
    (fun _ => None).

(** The server before any request, and with one document open. *)
Definition started : @lspManager.Server instance :=
  @lspManager.Build_Server instance lspManager.TraceValue.Off
    (Some (tt, tt)) [].

Definition opened : @lspManager.Server instance :=
  @lspManager.Build_Server instance lspManager.TraceValue.Off
    (Some (tt, tt)) [("file:///a.v"%string, 3%nat)].

Definition onDocument : lspManager.Yojson.t :=
  lspManager.Yojson.Assoc
    [("uri"%string, lspManager.Yojson.String "file:///a.v")].
End CountingManager.

(** More documents of the examples. *)
Module Cases.
(** The document of the scenarios once [quitCoq] has dropped its machine. *)
Definition quitted : CoqDocument LinearStm.State :=
  stateOf (@quitCoq _ LinearStm.instance coqParser.instance Scenario.abc).

(** A document on a machine that rejects every operation. *)
Definition broken : CoqDocument unit :=
  @newCoqDocument _ BrokenStm.instance coqParser.instance Scenario.settings
                  "file:///b.v" (Scenario.text "A. B. C.").

(** A window with two editors on the document and one on another file. *)
Definition window : Editor.State :=
  {| Editor.documentUri := "file:///a.v";
     Editor.visibleTextEditors :=
       [ {| Editor.editorId := 0; Editor.editorUri := "file:///a.v";
            Editor.selections := [] |};
         {| Editor.editorId := 1; Editor.editorUri := "file:///a.v";
            Editor.selections := [] |};
         {| Editor.editorId := 2; Editor.editorUri := "file:///b.v";
            Editor.selections := [] |} ];
     Editor.cursorUnmovedSinceCommandInitiated := [] |}.
End Cases.

(** ** What the methods leave unchanged *)

Section Frame.
Context {Stm : Type} {machine : CoqStateMachine Stm} {parser : CoqParser}.

Lemma sameDocument_refl (d : CoqDocument Stm) : sameDocument d d.
Proof. repeat split; auto. Qed.

Lemma sameDocument_trans (d1 d2 d3 : CoqDocument Stm) :
  sameDocument d1 d2 -> sameDocument d2 d3 -> sameDocument d1 d3.
Proof.
  intros (U1 & V1 & T1 & C1 & S1) (U2 & V2 & T2 & C2 & S2).
  repeat split; try congruence. auto.
Qed.

Lemma steady_ret {A} (a : A) : steady (@ret Stm A a).
Proof. intro d. apply sameDocument_refl. Qed.

Lemma steady_throw {A} e : steady (@throw Stm A e).
Proof. intro d. apply sameDocument_refl. Qed.

Lemma steady_emit a : steady (@emit Stm a).
Proof. intro d. apply sameDocument_refl. Qed.

Lemma steady_get : steady (@get Stm).
Proof. intro d. apply sameDocument_refl. Qed.

Lemma steady_bind {A B} (m : M Stm A) (f : A -> M Stm B) :
  steady m -> (forall a, steady (f a)) -> steady (bind m f).
Proof.
  intros Hm Hf d. specialize (Hm d). unfold stateOf, bind in *.
  destruct (m d) as [[[a|e] d1] t1]; cbn in *; auto.
  specialize (Hf a d1). unfold stateOf in Hf.
  destruct (f a d1) as [[o d2] t2]; cbn in *.
  eapply sameDocument_trans; eauto.
Qed.

Lemma steady_tryFinally {A} (body : M Stm A) fin :
  steady body -> steady fin -> steady (tryFinally body fin).
Proof.
  intros Hb Hf d. specialize (Hb d). unfold stateOf, tryFinally in *.
  destruct (body d) as [[o d1] t1]; cbn in *.
  specialize (Hf d1). unfold stateOf in Hf.
  destruct (fin d1) as [[[u|e] d2] t2]; cbn in *;
    eapply sameDocument_trans; eauto.
Qed.

Lemma steady_tryCatch {A} (body : M Stm A) handler :
  steady body -> (forall e, steady (handler e)) ->
  steady (tryCatch body handler).
Proof.
  intros Hb Hh d. specialize (Hb d). unfold stateOf, tryCatch in *.
  destruct (body d) as [[[a|e] d1] t1]; cbn in *; auto.
  specialize (Hh e d1). unfold stateOf in Hh.
  destruct (handler e d1) as [[o d2] t2]; cbn in *.
  eapply sameDocument_trans; eauto.
Qed.

Lemma steady_if {A} (b : bool) (m1 m2 : M Stm A) :
  steady m1 -> steady m2 -> steady (if b then m1 else m2).
Proof. destruct b; auto. Qed.

Lemma steady_setStm (d : CoqDocument Stm) s i :
  sameDocument d (setStm d (Some s) i).
Proof. repeat split; auto. cbn. discriminate. Qed.

Lemma steady_withStm {A} (m : Stm -> A) : steady (withStm m).
Proof.
  intro d. unfold withStm, stateOf, bind, get. cbn.
  destruct (stm d); cbn; apply sameDocument_refl.
Qed.

Lemma steady_updateDiagnostics : steady updateDiagnostics.
Proof.
  apply steady_bind; [apply steady_withStm | intro; apply steady_emit].
Qed.

Lemma steady_resetCoq : steady resetCoq.
Proof.
  intro d. unfold resetCoq, stateOf, bind, get, put, emit, ret. cbn.
  destruct (stmIsRunning d); cbn; apply steady_setStm.
Qed.

Lemma steady_callbacks cb : steady (callbacks cb).
Proof.
  destruct cb; cbn [callbacks];
    unfold onCoqStateStatusUpdate, onClearSentence, onCoqStateError,
      onCoqMessage, onCoqStateLtacProf, onCoqDied;
    repeat first
      [ apply steady_emit | apply steady_ret | apply steady_if
      | apply steady_updateDiagnostics | apply steady_resetCoq
      | apply steady_bind; [| intro] ].
Qed.

Lemma steady_observe me (s : Stm) : steady (observe me s).
Proof.
  intro d. unfold observe, stateOf, bind, get, put, ret. cbn.
  destruct (Nat.eqb (stmIdentity d) me); cbn;
    [apply steady_setStm | apply sameDocument_refl].
Qed.

Lemma steady_generatorLoop e c h :
  steady (Stm:=Stm) (generatorLoop e c h).
Proof.
  unfold generatorLoop, positionAt.
  apply steady_bind; [apply steady_get | intro d].
  apply steady_if; [| apply steady_ret].
  repeat (apply steady_bind; [| intro]);
    first [apply steady_get | apply steady_ret].
Qed.

Lemma steady_next g : steady (Stm:=Stm) (next g).
Proof.
  destruct g; cbn [next]; [| | apply steady_ret].
  - unfold offsetAt.
    apply steady_bind; [apply steady_get | intro d].
    apply steady_bind; [destruct endPos |].
    + repeat (apply steady_bind; [| intro]);
        first [apply steady_get | apply steady_ret].
    + apply steady_ret.
    + intro. apply steady_bind; [| intro].
      * repeat (apply steady_bind; [| intro]);
          first [apply steady_get | apply steady_ret].
      * apply steady_if; [apply steady_ret | apply steady_generatorLoop].
  - apply steady_bind; [| intro; apply steady_generatorLoop].
    apply steady_if; [apply steady_emit | apply steady_ret].
Qed.

Lemma steady_await {A} me (op : StmOp Stm A) : steady (await me op).
Proof.
  induction op as [s r | s cb k IH | g k IH]; cbn [await].
  - apply steady_bind; [apply steady_observe | intro].
    destruct r; [apply steady_ret | apply steady_throw].
  - apply steady_bind; [apply steady_observe | intro].
    apply steady_bind; [apply steady_callbacks | intro]. exact IH.
  - apply steady_bind; [apply steady_next | intro r]. apply IH.
Qed.

Lemma steady_call {A} c (op : Stm -> StmOp Stm A) : steady (call c op).
Proof.
  unfold call. apply steady_bind; [apply steady_get | intro d].
  destruct (stm d); [| apply steady_throw].
  apply steady_bind; [apply steady_emit | intro; apply steady_await].
Qed.

Lemma steady_toGoal goal : steady (toGoal goal).
Proof.
  destruct goal; cbn [toGoal]; try apply steady_ret;
    (apply steady_bind; [apply steady_withStm | intro; apply steady_ret]).
Qed.

Lemma steady_assertStm : steady assertStm.
Proof.
  unfold assertStm. apply steady_bind; [apply steady_get | intro d].
  apply steady_if; [apply steady_resetCoq | apply steady_ret].
Qed.

End Frame.

(** ** The operations of the controller *)

Section Operations.
Context {Stm : Type} {machine : CoqStateMachine Stm} {parser : CoqParser}.

Lemma assertStm_run (d : CoqDocument Stm) :
  assertStm d =
  if stmIsRunning d then (Return tt, d, [])
  else (Return tt,
        setStm d (Some (construct (coqtopSettings d))) (S (stmIdentity d)),
        [onStm newCoqStateMachine]).
Proof.
  unfold assertStm, resetCoq, bind, get, put, emit, ret. cbn.
  destruct (stmIsRunning d) eqn:R; cbn; rewrite ?R; reflexivity.
Qed.

Lemma assertStm_holds (d : CoqDocument Stm) :
  exists d1 t0,
    assertStm d = (Return tt, d1, t0) /\ stm d1 <> None
    /\ documentText d1 = documentText d.
Proof.
  rewrite assertStm_run. destruct (stmIsRunning d) eqn:R.
  - exists d, []. repeat split. unfold stmIsRunning in R.
    destruct (stm d); discriminate.
  - eexists _, _. repeat split. cbn. discriminate.
Qed.

Lemma stmIsRunning_holds (d : CoqDocument Stm) :
  stmIsRunning d = true -> stm d <> None.
Proof. unfold stmIsRunning. destruct (stm d); discriminate. Qed.

(** [finally { this.updateDiagnostics() }] after a body that keeps the
    machine. *)
Lemma finally_updateDiagnostics {A} (body : M Stm A) (d : CoqDocument Stm) :
  steady body -> stm d <> None ->
  exists s',
    stm (stateOf (body d)) = Some s'
    /\ tryFinally body updateDiagnostics d
       = (outcomeOf (body d), stateOf (body d),
          actionsOf (body d)
          ++ [sendDiagnostics (diagnosticsOf (getErrors s'))]).
Proof.
  intros Hb Hd. destruct (Hb d) as (_ & _ & _ & _ & Hs).
  specialize (Hs Hd). unfold tryFinally, outcomeOf, stateOf, actionsOf in *.
  destruct (body d) as [[o d1] t1]; cbn in *.
  destruct (stm d1) as [s'|] eqn:E; [| congruence].
  exists s'. split; [reflexivity |].
  unfold updateDiagnostics, withStm, bind, get, emit, ret. cbn. rewrite E.
  reflexivity.
Qed.

Lemma ends_finally {A} (body : M Stm A) (d : CoqDocument Stm) :
  steady body -> stm d <> None ->
  endsWithDiagnostics (tryFinally body updateDiagnostics d).
Proof.
  intros Hb Hd. destruct (finally_updateDiagnostics body d Hb Hd) as (s' & E & R).
  rewrite R. exists s', (actionsOf (body d)). split; [exact E | reflexivity].
Qed.

Lemma ends_asserted {A} (m : M Stm A) (d : CoqDocument Stm) :
  (forall d1, stm d1 <> None -> endsWithDiagnostics (m d1)) ->
  endsWithDiagnostics ((assertStm;; m) d).
Proof.
  intros Hm. destruct (assertStm_holds d) as (d1 & t0 & E & Hs & _).
  unfold bind. rewrite E. destruct (Hm d1 Hs) as (s' & t & Es & Et).
  unfold stateOf, actionsOf in *. destruct (m d1) as [[o d2] t2]; cbn in *.
  exists s', (t0 ++ t). split; [exact Es |]. rewrite Et.
  now rewrite app_assoc.
Qed.

Lemma steady_goalAfter :
  steady (Stm:=Stm)
    (logDebuggingSentences;; goal <- call callGetGoal stmGetGoal;;
     toGoal goal).
Proof.
  apply steady_bind; [apply steady_withStm | intro].
  apply steady_bind; [apply steady_call | intro; apply steady_toGoal].
Qed.

Lemma steady_orGoal (error : option CommandResult) :
  steady (Stm:=Stm)
    (match error with
     | Some e => ret e
     | None =>
         logDebuggingSentences;; goal <- call callGetGoal stmGetGoal;;
         toGoal goal
     end).
Proof. destruct error; [apply steady_ret | apply steady_goalAfter]. Qed.

Lemma steady_interpretToPoint offset token :
  steady (Stm:=Stm) (interpretToPoint offset token).
Proof.
  unfold interpretToPoint.
  apply steady_bind; [apply steady_assertStm | intro].
  apply steady_tryFinally; [| apply steady_updateDiagnostics].
  apply steady_bind; [| intro pos].
  { unfold positionAt. apply steady_bind; [apply steady_get | intro].
    apply steady_ret. }
  apply steady_bind; [apply steady_withStm | intro focus].
  apply steady_bind; [apply steady_emit | intro].
  apply steady_bind; [apply steady_call | intro; apply steady_orGoal].
Qed.

Lemma bind_run {A B} (m : M Stm A) (f : A -> M Stm B) d a d1 t1 :
  m d = (Return a, d1, t1) ->
  bind m f d
  = (outcomeOf (f a d1), stateOf (f a d1), t1 ++ actionsOf (f a d1)).
Proof.
  intros E. unfold bind, outcomeOf, stateOf, actionsOf. rewrite E.
  destruct (f a d1) as [[o d2] t2]. reflexivity.
Qed.

Lemma triple_eta {A} (x : Outcome A * CoqDocument Stm * list Action) :
  (outcomeOf x, stateOf x, actionsOf x) = x.
Proof. destruct x as [[o d] t]. reflexivity. Qed.

Lemma startsWith_bind {A B} l (m : M Stm A) (f : A -> M Stm B) d :
  startsWith l (m d) -> startsWith l (bind m f d).
Proof.
  unfold startsWith, actionsOf, bind. intros [t E].
  destruct (m d) as [[[a|e] d1] t1]; cbn in *; subst.
  - destruct (f a d1) as [[o d2] t2]. cbn. exists (t ++ t2).
    now rewrite app_assoc.
  - exists t. reflexivity.
Qed.

Lemma startsWith_after {A B} l (m : M Stm A) (f : A -> M Stm B) d a d1 t0 :
  m d = (Return a, d1, t0) -> startsWith l (f a d1) ->
  startsWith (t0 ++ l) (bind m f d).
Proof.
  intros E [t Et]. rewrite (bind_run m f d a d1 t0 E).
  unfold startsWith, actionsOf in *. cbn. rewrite Et. exists t.
  now rewrite app_assoc.
Qed.

Lemma startsWith_tryFinally {A} l (body : M Stm A) fin d :
  startsWith l (body d) -> startsWith l (tryFinally body fin d).
Proof.
  unfold startsWith, actionsOf, tryFinally. intros [t E].
  destruct (body d) as [[o d1] t1]; cbn in *; subst.
  destruct (fin d1) as [[[u|e] d2] t2]; cbn; exists (t ++ t2);
    now rewrite app_assoc.
Qed.

Lemma startsWith_call {A} c (op : Stm -> StmOp Stm A) d s :
  stm d = Some s -> startsWith [onStm c] (call c op d).
Proof.
  intros E. unfold call.
  apply (startsWith_after [onStm c] get _ d d d []); [reflexivity |].
  rewrite E. apply startsWith_bind. exists []. reflexivity.
Qed.

(** The shape of the operations that step: [assertStm], then a body
    that keeps the machine, with [finally { updateDiagnostics() }]. *)
Lemma stepForward_shape token :
  exists body : M Stm CommandResult,
    steady body
    /\ (forall d s, stm d = Some s ->
                    startsWith [onStm callStepForward] (body d))
    /\ stepForward token = (assertStm;; tryFinally body updateDiagnostics).
Proof.
  eexists. split; [| split; [| reflexivity]].
  - apply steady_bind; [apply steady_call | intro; apply steady_orGoal].
  - intros d s E. apply startsWith_bind. now apply startsWith_call with s.
Qed.

Lemma stepBackward_shape token :
  exists body : M Stm CommandResult,
    steady body
    /\ (forall d s, stm d = Some s ->
                    startsWith [onStm callStepBackward] (body d))
    /\ stepBackward token = (assertStm;; tryFinally body updateDiagnostics).
Proof.
  eexists. split; [| split; [| reflexivity]].
  - apply steady_bind; [apply steady_call | intro; apply steady_goalAfter].
  - intros d s E. apply startsWith_bind. now apply startsWith_call with s.
Qed.

Lemma interpretToPoint_shape offset token :
  exists body : M Stm CommandResult,
    steady body
    /\ (forall d s, stm d = Some s ->
          startsWith
            ([sendHighlightUpdates
                [{| thmProto.style := thmProto.Parsing;
                    thmProto.range :=
                      RangeNS.create
                        (getFocusedPosition s)
                        (textUtil.positionAt (documentText d) offset) |}]]
             ++ [onStm (callInterpretToPoint
                          (textUtil.positionAt (documentText d) offset)
                          token)])
            (body d))
    /\ interpretToPoint offset token
       = (assertStm;; tryFinally body updateDiagnostics).
Proof.
  eexists. split; [| split; [| reflexivity]].
  - apply steady_bind; [| intro pos].
    { unfold positionAt. apply steady_bind; [apply steady_get | intro].
      apply steady_ret. }
    apply steady_bind; [apply steady_withStm | intro focus].
    apply steady_bind; [apply steady_emit | intro].
    apply steady_bind; [apply steady_call | intro; apply steady_orGoal].
  - intros d s E.
    apply (startsWith_after _ (positionAt offset) _ d
             (textUtil.positionAt (documentText d) offset) d []);
      [reflexivity |].
    apply (startsWith_after _ (withStm getFocusedPosition) _ d
             (getFocusedPosition s) d []).
    { unfold withStm, bind, get. cbn. rewrite E. reflexivity. }
    eapply (startsWith_after _ (emit _) _ d tt d [_]); [reflexivity |].
    apply startsWith_bind. now apply startsWith_call with s.
Qed.

Lemma steady_interpretToEndBody token :
  steady (Stm:=Stm)
    (d <- get;;
     error <- interpretToPoint (textLength (documentText d)) token;;
     if truthy error then ret error
     else (logDebuggingSentences;; goal <- call callGetGoal stmGetGoal;;
           toGoal goal)).
Proof.
  apply steady_bind; [apply steady_get | intro d].
  apply steady_bind; [apply steady_interpretToPoint | intro error].
  apply steady_if; [apply steady_ret | apply steady_goalAfter].
Qed.

Lemma interpretToPoint_ends offset token (d : CoqDocument Stm) :
  endsWithDiagnostics (interpretToPoint offset token d).
Proof.
  destruct (interpretToPoint_shape offset token) as (b & Hb & _ & ->).
  apply ends_asserted. intros d1 H1. now apply ends_finally.
Qed.

(** C1 (as amended): [stepForward], [stepBackward], [interpretToPoint] and
    [interpretToEnd] always end by sending the diagnostics list rebuilt
    from the errors of the machine the document then holds, and so does
    [getGoal] when the machine is running; [getGoal] on a document whose
    machine is missing or not running answers not-running and sends
    nothing.  The list has one diagnostic per error, in order, with the
    range and the message of the error and severity [Error]. *)
Theorem C1_diagnostics_rebuilt_after_operation :
  (forall token (d : CoqDocument Stm),
      endsWithDiagnostics (stepForward token d))
  /\ (forall token (d : CoqDocument Stm),
         endsWithDiagnostics (stepBackward token d))
  /\ (forall offset token (d : CoqDocument Stm),
         endsWithDiagnostics (interpretToPoint offset token d))
  /\ (forall token (d : CoqDocument Stm),
         endsWithDiagnostics (interpretToEnd token d))
  /\ (forall d : CoqDocument Stm,
         if stmIsRunning d then endsWithDiagnostics (getGoal d)
         else getGoal d = (Return RNotRunning, d, []))
  /\ (forall errors,
         map (fun x => (drange x, dmessage x, severity x))
             (diagnosticsOf errors)
         = map (fun e => (erange e, emessage e, SevError)) errors).
Proof.
  repeat split.
  - intros token d. destruct (stepForward_shape token) as (b & Hb & _ & ->).
    apply ends_asserted. intros d1 H1. now apply ends_finally.
  - intros token d. destruct (stepBackward_shape token) as (b & Hb & _ & ->).
    apply ends_asserted. intros d1 H1. now apply ends_finally.
  - intros offset token d. apply interpretToPoint_ends.
  - intros token d. unfold interpretToEnd.
    apply ends_asserted. intros d1 H1.
    apply ends_finally; [apply steady_interpretToEndBody | exact H1].
  - intros d. destruct (stmIsRunning d) eqn:R.
    + unfold getGoal.
      assert (E : forall (f : CoqDocument Stm -> M Stm CommandResult),
                 bind get f d = f d d).
      { intro f. unfold bind, get. destruct (f d d) as [[o d2] t2].
        reflexivity. }
      rewrite E, R. cbn [negb].
      apply ends_finally; [| now apply stmIsRunning_holds].
      apply steady_bind; [apply steady_call | intro; apply steady_toGoal].
    + unfold getGoal, bind, get, ret. rewrite R. reflexivity.
  - intros errors. unfold diagnosticsOf. rewrite map_map. reflexivity.
Qed.

(** C2 (as amended): on a document whose machine is missing or not
    running, each stepping operation begins by creating a new machine
    itself ([assertStm] calls [resetCoq]) and goes on against that
    machine; only [getGoal] answers not-running without doing anything. *)
Theorem C2_operations_restart_the_machine token offset
    (d : CoqDocument Stm) :
  stmIsRunning d = false ->
  startsWith [onStm newCoqStateMachine; onStm callStepForward]
             (stepForward token d)
  /\ startsWith [onStm newCoqStateMachine; onStm callStepBackward]
                (stepBackward token d)
  /\ startsWith
       [onStm newCoqStateMachine;
        sendHighlightUpdates
          [{| thmProto.style := thmProto.Parsing;
              thmProto.range :=
                RangeNS.create
                  (getFocusedPosition (construct (coqtopSettings d)))
                  (textUtil.positionAt (documentText d) offset) |}];
        onStm (callInterpretToPoint
                 (textUtil.positionAt (documentText d) offset) token)]
       (interpretToPoint offset token d)
  /\ startsWith [onStm newCoqStateMachine] (interpretToEnd token d)
  /\ getGoal d = (Return RNotRunning, d, []).
Proof.
  intros R.
  assert (E := assertStm_run d). rewrite R in E.
  repeat split.
  - destruct (stepForward_shape token) as (b & _ & Hb & ->).
    apply (startsWith_after [onStm callStepForward] assertStm _ d tt _
             [onStm newCoqStateMachine] E).
    apply startsWith_tryFinally. now eapply Hb.
  - destruct (stepBackward_shape token) as (b & _ & Hb & ->).
    apply (startsWith_after [onStm callStepBackward] assertStm _ d tt _
             [onStm newCoqStateMachine] E).
    apply startsWith_tryFinally. now eapply Hb.
  - destruct (interpretToPoint_shape offset token) as (b & _ & Hb & ->).
    apply (startsWith_after _ assertStm _ d tt _
             [onStm newCoqStateMachine] E).
    apply startsWith_tryFinally.
    exact (Hb (setStm d (Some (construct (coqtopSettings d)))
                      (S (stmIdentity d)))
              (construct (coqtopSettings d)) eq_refl).
  - unfold interpretToEnd.
    apply (startsWith_after [] assertStm _ d tt _
             [onStm newCoqStateMachine] E).
    exists (actionsOf (tryFinally
              (d0 <- get;;
               error <- interpretToPoint (textLength (documentText d0)) token;;
               if truthy error then ret error
               else (logDebuggingSentences;;
                     goal <- call callGetGoal stmGetGoal;; toGoal goal))
              updateDiagnostics
              (setStm d (Some (construct (coqtopSettings d)))
                      (S (stmIdentity d))))).
    reflexivity.
  - unfold getGoal, bind, get, ret. rewrite R. reflexivity.
Qed.

Lemma bind_asserted {A} (m : M Stm A) (d : CoqDocument Stm) :
  stmIsRunning d = true -> (assertStm;; m) d = m d.
Proof.
  intros R. assert (E := assertStm_run d). rewrite R in E.
  rewrite (bind_run assertStm (fun _ => m) d tt d [] E). cbn.
  apply triple_eta.
Qed.

Lemma stmCallsOf_app_notification t ds :
  stmCallsOf (t ++ [sendDiagnostics ds]) = stmCallsOf t.
Proof.
  induction t as [|a t IH]; [reflexivity |].
  destruct a; cbn [app stmCallsOf]; now rewrite IH.
Qed.

(** C10 (as amended): when the machine is running, or a new machine is
    running as soon as it is created, [interpretToEnd] has the outcome of
    [interpretToPoint] at the length of the text, leaves the same state
    and does the same things in the same order, and then sends the
    diagnostics a second time: the list that [interpretToPoint] had just
    sent.  The calls made on the STM are the same. *)
Theorem C10_interpretToEnd_is_interpretToPoint_then_diagnostics token
    (d : CoqDocument Stm) :
  stmIsRunning d = true
  \/ isRunning (construct (coqtopSettings d)) = true ->
  let point := interpretToPoint (textLength (documentText d)) token d in
  exists s' t,
    stm (stateOf point) = Some s'
    /\ actionsOf point
       = t ++ [sendDiagnostics (diagnosticsOf (getErrors s'))]
    /\ interpretToEnd token d
       = (outcomeOf point, stateOf point,
          actionsOf point
          ++ [sendDiagnostics (diagnosticsOf (getErrors s'))])
    /\ stmCallsOf (actionsOf (interpretToEnd token d))
       = stmCallsOf (actionsOf point).
Proof.
  intros H point.
  destruct (assertStm_holds d) as (d1 & t0 & E & Hs & Ht).
  assert (R1 : stmIsRunning d1 = true).
  { rewrite assertStm_run in E. destruct (stmIsRunning d) eqn:R.
    - now inversion E; subst.
    - inversion E; subst. destruct H as [H | H]; [discriminate | exact H]. }
  set (len := textLength (documentText d)) in *.
  assert (P1 : interpretToPoint len token d1
               = (outcomeOf point, stateOf point,
                  skipn (List.length t0) (actionsOf point))
               /\ actionsOf point
                  = t0 ++ skipn (List.length t0) (actionsOf point)).
  { subst point.
    destruct (interpretToPoint_shape len token) as (b & _ & _ & ->).
    rewrite (bind_asserted _ d1 R1).
    rewrite (bind_run assertStm _ d tt d1 t0 E). cbn.
    rewrite skipn_app, skipn_all, Nat.sub_diag. cbn.
    split; [symmetry; apply triple_eta | reflexivity]. }
  destruct P1 as [P1 Pt].
  assert (Hp : endsWithDiagnostics point).
  { apply interpretToPoint_ends. }
  destruct Hp as (s' & t & Es & Et). exists s', t.
  split; [exact Es |]. split; [exact Et |].
  assert (G : interpretToEnd token d
              = (outcomeOf point, stateOf point,
                 actionsOf point
                 ++ [sendDiagnostics (diagnosticsOf (getErrors s'))]));
    [| split; [exact G |]; rewrite G; unfold actionsOf at 1; cbn [snd];
       apply stmCallsOf_app_notification].
  unfold interpretToEnd.
  rewrite (bind_run assertStm _ d tt d1 t0 E).
  assert (B : (d0 <- get;;
               error <- interpretToPoint (textLength (documentText d0)) token;;
               if truthy error then ret error
               else (logDebuggingSentences;;
                     goal <- call callGetGoal stmGetGoal;; toGoal goal)) d1
              = interpretToPoint len token d1).
  { unfold bind at 1. unfold get. rewrite Ht. fold len.
    unfold bind. destruct (interpretToPoint len token d1) as [[[r|e] d2] t2];
      cbn; [| reflexivity].
    now rewrite app_nil_r. }
  unfold tryFinally. rewrite B, P1.
  unfold updateDiagnostics, withStm, bind, get, emit, ret. cbn.
  rewrite Es. cbn. rewrite Pt at 2. now rewrite !app_assoc.
Qed.

End Operations.

(** ** Callbacks of the machine and results of the operations *)

Section Callbacks.
Context {Stm : Type} {machine : CoqStateMachine Stm} {parser : CoqParser}.

Lemma toGoal_run (goal : GoalResult) (d : CoqDocument Stm) (s : Stm) :
  stm d = Some s ->
  exists r,
    toGoal goal d = (Return r, d, [])
    /\ variantOf r = goal
    /\ focusOf r = match goal with
                   | GNotRunning => None
                   | _ => Some (getFocusedPosition s)
                   end.
Proof.
  intros E.
  destruct goal; cbn [toGoal]; unfold withStm, bind, get, ret; cbn;
    rewrite ?E; cbn; eexists; repeat split.
Qed.

(** C6 (as amended): when the machine reports the death of the prover
    with a reason that is not empty, the controller shuts the machine down
    if it is still running, replaces it by a new machine and sends [reset]
    to the client; when the reason is missing or empty it does nothing: no
    [reset] is sent and the machine stays. *)
Theorem C6_reset_only_when_death_has_reason (d : CoqDocument Stm) :
  callbacks (coqDied None) d = (Return tt, d, [])
  /\ callbacks (coqDied (Some EmptyString)) d = (Return tt, d, [])
  /\ forall c reason,
       callbacks (coqDied (Some (String c reason))) d
       = (Return tt,
          setStm d (Some (construct (coqtopSettings d)))
                 (S (stmIdentity d)),
          (if stmIsRunning d then [onStm callShutdown] else [])
          ++ [onStm newCoqStateMachine; sendReset]).
Proof.
  repeat split. intros c reason.
  cbn [callbacks]. unfold onCoqDied, falsy. cbn [String.eqb].
  unfold resetCoq, bind, get, put, emit, ret. cbn.
  destruct (stmIsRunning d) eqn:R; cbn; rewrite ?R; reflexivity.
Qed.

(** C7: every callback by which the machine reports the status of a
    sentence makes the controller send one highlight, over the range of
    the sentence, whose style is the image of the status in the table of
    the specification: the six members of [SentenceStatus] come through
    [sentenceStatusUpdate] and [sentenceStatusToHighlightType], Error
    through [error] and Cleared through [clearSentence]; every status of
    the table is reported by one of these callbacks, and the conversion is
    undone by [highlightTypeToSentenceStatus]. *)
Theorem C7_status_to_highlight_mapping :
  (forall range status (d : CoqDocument Stm),
      callbacks (sentenceStatusUpdate range status) d
      = (Return tt, d,
         [sendHighlightUpdates
            [{| thmProto.style :=
                  Spec.highlightOf (Spec.ofSentenceStatus status);
                thmProto.range := range |}]]))
  /\ (forall range (d : CoqDocument Stm),
         callbacks (clearSentence range) d
         = (Return tt, d,
            [sendHighlightUpdates
               [{| thmProto.style := Spec.highlightOf Spec.Cleared;
                   thmProto.range := range |}]]))
  /\ (forall sentenceRange errorRange message (d : CoqDocument Stm),
         callbacks (error sentenceRange errorRange message) d
         = let highlight :=
             sendHighlightUpdates
               [{| thmProto.style := Spec.highlightOf Spec.Error;
                   thmProto.range := sentenceRange |}] in
           match stm d with
           | Some s =>
               (Return tt, d,
                [highlight; sendDiagnostics (diagnosticsOf (getErrors s))])
           | None => (Throw "TypeError: this.stm is null", d, [highlight])
           end)
  /\ (forall st, exists cb range, Spec.reported cb = Some (range, st))
  /\ (sentenceStatusToHighlightType coqProto.Parsed = thmProto.Parsing
      /\ sentenceStatusToHighlightType coqProto.ProcessingInput
         = thmProto.Processing
      /\ sentenceStatusToHighlightType coqProto.InProgress
         = thmProto.InProgress
      /\ sentenceStatusToHighlightType coqProto.Incomplete
         = thmProto.Incomplete
      /\ sentenceStatusToHighlightType coqProto.Processed
         = thmProto.Processed
      /\ sentenceStatusToHighlightType coqProto.Complete
         = thmProto.Complete)
  /\ (forall status,
         highlightTypeToSentenceStatus (sentenceStatusToHighlightType status)
         = Return status).
Proof.
  split; [| split; [| split; [| split; [| split]]]].
  - intros range status d. destruct status; reflexivity.
  - reflexivity.
  - intros sr er msg d. cbn [callbacks].
    unfold onCoqStateError, updateDiagnostics, withStm, bind, get, emit, ret.
    cbn. destruct (stm d); reflexivity.
  - pose (r0 := {| start := {| line := 0; character := 0 |};
                   end_ := {| line := 0; character := 0 |} |}).
    intros []; [exists (sentenceStatusUpdate r0 coqProto.Parsed)
               |exists (sentenceStatusUpdate r0 coqProto.ProcessingInput)
               |exists (sentenceStatusUpdate r0 coqProto.InProgress)
               |exists (sentenceStatusUpdate r0 coqProto.Incomplete)
               |exists (sentenceStatusUpdate r0 coqProto.Processed)
               |exists (sentenceStatusUpdate r0 coqProto.Complete)
               |exists (error r0 r0 EmptyString)
               |exists (clearSentence r0)];
      exists r0; reflexivity.
  - repeat split.
  - intros []; reflexivity.
Qed.

(** C9: [toGoal] returns a result of the machine with its variant and its
    payload unchanged; every variant but not-running gets the focused
    position of the machine that the document holds as [focus], and
    not-running gets none; [focus] is what the editor moves its cursors
    to.  What [getGoal] returns is not-running or carries the focused
    position of the machine held when it returns. *)
Theorem C9_toGoal_annotates_focus (goal : GoalResult)
    (d : CoqDocument Stm) (s : Stm) :
  stm d = Some s ->
  (exists r,
      toGoal goal d = (Return r, d, [])
      /\ variantOf r = goal
      /\ focusOf r = match goal with
                     | GNotRunning => None
                     | _ => Some (getFocusedPosition s)
                     end
      /\ Client.cursorAfter r = focusOf r)
  /\ match getGoal d with
     | (Return r, d', _) =>
         r = RNotRunning
         \/ exists s', stm d' = Some s'
                       /\ focusOf r = Some (getFocusedPosition s')
     | (Throw _, _, _) => True
     end.
Proof.
  intros E. split.
  - destruct (toGoal_run goal d s E) as (r & R & V & F).
    exists r. repeat split; auto.
  - unfold getGoal. unfold bind at 1. unfold get.
    destruct (stmIsRunning d) eqn:R; cbn [negb]; [| cbn; now left].
    unfold tryFinally.
    assert (Hc := steady_call callGetGoal stmGetGoal d).
    unfold bind. unfold stateOf in Hc.
    destruct (call callGetGoal stmGetGoal d) as [[[g|e] d1] t1]; cbn in Hc.
    + destruct Hc as (_ & _ & _ & _ & Hs).
      destruct (stm d1) as [s1|] eqn:E1; [| exfalso; apply Hs; congruence].
      destruct (toGoal_run g d1 s1 E1) as (r & Rr & V & F). rewrite Rr.
      unfold updateDiagnostics, withStm, bind, get, emit, ret. cbn.
      rewrite E1. cbn.
      destruct g; cbn in F; [left; destruct r; try discriminate; reflexivity
                            | right; exists s1; split; assumption ..].
    + destruct (updateDiagnostics d1) as [[[u|e'] d2] t2]; exact I.
Qed.

End Callbacks.

(** ** Facts on texts and positions *)

Section TextFacts.

Lemma positionIsAfter_spec p q :
  textUtil.positionIsAfter p q = true
  <-> (line q < line p
       \/ (line p = line q /\ character q < character p))%nat.
Proof.
  unfold textUtil.positionIsAfter.
  rewrite orb_true_iff, andb_true_iff, !Nat.ltb_lt, Nat.eqb_eq. tauto.
Qed.

Lemma positionIsAfter_false p q :
  textUtil.positionIsAfter p q = false
  <-> (line p < line q
       \/ (line p = line q /\ character p <= character q))%nat.
Proof.
  rewrite <- not_true_iff_false, positionIsAfter_spec. lia.
Qed.

Lemma lineMatch_local t : forall t' n,
  firstn n t = firstn n t' -> (textUtil.lineMatch t < n)%nat ->
  textUtil.lineMatch t' = textUtil.lineMatch t.
Proof.
  induction t as [|c r IH]; intros t' n E L.
  - destruct n; [cbn in L; lia |].
    destruct t'; [reflexivity | discriminate].
  - destruct n; [lia |]. destruct t' as [|c' r']; [discriminate |].
    cbn [firstn] in E. injection E as <- E'.
    cbn [textUtil.lineMatch] in *. destruct (textUtil.isCR c).
    + destruct r as [|x r0].
      * destruct n; [lia |]. destruct r'; [reflexivity | discriminate].
      * destruct n; [destruct (textUtil.isLF x); lia |].
        destruct r' as [|x' r0']; [discriminate |].
        cbn [firstn] in E'. injection E' as <- _. reflexivity.
    + destruct (textUtil.isLF c); [reflexivity |].
      f_equal. apply (IH r' n E'). lia.
Qed.

Lemma lineOffset_local k : forall t t' n,
  firstn n t = firstn n t' -> (textUtil.lineOffset t k < n)%nat ->
  textUtil.lineOffset t' k = textUtil.lineOffset t k.
Proof.
  induction k as [|k IH]; intros t t' n E L; [reflexivity |].
  cbn [textUtil.lineOffset] in *. cbv zeta in *.
  assert (M : textUtil.lineMatch t' = textUtil.lineMatch t)
    by (apply lineMatch_local with n; [exact E | lia]).
  rewrite M. f_equal.
  apply IH with (n - textUtil.lineMatch t)%nat; [| lia].
  rewrite <- !skipn_firstn_comm. now rewrite E.
Qed.

(** The offset of a position depends on the text before it only. *)
Lemma offsetAt_local t t' p n :
  firstn n t = firstn n t' -> textUtil.offsetAt t p < Z.of_nat n ->
  textUtil.offsetAt t' p = textUtil.offsetAt t p.
Proof.
  unfold textUtil.offsetAt. intros E L.
  rewrite (lineOffset_local (line p) t t' n E); [reflexivity | lia].
Qed.

Lemma offsetAt_nonneg t p : 0 <= textUtil.offsetAt t p.
Proof. unfold textUtil.offsetAt. lia. Qed.

Lemma substring_prefix t b :
  0 <= b -> substring t 0 b = firstn (clampIndex t b) t.
Proof.
  intros Hb. unfold substring.
  assert (Z0 : clampIndex t 0 = 0%nat).
  { unfold clampIndex, textLength. lia. }
  rewrite Z0. cbn [Nat.min]. rewrite Nat.max_0_l, Nat.sub_0_r. reflexivity.
Qed.

(** A change spliced in at [b] leaves the text before [b] as it is. *)
Lemma editAt_prefix t b c :
  0 <= b <= textLength t ->
  firstn (Z.to_nat b) (editAt t b c) = firstn (Z.to_nat b) t.
Proof.
  intros Hb. unfold editAt. rewrite substring_prefix by lia.
  assert (C : clampIndex t b = Z.to_nat b).
  { unfold clampIndex, textLength in *. lia. }
  rewrite C, firstn_app, firstn_firstn, Nat.min_id.
  rewrite length_firstn.
  replace (Z.to_nat b - Nat.min (Z.to_nat b) (List.length t))%nat
    with 0%nat by (unfold textLength in Hb; lia).
  cbn [firstn]. apply app_nil_r.
Qed.

(** When the offsets of the changes, taken before the batch, decrease
    strictly, they are the offsets found when each change is applied. *)
Lemma fold_editText_precomputed t0 : forall l t bound,
  descendingFrom (Z.of_nat bound) (map (offsetBefore t0) l) = true ->
  firstn bound t = firstn bound t0 ->
  (bound <= S (List.length t0))%nat ->
  fold_left editText l t
  = fold_left (fun t' c => editAt t' (offsetBefore t0 c) c) l t.
Proof.
  induction l as [|c l IH]; intros t bound D E B; [reflexivity |].
  cbn [map descendingFrom] in D. apply andb_true_iff in D as [O D].
  apply Z.ltb_lt in O. cbn [fold_left].
  assert (N := offsetAt_nonneg t0 (start (crange c))).
  fold (offsetBefore t0 c) in N.
  assert (L : editText t c = editAt t (offsetBefore t0 c) c).
  { unfold editText, offsetBefore in *.
    now rewrite (offsetAt_local t0 t (start (crange c)) bound (eq_sym E) O). }
  rewrite L.
  assert (Lt : offsetBefore t0 c <= textLength t).
  { assert (H := f_equal (@List.length _) E). rewrite !length_firstn in H.
    unfold textLength. lia. }
  apply IH with (Z.to_nat (offsetBefore t0 c)).
  - now rewrite Z2Nat.id by lia.
  - rewrite editAt_prefix by lia.
    replace (Z.to_nat (offsetBefore t0 c))
      with (Nat.min (Z.to_nat (offsetBefore t0 c)) bound) by lia.
    rewrite <- !firstn_firstn. now rewrite E.
  - lia.
Qed.

(** The splice of [applyEditToDocument] at an offset that is not negative,
    on lists. *)
Lemma editAt_spliceAt t b c : 0 <= b -> editAt t b c = spliceAt t b c.
Proof.
  intros Hb. unfold editAt, spliceAt, substringFrom.
  rewrite substring_prefix by exact Hb.
  assert (F : forall n, firstn (clampIndex t n) t = firstn (Z.to_nat n) t).
  { intros n. unfold clampIndex, textLength.
    destruct (Z_le_gt_dec n (Z.of_nat (List.length t))).
    - f_equal. lia.
    - rewrite !firstn_all2 by lia. reflexivity. }
  assert (K : forall n, skipn (clampIndex t n) t = skipn (Z.to_nat n) t).
  { intros n. unfold clampIndex, textLength.
    destruct (Z_le_gt_dec n (Z.of_nat (List.length t))).
    - f_equal. lia.
    - rewrite !skipn_all2 by lia. reflexivity. }
  now rewrite F, K.
Qed.

Lemma fold_editText_splice l : forall t,
  fold_left editText l t = fold_left spliceText l t.
Proof.
  induction l as [|c l IH]; intros t; cbn [fold_left]; [reflexivity |].
  assert (E : editText t c = spliceText t c).
  { unfold editText, spliceText. apply editAt_spliceAt, offsetAt_nonneg. }
  rewrite E. apply IH.
Qed.

Lemma fold_editAt_splice (t0 : Text) l : forall t,
  fold_left (fun t' c => editAt t' (offsetBefore t0 c) c) l t
  = fold_left (fun t' c => spliceAt t' (offsetBefore t0 c) c) l t.
Proof.
  induction l as [|c l IH]; intros t; cbn [fold_left]; [reflexivity |].
  assert (E : editAt t (offsetBefore t0 c) c
              = spliceAt t (offsetBefore t0 c) c).
  { apply editAt_spliceAt, offsetAt_nonneg. }
  rewrite E. apply IH.
Qed.

End TextFacts.

(** ** The insertion sort *)

Section SortFacts.

Lemma insertLeft_perm {A} (cmp : A -> A -> Z) x rp :
  Permutation (x :: rp) (InsertionSort.insertLeft cmp x rp).
Proof.
  induction rp as [|tmp rest IH]; cbn [InsertionSort.insertLeft];
    [reflexivity |].
  destruct (cmp tmp x >? 0); [| reflexivity].
  rewrite perm_swap. now apply perm_skip.
Qed.

Lemma insertion_perm {A} (cmp : A -> A -> Z) l :
  Permutation l (InsertionSort.sorted cmp l).
Proof.
  unfold InsertionSort.sorted. rewrite <- Permutation_rev.
  assert (G : forall acc,
             Permutation (l ++ acc)
               (fold_left (fun rp x => InsertionSort.insertLeft cmp x rp)
                          l acc)).
  { induction l as [|x l IH]; intro acc; [reflexivity |].
    cbn [fold_left app]. rewrite <- IH.
    rewrite <- insertLeft_perm. apply Permutation_middle. }
  specialize (G []). now rewrite app_nil_r in G.
Qed.

(** The reversed prefix stays in order when an element moves into it. *)
Lemma insertLeft_ordered {A} (cmp : A -> A -> Z) x rp :
  (forall x y, cmp x y <= 0 -> ~ cmp y x < 0) ->
  (forall x y z, ~ cmp y x < 0 -> ~ cmp z y < 0 -> ~ cmp z x < 0) ->
  StronglySorted (fun a b => ~ cmp a b < 0) rp ->
  StronglySorted (fun a b => ~ cmp a b < 0)
                 (InsertionSort.insertLeft cmp x rp).
Proof.
  intros Once Trans.
  induction rp as [|tmp rest IH]; intros S; cbn [InsertionSort.insertLeft].
  - repeat constructor.
  - apply StronglySorted_inv in S as [S F].
    destruct (cmp tmp x >? 0) eqn:G.
    + constructor; [now apply IH |].
      eapply Permutation_Forall; [apply insertLeft_perm |].
      constructor; [lia | exact F].
    + assert (L : cmp tmp x <= 0) by lia.
      constructor; [constructor; assumption |].
      constructor; [now apply Once |].
      eapply Forall_impl; [| exact F]. intros r R.
      apply (Trans r tmp x); [exact R | now apply Once].
Qed.

Lemma StronglySorted_snoc {A} (R : A -> A -> Prop) l a :
  StronglySorted R l -> Forall (fun x => R x a) l ->
  StronglySorted R (l ++ [a]).
Proof.
  induction 1 as [|b l S IH F]; intros Fa; cbn [app].
  - repeat constructor.
  - apply Forall_cons_iff in Fa as [Rb Fa].
    constructor; [now apply IH |].
    apply Forall_app. split; [exact F | now constructor].
Qed.

Lemma StronglySorted_rev {A} (R : A -> A -> Prop) l :
  StronglySorted R l -> StronglySorted (fun a b => R b a) (rev l).
Proof.
  induction 1 as [|a l S IH F]; cbn [rev]; [constructor |].
  apply StronglySorted_snoc; [exact IH | now apply Forall_rev].
Qed.

Lemma insertion_ordered {A} (cmp : A -> A -> Z) l :
  (forall x y, cmp x y <= 0 -> ~ cmp y x < 0) ->
  (forall x y z, ~ cmp y x < 0 -> ~ cmp z y < 0 -> ~ cmp z x < 0) ->
  StronglySorted (fun x y => ~ cmp y x < 0) (InsertionSort.sorted cmp l).
Proof.
  intros Once Trans. unfold InsertionSort.sorted.
  apply (StronglySorted_rev (fun a b => ~ cmp a b < 0)).
  assert (G : forall acc,
             StronglySorted (fun a b => ~ cmp a b < 0) acc ->
             StronglySorted (fun a b => ~ cmp a b < 0)
               (fold_left (fun rp x => InsertionSort.insertLeft cmp x rp)
                          l acc)).
  { induction l as [|x l IH]; intros acc S; [exact S |].
    cbn [fold_left]. apply IH. now apply insertLeft_ordered. }
  apply G. constructor.
Qed.

Lemma Forall2_reversed {A B} (R : A -> B -> Prop) l1 l2 :
  Forall2 R l1 l2 -> Forall2 R (rev l1) (rev l2).
Proof.
  induction 1 as [|a b l1 l2 Hab H IH]; cbn [rev]; [constructor |].
  apply Forall2_app; [exact IH | now repeat constructor].
Qed.

Lemma insertLeft_related {A B} (R : A -> B -> Prop)
    (cmp : A -> A -> Z) (cmp' : B -> B -> Z) x y rp rq :
  (forall x y x' y', R x x' -> R y y' -> cmp x y = cmp' x' y') ->
  R x y -> Forall2 R rp rq ->
  Forall2 R (InsertionSort.insertLeft cmp x rp)
            (InsertionSort.insertLeft cmp' y rq).
Proof.
  intros Same Hxy H.
  induction H as [|a b rp rq Hab H IH]; cbn [InsertionSort.insertLeft].
  - constructor; [exact Hxy | constructor].
  - rewrite (Same a x b y Hab Hxy). destruct (cmp' b y >? 0).
    + constructor; [exact Hab | exact IH].
    + constructor; [exact Hxy |]. constructor; [exact Hab | exact H].
Qed.

Lemma insertion_related {A B} (R : A -> B -> Prop)
    (cmp : A -> A -> Z) (cmp' : B -> B -> Z) l l' :
  (forall x y x' y', R x x' -> R y y' -> cmp x y = cmp' x' y') ->
  Forall2 R l l' ->
  Forall2 R (InsertionSort.sorted cmp l) (InsertionSort.sorted cmp' l').
Proof.
  intros Same H. unfold InsertionSort.sorted. apply Forall2_reversed.
  assert (G : forall acc acc',
             Forall2 R acc acc' ->
             Forall2 R
               (fold_left (fun rp x => InsertionSort.insertLeft cmp x rp)
                          l acc)
               (fold_left (fun rp x => InsertionSort.insertLeft cmp' x rp)
                          l' acc')).
  { induction H as [|a b l1 l2 Hab H IH]; intros acc acc' Ha; [exact Ha |].
    cbn [fold_left]. apply IH. now apply insertLeft_related. }
  apply G. constructor.
Qed.

(** The insertion sort is an engine that the statements hold for. *)
Lemma insertionSort_laws : ArraySortLaws InsertionSort.engine.
Proof.
  split.
  - intros A cmp a. apply insertion_perm.
  - intros A cmp a. apply insertion_ordered.
  - intros A B R cmp cmp' Same a b. now apply insertion_related.
Qed.

End SortFacts.

(** ** The sorted batch, whatever the engine *)

Section SortedBatch.
Context {engine : ArraySort} {laws : ArraySortLaws engine}.

(** The comparison function of [applyTextEdits] on changes that start at
    different positions is a strict order, later starts first. *)
Lemma laterFirst_negative c1 c2 :
  laterFirst c1 c2 < 0
  <-> textUtil.positionIsAfter (start (crange c1)) (start (crange c2))
      = true.
Proof.
  unfold laterFirst.
  destruct (textUtil.positionIsAfter _ _); split; intros H;
    try reflexivity; try discriminate; lia.
Qed.

Lemma laterFirst_startsNotAfter c1 c2 :
  ~ laterFirst c1 c2 < 0 <-> startsNotAfter c1 c2.
Proof.
  rewrite laterFirst_negative. unfold startsNotAfter.
  now rewrite not_true_iff_false.
Qed.

(** The sorted changes: the same changes, each one starting at or before
    those that come earlier in the list. *)
Lemma sort_laterFirst_sorted changes :
  StronglySorted (fun c1 c2 => startsNotAfter c2 c1)
                 (sort laterFirst changes).
Proof.
  assert (S : StronglySorted (fun x y => ~ laterFirst y x < 0)
                             (sort laterFirst changes)).
  { apply sort_orders.
    - intros x y L. rewrite laterFirst_startsNotAfter.
      unfold laterFirst in L.
      destruct (textUtil.positionIsAfter (start (crange x))
                                         (start (crange y))) eqn:P;
        [| lia].
      unfold startsNotAfter. apply positionIsAfter_spec in P.
      apply positionIsAfter_false. lia.
    - intros x y z. rewrite !laterFirst_startsNotAfter.
      unfold startsNotAfter. rewrite !positionIsAfter_false. lia. }
  induction S as [|c l S IH F]; constructor; [exact IH |].
  eapply Forall_impl; [| exact F].
  intros c' H. now apply laterFirst_startsNotAfter.
Qed.

Lemma sort_sameEffect cs1 cs2 :
  Forall2 sameEffect cs1 cs2 ->
  Forall2 sameEffect (sort laterFirst cs1) (sort laterFirst cs2).
Proof.
  apply sort_compares.
  intros x y x' y' (Ex & _) (Ey & _). unfold laterFirst.
  now rewrite Ex, Ey.
Qed.

End SortedBatch.

(** ** Text edits *)

Section TextEdits.
Context {Stm : Type} {machine : CoqStateMachine Stm} {parser : CoqParser}
        {engine : ArraySort}.

Lemma forOf_edits (l : list Change) : forall d : CoqDocument Stm,
  forOf l (fun change =>
             beginOffset <- offsetAt (start (crange change));;
             applyEditToDocument beginOffset change) d
  = (Return tt,
     setDocumentText d (fold_left editText l (documentText d)), []).
Proof.
  induction l as [|c l IH]; intros d; cbn [forOf fold_left].
  - destruct d; reflexivity.
  - unfold bind at 1.
    unfold offsetAt, applyEditToDocument, bind at 1 2 3, get, put, ret.
    cbn. rewrite IH. reflexivity.
Qed.

(** What [applyTextEdits] does, from what its call of the machine does: an
    exception of the call is written to the console and the batch goes on. *)
Lemma applyTextEdits_run changes newVersion (d : CoqDocument Stm) :
  let sortedChanges := sort laterFirst changes in
  let called := call (callApplyChanges sortedChanges newVersion)
                     (applyChanges sortedChanges newVersion) d in
  applyTextEdits changes newVersion d
  = (Return tt,
     setVersion
       (setDocumentText (stateOf called)
          (fold_left editText sortedChanges (documentText d)))
       newVersion,
     actionsOf called
     ++ match outcomeOf called with
        | Return _ => []
        | Throw e =>
            [consoleError ("STM crashed while applying text edit: " ++ e)]
        end).
Proof.
  intros sortedChanges called.
  assert (Hd := steady_call (callApplyChanges sortedChanges newVersion)
                  (applyChanges sortedChanges newVersion) d).
  fold called in Hd.
  assert (C : tryCatch
                (call (callApplyChanges sortedChanges newVersion)
                      (applyChanges sortedChanges newVersion))
                (fun err =>
                   emit (consoleError
                           ("STM crashed while applying text edit: " ++ err)))
                d
              = (Return tt, stateOf called,
                 actionsOf called
                 ++ match outcomeOf called with
                    | Return _ => []
                    | Throw e =>
                        [consoleError
                           ("STM crashed while applying text edit: " ++ e)]
                    end)).
  { unfold tryCatch. fold called.
    destruct called as [[[[] | e] d1] t1]; cbn.
    - now rewrite app_nil_r.
    - reflexivity. }
  unfold applyTextEdits. cbv zeta. fold sortedChanges.
  rewrite (bind_run _ _ d tt _ _ C).
  rewrite (bind_run _ _ _ tt _ [] (forOf_edits _ _)).
  destruct Hd as (_ & _ & -> & _). cbn. now rewrite app_nil_r.
Qed.

(** C3 (as amended): [applyTextEdits] does not compare versions: whatever
    the new version is, also one that is not greater than the current
    one, the call returns normally, the changes are applied to the text in
    sorted order and the version becomes the new version.  The sorted batch
    and the new version are first passed to [applyChanges] of the machine:
    what this call does is all that is done to the outside, and when it
    throws, or when there is no machine to call, the exception is written to
    the client console and to nothing else. *)
Theorem C3_applyTextEdits_accepts_any_version changes newVersion
    (d : CoqDocument Stm) :
  let sortedChanges := sort laterFirst changes in
  let called := call (callApplyChanges sortedChanges newVersion)
                     (applyChanges sortedChanges newVersion) d in
  let r := applyTextEdits changes newVersion d in
  outcomeOf r = Return tt
  /\ version (stateOf r) = Some newVersion
  /\ documentText (stateOf r)
     = fold_left spliceText sortedChanges (documentText d)
  /\ stm (stateOf r) = stm (stateOf called)
  /\ actionsOf r
     = actionsOf called
       ++ match outcomeOf called with
          | Return _ => []
          | Throw e =>
              [consoleError ("STM crashed while applying text edit: " ++ e)]
          end
  /\ match stm d with
     | Some _ =>
         startsWith [onStm (callApplyChanges sortedChanges newVersion)] r
     | None =>
         exists e,
           actionsOf r
           = [consoleError ("STM crashed while applying text edit: " ++ e)]
     end.
Proof.
  intros sortedChanges called r. subst r.
  rewrite (applyTextEdits_run changes newVersion d).
  fold sortedChanges. fold called.
  cbn [outcomeOf stateOf actionsOf fst snd].
  split; [reflexivity |]. split; [reflexivity |].
  split; [cbn; apply fold_editText_splice |].
  split; [reflexivity |]. split; [reflexivity |].
  destruct (stm d) as [s |] eqn:E.
  - destruct (startsWith_call (callApplyChanges sortedChanges newVersion)
                (applyChanges sortedChanges newVersion) d s E) as (t & T).
    fold called in T. unfold startsWith. cbn [actionsOf snd].
    rewrite T, <- app_assoc. eexists. reflexivity.
  - assert (C : called = (Throw "TypeError: this.stm is null", d, [])).
    { subst called. unfold call, bind, get. cbn. now rewrite E. }
    rewrite C. cbn. eexists. reflexivity.
Qed.

(** C5 (as amended): [applyTextEdits] applies the changes of a batch one
    after the other in the order of [sortedChanges]: with every engine
    whose sort has the laws of [ArraySortLaws], the same changes, a
    change that starts later in the document before one that starts
    earlier; the version is the new version when the batch is done.  Each
    change is spliced in at the offset that its start has in the text as it
    is then.  When the start offsets of the changes, taken in the text
    before the batch, lie in the text and are all different, this is the
    offset taken before the batch. *)
Theorem C5_changes_applied_latest_first changes newVersion
    (d : CoqDocument Stm) (laws : ArraySortLaws engine) :
  let sortedChanges := sort laterFirst changes in
  let after := stateOf (applyTextEdits changes newVersion d) in
  Permutation changes sortedChanges
  /\ StronglySorted (fun c1 c2 => startsNotAfter c2 c1) sortedChanges
  /\ documentText after
     = fold_left spliceText sortedChanges (documentText d)
  /\ version after = Some newVersion
  /\ (descendingFrom (textLength (documentText d) + 1)
                     (map (offsetBefore (documentText d)) sortedChanges)
      = true ->
      documentText after
      = fold_left
          (fun t c => spliceAt t (offsetBefore (documentText d) c) c)
          sortedChanges (documentText d)).
Proof.
  intros sortedChanges after.
  assert (T : documentText after
              = fold_left editText sortedChanges (documentText d)).
  { subst after sortedChanges.
    rewrite (applyTextEdits_run changes newVersion d). reflexivity. }
  split; [apply sort_permutes |].
  split; [apply sort_laterFirst_sorted |].
  split; [rewrite T; apply fold_editText_splice |].
  split.
  - subst after.
    rewrite (applyTextEdits_run changes newVersion d). reflexivity.
  - intros D. rewrite T, <- fold_editAt_splice.
    apply fold_editText_precomputed
      with (bound := S (List.length (documentText d))).
    + unfold textLength in D.
      now replace (Z.of_nat (S (List.length (documentText d))))
        with (Z.of_nat (List.length (documentText d)) + 1) by lia.
    + reflexivity.
    + lia.
Qed.

End TextEdits.

(** ** The command generator *)

Section GeneratorFacts.
Context {Stm : Type} {machine : CoqStateMachine Stm} {parser : CoqParser}.

#[local] Arguments generatorLoop : simpl never.

Lemma generatorLoop_run endOffset currentOffset highlight
    (d : CoqDocument Stm) :
  exists r, generatorLoop endOffset currentOffset highlight d
            = (Return r, d, [])
            /\ match r with
               | (Some c, g) =>
                   g = GenYielded
                         endOffset
                         (currentOffset
                          + parseSentence (substr (documentText d)
                                                  currentOffset endOffset))
                         c highlight
               | (None, g) => g = GenDone
               end.
Proof.
  unfold generatorLoop, positionAt, bind, get, ret. cbn.
  destruct (_ || _); cbn; eexists; split; reflexivity.
Qed.


End GeneratorFacts.

(** ** The scenarios, run *)

#[local] Existing Instance LinearStm.instance.
#[local] Existing Instance InsertionSort.engine.
#[local] Existing Instance coqParser.instance.

(** ** The machine of the specification under the controller *)





(** [substring] clamps its indices and swaps them; the second argument of
    [substr] is a length. *)
Example substring_and_substr :
  substring (Scenario.text "abcdef") 4 1 = Scenario.text "bcd"
  /\ substring (Scenario.text "abc") (-2) 10 = Scenario.text "abc"
  /\ substring (Scenario.text "A. B. C.") 2 4 = Scenario.text " B"
  /\ substr (Scenario.text "A. B. C.") 2 4 = Scenario.text " B. "
  /\ substr (Scenario.text "abc") (-1) 5 = Scenario.text "c"
  /\ substr (Scenario.text "abc") 1 (-1) = [].
Proof. repeat split. Qed.

(** Offsets and positions in a text of three lines, the first one ended by
    a carriage return and a line feed, the second one by a line feed. *)
Example offsets_and_positions :
  let t := ["a"; "013"; "010"; "b"; "c"; "010"; "d"]%char in
  textUtil.offsetAt t (Scenario.at_ 0 1) = 1
  /\ textUtil.offsetAt t (Scenario.at_ 1 0) = 3
  /\ textUtil.offsetAt t (Scenario.at_ 2 1) = 7
  /\ textUtil.positionAt t 3 = Scenario.at_ 1 0
  /\ textUtil.positionAt t 4 = Scenario.at_ 1 1
  /\ textUtil.positionAt t 6 = Scenario.at_ 2 0
  /\ textUtil.positionAt t 40 = Scenario.at_ 2 1.
Proof. repeat split. Qed.

(** Sentences as the parser delimits them. *)
Example sentences_parsed :
  parseSentence (Scenario.text "A. B") = 2
  /\ parseSentence (Scenario.text " B. ") = 3
  /\ parseSentence (Scenario.text " B") = -1
  /\ parseSentence (Scenario.text "(* a. *) Proof. x") = 15
  /\ parseSentence (Scenario.text "- auto.") = 1
  /\ parseSentence (Scenario.text "Check 1.5 + f.x. Qed.") = 16.
Proof. repeat split. Qed.

(** A batch given in document order is applied from its last change to
    its first (sorted by the insertion sort; no two changes start at the
    same position). *)
Example changes_sorted :
  sort laterFirst [Scenario.replacement 0 0 1 "XX";
                   Scenario.insertion 0 1 "Q";
                   Scenario.replacement 0 2 1 "YY"]
  = [Scenario.replacement 0 2 1 "YY";
     Scenario.insertion 0 1 "Q";
     Scenario.replacement 0 0 1 "XX"]
  /\ documentText
       (stateOf (applyTextEdits [Scenario.replacement 0 0 1 "XX";
                                 Scenario.insertion 0 1 "Q";
                                 Scenario.replacement 0 2 1 "YY"]
                                6 Scenario.versioned))
     = Scenario.text "XXQbYY".
Proof. split; reflexivity. Qed.

(** C1, counterexample: the machine of the document [closed] is not running
    and holds one error; [getGoal] answers not-running and sends no
    diagnostics at all. *)
Lemma C1_getGoal_not_running_sends_no_diagnostics :
  option_map getErrors (stm Scenario.closed)
  = Some [{| erange := RangeNS.create (Scenario.at_ 0 0) (Scenario.at_ 0 5);
             emessage := "syntax";
             esentence := RangeNS.create (Scenario.at_ 0 0)
                                         (Scenario.at_ 0 5) |}]
  /\ getGoal Scenario.closed = (Return RNotRunning, Scenario.closed, [])
  /\ ~ endsWithDiagnostics (getGoal Scenario.closed).
Proof.
  split; [reflexivity |]. split; [reflexivity |].
  intros (s' & t & _ & E). destruct t; discriminate E.
Qed.

(** C2, counterexample: the machine of the document [stopped] has been shut
    down; [stepForward] creates a new machine itself, steps over the first
    sentence and returns a result with a focus, not not-running. *)
Lemma C2_stepForward_after_shutdown_restarts :
  stmIsRunning Scenario.stopped = false
  /\ In (onStm newCoqStateMachine)
        (actionsOf (stepForward Scenario.token Scenario.stopped))
  /\ outcomeOf (stepForward Scenario.token Scenario.stopped)
     = Return (RNoProof (Scenario.at_ 0 2))
  /\ stmIsRunning (stateOf (stepForward Scenario.token Scenario.stopped))
     = true.
Proof.
  split; [reflexivity |]. split; [left; reflexivity |].
  split; reflexivity.
Qed.

(** C2, witness. *)
Lemma C2_witness :
  stmIsRunning Scenario.stopped = false
  /\ startsWith [onStm newCoqStateMachine; onStm callStepForward]
                (stepForward Scenario.token Scenario.stopped).
Proof.
  split; [reflexivity |].
  apply (C2_operations_restart_the_machine Scenario.token 8 Scenario.stopped).
  reflexivity.
Defined.

(** C3, counterexample: the document is at version 5; a batch with version
    3 is applied all the same: the call returns normally, the text has
    changed and the version is 3. *)
Lemma C3_stale_version_is_applied :
  let batch := [Scenario.insertion 0 0 "X"] in
  let after := applyTextEdits batch 3 Scenario.versioned in
  version Scenario.versioned = Some 5
  /\ 3 <= 5
  /\ outcomeOf after = Return tt
  /\ documentText Scenario.versioned = Scenario.text "abc"
  /\ documentText (stateOf after) = Scenario.text "Xabc"
  /\ version (stateOf after) = Some 3.
Proof.
  cbv zeta. repeat split; try reflexivity. discriminate.
Qed.

(** C4: on the text [A. B. C.] the iterator that is asked for the commands
    from the origin to offset 4 yields, after [A.], the command [ B.],
    whose range ends at offset 5: past the target. *)
Theorem C4_generator_yields_past_the_target :
  let target := Scenario.at_ 0 4 in
  let g0 := commandSequence false (Scenario.at_ 0 0) (Some target) in
  exists c1 g1 c2 g2,
    next g0 Scenario.abc = (Return (Some c1, g1), Scenario.abc, [])
    /\ next g1 Scenario.abc = (Return (Some c2, g2), Scenario.abc, [])
    /\ cmdText c2 = Scenario.text " B."
    /\ cmdRange c2 = RangeNS.create (Scenario.at_ 0 2) (Scenario.at_ 0 5)
    /\ textUtil.offsetAt (documentText Scenario.abc) target = 4
    /\ textUtil.offsetAt (documentText Scenario.abc) (end_ (cmdRange c2)) = 5.
Proof.
  cbv zeta. do 4 eexists.
  split; [vm_compute; reflexivity |].
  split; [vm_compute; reflexivity |].
  repeat split.
Qed.

(** C5, counterexample: the text is [a], a carriage return and [b]; both
    changes of the batch insert a line feed and a letter at line 1,
    character 0, which is offset 2 before the batch.  The insertion made
    first puts its line feed behind the carriage return: the two are one
    line ending then, line 1 starts one code unit later, and the other
    insertion is made at offset 3.  In whichever order the two changes are
    given, the text is not the one that the offsets taken before the batch
    give. *)
Lemma C5_offset_taken_before_is_not_kept :
  let t0 := ["a"; "013"; "b"]%char in
  let d := Scenario.opened (string_of_list_ascii t0) in
  let x := {| crange := RangeNS.create (Scenario.at_ 1 0) (Scenario.at_ 1 0);
              rangeLength := 0; ctext := ["010"; "X"]%char |} in
  let y := {| crange := RangeNS.create (Scenario.at_ 1 0) (Scenario.at_ 1 0);
              rangeLength := 0; ctext := ["010"; "Y"]%char |} in
  let before (batch : list Change) :=
    fold_left (fun t c => spliceAt t (offsetBefore t0 c) c)
              (sort laterFirst batch) t0 in
  documentText d = t0
  /\ offsetBefore t0 x = 2 /\ offsetBefore t0 y = 2
  /\ textUtil.offsetAt (spliceText t0 x) (start (crange y)) = 3
  /\ textUtil.offsetAt (spliceText t0 y) (start (crange x)) = 3
  /\ documentText (stateOf (applyTextEdits [x; y] 2 d))
     = ["a"; "013"; "010"; "010"; "X"; "Y"; "b"]%char
  /\ before [x; y] = ["a"; "013"; "010"; "X"; "010"; "Y"; "b"]%char
  /\ documentText (stateOf (applyTextEdits [y; x] 2 d))
     = ["a"; "013"; "010"; "010"; "Y"; "X"; "b"]%char
  /\ before [y; x] = ["a"; "013"; "010"; "Y"; "010"; "X"; "b"]%char
  /\ documentText (stateOf (applyTextEdits [x; y] 2 d)) <> before [x; y]
  /\ documentText (stateOf (applyTextEdits [y; x] 2 d)) <> before [y; x].
Proof.
  cbv zeta. repeat split; try reflexivity; discriminate.
Qed.

(** C5, witness: two replacements in [abc], given in document order. *)
Lemma C5_witness :
  let batch := [Scenario.replacement 0 0 1 "XX";
                Scenario.replacement 0 2 1 "YY"] in
  descendingFrom
    (textLength (documentText Scenario.versioned) + 1)
    (map (offsetBefore (documentText Scenario.versioned))
         (sort laterFirst batch))
  = true
  /\ documentText (stateOf (applyTextEdits batch 6 Scenario.versioned))
     = fold_left
         (fun t c =>
            spliceAt t (offsetBefore (documentText Scenario.versioned) c) c)
         (sort laterFirst batch) (documentText Scenario.versioned).
Proof.
  cbv zeta. split; [reflexivity |].
  apply (C5_changes_applied_latest_first
           [Scenario.replacement 0 0 1 "XX"; Scenario.replacement 0 2 1 "YY"]
           6 Scenario.versioned insertionSort_laws).
  reflexivity.
Defined.

(** C6, counterexample: the prover dies and no reason is given; the
    controller sends no [reset] and keeps its machine. *)
Lemma C6_death_without_reason_sends_no_reset :
  callbacks (coqDied None) Scenario.abc = (Return tt, Scenario.abc, [])
  /\ ~ In sendReset (actionsOf (callbacks (coqDied None) Scenario.abc)).
Proof.
  split; [reflexivity |]. intros [].
Qed.

(** C9, witness. *)
Lemma C9_witness :
  stm Scenario.abc = Some (construct Scenario.settings)
  /\ exists r,
       toGoal GNoProof Scenario.abc = (Return r, Scenario.abc, [])
       /\ variantOf r = GNoProof
       /\ focusOf r = Some (Scenario.at_ 0 0)
       /\ Client.cursorAfter r = focusOf r.
Proof.
  split; [reflexivity |].
  exact (proj1 (C9_toGoal_annotates_focus GNoProof Scenario.abc
                  (construct Scenario.settings) eq_refl)).
Defined.

(** C10, counterexample: on the document of the scenarios [interpretToEnd]
    does not do the same things as [interpretToPoint] at the length of the
    text: it sends the diagnostics once more. *)
Lemma C10_interpretToEnd_sends_diagnostics_twice :
  let point :=
    interpretToPoint (textLength (documentText Scenario.abc))
                     Scenario.token Scenario.abc in
  actionsOf (interpretToEnd Scenario.token Scenario.abc)
  = actionsOf point ++ [sendDiagnostics []]
  /\ actionsOf (interpretToEnd Scenario.token Scenario.abc)
     <> actionsOf point.
Proof.
  cbv zeta. split; [reflexivity |].
  intros E. apply (f_equal (@List.length _)) in E. discriminate E.
Qed.

(** C10, witness. *)
Lemma C10_witness :
  (stmIsRunning Scenario.abc = true
   \/ isRunning (construct (coqtopSettings Scenario.abc)) = true)
  /\ exists s' t,
       stm (stateOf (interpretToPoint
                       (textLength (documentText Scenario.abc))
                       Scenario.token Scenario.abc)) = Some s'
       /\ actionsOf (interpretToPoint
                       (textLength (documentText Scenario.abc))
                       Scenario.token Scenario.abc)
          = t ++ [sendDiagnostics (diagnosticsOf (getErrors s'))]
       /\ interpretToEnd Scenario.token Scenario.abc
          = (outcomeOf (interpretToPoint
                          (textLength (documentText Scenario.abc))
                          Scenario.token Scenario.abc),
             stateOf (interpretToPoint
                        (textLength (documentText Scenario.abc))
                        Scenario.token Scenario.abc),
             actionsOf (interpretToPoint
                          (textLength (documentText Scenario.abc))
                          Scenario.token Scenario.abc)
             ++ [sendDiagnostics (diagnosticsOf (getErrors s'))])
       /\ stmCallsOf (actionsOf (interpretToEnd Scenario.token Scenario.abc))
          = stmCallsOf (actionsOf (interpretToPoint
                                     (textLength (documentText Scenario.abc))
                                     Scenario.token Scenario.abc)).
Proof.
  split; [left; reflexivity |].
  apply (C10_interpretToEnd_is_interpretToPoint_then_diagnostics
           Scenario.token Scenario.abc).
  left. reflexivity.
Defined.

(** ** The command generator, pulled several times *)

Section GeneratorPulls.
Context {Stm : Type} {parser : CoqParser}.

#[local] Arguments generatorLoop : simpl never.

Lemma generatorLoop_spec endOffset currentOffset highlight
    (d : CoqDocument Stm) :
  let t := documentText d in
  let nextOffset :=
    currentOffset + parseSentence (substr t currentOffset endOffset) in
  let c := {| cmdText := substring t currentOffset nextOffset;
              cmdRange := RangeNS.create
                            (textUtil.positionAt t currentOffset)
                            (textUtil.positionAt t nextOffset) |} in
  generatorLoop endOffset currentOffset highlight d
  = if (parseSentence (substr t currentOffset endOffset) >? 0)
       || (nextOffset >? endOffset)
    then (Return (Some c, GenYielded endOffset nextOffset c highlight), d, [])
    else (Return (None, GenDone), d, []).
Proof.
  cbv zeta. unfold generatorLoop, positionAt, bind, get, ret. cbn.
  destruct (_ || _); reflexivity.
Qed.

Lemma next_start begin endPos highlight (d : CoqDocument Stm) :
  next (GenStart begin endPos highlight) d
  = if textUtil.offsetAt (documentText d) begin
       >=? endOffsetOf (documentText d) endPos
    then (Return (None, GenDone), d, [])
    else generatorLoop (endOffsetOf (documentText d) endPos)
                       (textUtil.offsetAt (documentText d) begin) highlight d.
Proof.
  cbn [next]. unfold offsetAt, bind, get, ret, endOffsetOf. cbn.
  destruct endPos; cbn; (destruct (_ >=? _); cbn; [reflexivity |]);
    match goal with
    | |- context [generatorLoop ?e ?o ?h ?d] =>
        destruct (generatorLoop_run e o h d) as (r & E & _); rewrite E
    end; reflexivity.
Qed.

Lemma next_yielded endOffset nextOffset result highlight
    (d : CoqDocument Stm) :
  next (GenYielded endOffset nextOffset result highlight) d
  = (outcomeOf (generatorLoop endOffset nextOffset highlight d), d,
     if highlight
     then [sendHighlightUpdates
             [{| thmProto.style := thmProto.Parsing;
                 thmProto.range := cmdRange result |}]]
     else []).
Proof.
  cbn [next]. unfold bind, emit, ret, outcomeOf.
  destruct (generatorLoop_run endOffset nextOffset highlight d)
    as (r & E & _).
  destruct highlight; cbn; rewrite E; reflexivity.
Qed.

(** What one pull gives: the document is left as it is, nothing is thrown,
    and the generator that is left carries the same [highlight] or is
    done. *)
Lemma next_run (g : Generator) (d : CoqDocument Stm) :
  exists c g',
    next g d
    = (Return (c, g'), d,
       match g with
       | GenYielded _ _ result true =>
           [sendHighlightUpdates
              [{| thmProto.style := thmProto.Parsing;
                  thmProto.range := cmdRange result |}]]
       | _ => []
       end)
    /\ (highlighting g' = highlighting g \/ g' = GenDone)
    /\ (c = None -> g' = GenDone).
Proof.
  destruct g as [begin endPos h | e n result h |].
  - rewrite next_start. destruct (_ >=? _).
    + eexists _, _. split; [reflexivity |]. split; [now right | reflexivity].
    + rewrite generatorLoop_spec. cbv zeta. destruct (_ || _);
        eexists _, _; (split; [reflexivity |]);
        (split; [(now left) || (now right) | try reflexivity; discriminate]).
  - rewrite next_yielded, generatorLoop_spec. cbv zeta.
    destruct (_ || _); destruct h; cbn;
      eexists _, _; (split; [reflexivity |]);
      (split; [(now left) || (now right) | try reflexivity; discriminate]).
  - eexists _, _. split; [reflexivity |]. split; [now right | reflexivity].
Qed.

Lemma pull_quiet n : forall (g : Generator) (d : CoqDocument Stm),
  highlighting g = false ->
  exists cs g', pull n g d = (Return (cs, g'), d, []).
Proof.
  induction n as [|n IH]; intros g d Q; cbn [pull].
  - eexists _, _. reflexivity.
  - destruct (next_run g d) as (c & g' & E & H & _).
    assert (A : match g with
                | GenYielded _ _ result true =>
                    [sendHighlightUpdates
                       [{| thmProto.style := thmProto.Parsing;
                           thmProto.range := cmdRange result |}]]
                | _ => []
                end = []).
    { destruct g as [| ? ? ? []|]; try reflexivity. discriminate Q. }
    rewrite A in E. rewrite (bind_run _ _ d (c, g') d [] E). cbn [fst snd].
    destruct c as [c|]; [| eexists _, _; reflexivity].
    assert (Q' : highlighting g' = false).
    { destruct H as [H | ->]; [congruence | reflexivity]. }
    destruct (IH g' d Q') as (cs & g'' & E').
    rewrite (bind_run _ _ d (cs, g'') d [] E'). cbn.
    eexists _, _. reflexivity.
Qed.

(** X1: however the controller's iterator is made and however many
    commands are pulled from it, nothing is sent to the client, nothing is
    thrown and the document is left as it is: [commandSequence] drops its
    [highlight] argument, and a generator without [highlight] stays
    without. *)
Theorem X1_iterators_of_commandSequence_send_nothing highlight begin endPos
    n (d : CoqDocument Stm) :
  commandSequence highlight = commandSequence false
  /\ exists cs g,
       pull n (commandSequence highlight begin endPos) d
       = (Return (cs, g), d, []).
Proof.
  split; [reflexivity |]. apply pull_quiet. reflexivity.
Qed.

Lemma pull_shape n : forall (g : Generator) (d : CoqDocument Stm),
  exists cs g' t, pull n g d = (Return (cs, g'), d, t).
Proof.
  induction n as [|n IH]; intros g d; cbn [pull].
  - eexists _, _, _. reflexivity.
  - destruct (next_run g d) as (c & g' & E & _).
    rewrite (bind_run _ _ d (c, g') d _ E). cbn [fst snd].
    destruct c as [c|]; [| eexists _, _, _; reflexivity].
    destruct (IH g' d) as (cs & g'' & t & E').
    rewrite (bind_run _ _ d (cs, g'') d t E'). cbn.
    eexists _, _, _. reflexivity.
Qed.

Lemma pull_contiguous n : forall (g : Generator) (d : CoqDocument Stm) cs g' t,
  pull n g d = (Return (cs, g'), d, t) ->
  let p := match g with
           | GenStart begin _ _ =>
               textUtil.positionAt (documentText d)
                 (textUtil.offsetAt (documentText d) begin)
           | GenYielded _ nextOffset _ _ =>
               textUtil.positionAt (documentText d) nextOffset
           | GenDone => {| line := 0; character := 0 |}
           end in
  contiguousFrom p cs /\ Forall (sliceOf (documentText d)) cs.
Proof.
  induction n as [|n IH]; intros g d cs g' t E; cbn [pull] in E.
  - inversion E; subst. cbn. auto.
  - cbv zeta.
    assert (N : exists c g1 t1,
               next g d = (Return (c, g1), d, t1)
               /\ match c with
                  | None => True
                  | Some c1 =>
                      sliceOf (documentText d) c1
                      /\ start (cmdRange c1)
                         = match g with
                           | GenStart begin _ _ =>
                               textUtil.positionAt (documentText d)
                                 (textUtil.offsetAt (documentText d) begin)
                           | GenYielded _ nextOffset _ _ =>
                               textUtil.positionAt (documentText d) nextOffset
                           | GenDone => {| line := 0; character := 0 |}
                           end
                      /\ exists e n1 h,
                           g1 = GenYielded e n1 c1 h
                           /\ end_ (cmdRange c1)
                              = textUtil.positionAt (documentText d) n1
                  end).
    { destruct g as [begin endPos h | e n0 result h |].
      - rewrite next_start. destruct (_ >=? _);
          [eexists None, _, _; split; [reflexivity | exact I] |].
        rewrite generatorLoop_spec. cbv zeta. destruct (_ || _);
          [| eexists None, _, _; split; [reflexivity | exact I]].
        eexists (Some _), _, _. split; [reflexivity |].
        split; [eexists _, _; split; reflexivity |].
        split; [reflexivity |]. eexists _, _, _. split; reflexivity.
      - rewrite next_yielded, generatorLoop_spec. cbv zeta.
        destruct (_ || _); cbn;
          [| eexists None, _, _; split; [reflexivity | exact I]].
        eexists (Some _), _, _. split; [reflexivity |].
        split; [eexists _, _; split; reflexivity |].
        split; [reflexivity |]. eexists _, _, _. split; reflexivity.
      - eexists None, _, _. split; [reflexivity | exact I]. }
    destruct N as (c & g1 & t1 & En & Hc).
    rewrite (bind_run _ _ d (c, g1) d t1 En) in E. cbn [fst snd] in E.
    destruct c as [c1|]; [| inversion E; subst; cbn; auto].
    destruct Hc as (Sl & St & e & n1 & h & -> & En1).
    destruct (pull_shape n (GenYielded e n1 c1 h) d) as (cs1 & g2 & t2 & E2).
    rewrite (bind_run _ _ d (cs1, g2) d t2 E2) in E. cbn in E.
    inversion E; subst.
    destruct (IH _ d cs1 g' t2 E2) as [C F]. cbn in C.
    split; [split; [exact St | now rewrite En1] | constructor; assumption].
Qed.

(** X2: the commands that a new generator yields are contiguous: the first
    one starts at the position of the offset of [begin], every other one
    at the position where the one before it ends, and the text of each
    command is the slice of the document between the two offsets whose
    positions make its range. *)
Theorem X2_generated_commands_are_contiguous begin endPos highlight n
    (d : CoqDocument Stm) :
  exists cs g t,
    pull n (commandSequenceGenerator begin endPos highlight) d
    = (Return (cs, g), d, t)
    /\ contiguousFrom
         (textUtil.positionAt (documentText d)
            (textUtil.offsetAt (documentText d) begin)) cs
    /\ Forall (sliceOf (documentText d)) cs.
Proof.
  destruct (pull_shape n (commandSequenceGenerator begin endPos highlight) d)
    as (cs & g & t & E).
  exists cs, g, t. split; [exact E |].
  exact (pull_contiguous n _ d cs g t E).
Qed.

(** X3: a generator asked for the commands from a position that is at or
    past its end offset yields none: its first pull answers that it is
    done, whatever the parser would find; a generator that has answered
    done is done for good and sends nothing more. *)
Theorem X3_empty_span_yields_no_command begin endPos highlight n
    (d : CoqDocument Stm) :
  endOffsetOf (documentText d) endPos
  <= textUtil.offsetAt (documentText d) begin ->
  pull (S n) (commandSequenceGenerator begin endPos highlight) d
  = (Return ([], GenDone), d, [])
  /\ pull (S n) GenDone d = (Return ([], GenDone), d, [])
  /\ forall g, exists c g',
       outcomeOf (next g d) = Return (c, g') /\ (c = None -> g' = GenDone).
Proof.
  intros H. split; [| split].
  - cbn [pull]. unfold commandSequenceGenerator.
    assert (E : next (GenStart begin endPos highlight) d
                = (Return (None, GenDone), d, [])).
    { rewrite next_start.
      destruct (_ >=? _) eqn:G; [reflexivity |].
      rewrite Z.geb_leb in G. apply Z.leb_gt in G. lia. }
    rewrite (bind_run _ _ d _ d [] E). reflexivity.
  - reflexivity.
  - intros g. destruct (next_run g d) as (c & g' & E & _ & D).
    exists c, g'. rewrite E. split; [reflexivity | exact D].
Qed.

End GeneratorPulls.

(** ** More on text edits *)

Section MoreTextEdits.
Context {Stm : Type} {machine : CoqStateMachine Stm} {parser : CoqParser}
        {engine : ArraySort}.

Lemma applyEditToDocument_run begin change (d : CoqDocument Stm) :
  applyEditToDocument begin change d
  = (Return tt, setDocumentText d (editAt (documentText d) begin change), []).
Proof. reflexivity. Qed.

Lemma editAt_closed t b c :
  0 <= b -> 0 <= rangeLength c ->
  editAt t b c
  = firstn (Z.to_nat b) t ++ ctext c
    ++ skipn (Z.to_nat (b + rangeLength c)) t.
Proof.
  intros Hb Hr. unfold editAt, substringFrom.
  rewrite substring_prefix by exact Hb.
  assert (F : forall n, firstn (clampIndex t n) t = firstn (Z.to_nat n) t).
  { intros n. unfold clampIndex, textLength.
    destruct (Z_le_gt_dec n (Z.of_nat (List.length t))).
    - f_equal. lia.
    - rewrite !firstn_all2 by lia. reflexivity. }
  assert (K : forall n, skipn (clampIndex t n) t = skipn (Z.to_nat n) t).
  { intros n. unfold clampIndex, textLength.
    destruct (Z_le_gt_dec n (Z.of_nat (List.length t))).
    - f_equal. lia.
    - rewrite !skipn_all2 by lia. reflexivity. }
  now rewrite F, K.
Qed.

(** X4: [applyEditToDocument] never fails on an offset or a length that
    lies outside the text: for an offset and a range length that are not
    negative, the new text is what comes before the offset (all of the
    text when the offset is past the end), the text of the change, and
    what comes after the replaced code units (nothing when they reach the
    end).  So a change past the end is appended, and a range length that
    reaches past the end deletes up to the end. *)
Theorem X4_applyEditToDocument_clamps begin change (d : CoqDocument Stm) :
  0 <= begin -> 0 <= rangeLength change ->
  let t := documentText d in
  let t' := documentText (stateOf (applyEditToDocument begin change d)) in
  outcomeOf (applyEditToDocument begin change d) = Return tt
  /\ t' = firstn (Z.to_nat begin) t ++ ctext change
          ++ skipn (Z.to_nat (begin + rangeLength change)) t
  /\ textLength t'
     = Z.min begin (textLength t) + textLength (ctext change)
       + (textLength t - Z.min (begin + rangeLength change) (textLength t))
  /\ (textLength t <= begin -> t' = t ++ ctext change)
  /\ (textLength t <= begin + rangeLength change ->
      t' = firstn (Z.to_nat begin) t ++ ctext change).
Proof.
  intros Hb Hr t t'. subst t'. rewrite applyEditToDocument_run.
  cbn [stateOf outcomeOf fst snd setDocumentText documentText].
  fold t. rewrite (editAt_closed t begin change Hb Hr).
  split; [reflexivity |]. split; [reflexivity |].
  split; [| split].
  - unfold textLength. rewrite !length_app, length_firstn, length_skipn. lia.
  - intros L. unfold textLength in L.
    rewrite firstn_all2, skipn_all2 by lia. now rewrite app_nil_r.
  - intros L. unfold textLength in L.
    rewrite skipn_all2 by lia. now rewrite app_nil_r.
Qed.

(** X5: inserting a text at an offset inside the document and then
    deleting as many code units at the same offset gives the document text
    back. *)
Theorem X5_insert_then_delete_restores_text begin inserted range1 range2
    (d : CoqDocument Stm) :
  0 <= begin <= textLength (documentText d) ->
  let insertion := {| crange := range1; rangeLength := 0;
                      ctext := inserted |} in
  let deletion := {| crange := range2; rangeLength := textLength inserted;
                     ctext := [] |} in
  documentText
    (stateOf ((applyEditToDocument begin insertion;;
               applyEditToDocument begin deletion) d))
  = documentText d.
Proof.
  intros Hb insertion deletion.
  rewrite (bind_run _ _ d tt _ [] (applyEditToDocument_run _ _ d)).
  rewrite applyEditToDocument_run.
  cbn [stateOf outcomeOf actionsOf fst snd setDocumentText documentText].
  rewrite (editAt_closed (documentText d) begin insertion) by (cbn; lia).
  rewrite editAt_closed by (cbn; unfold textLength; lia).
  cbn [ctext rangeLength insertion deletion]. rewrite Z.add_0_r, app_nil_l.
  unfold textLength in *.
  set (t := documentText d) in *. set (b := Z.to_nat begin).
  replace (Z.to_nat (begin + Z.of_nat (List.length inserted)))
    with (b + List.length inserted)%nat by lia.
  assert (Lb : List.length (firstn b t) = b)
    by (rewrite length_firstn; lia).
  assert (F : firstn b (firstn b t ++ inserted ++ skipn b t) = firstn b t).
  { rewrite firstn_app, Lb, Nat.sub_diag, firstn_all2 by lia.
    cbn [firstn]. apply app_nil_r. }
  assert (K : skipn (b + List.length inserted)
                    (firstn b t ++ inserted ++ skipn b t) = skipn b t).
  { rewrite app_assoc, skipn_app, skipn_all2
      by (rewrite length_app, Lb; lia).
    rewrite length_app, Lb, Nat.sub_diag. reflexivity. }
  rewrite F, K. apply firstn_skipn.
Qed.

Lemma fold_editText_sameEffect cs1 cs2 :
  Forall2 sameEffect cs1 cs2 ->
  forall t, fold_left editText cs1 t = fold_left editText cs2 t.
Proof.
  induction 1 as [|a b l1 l2 (S & R & T) H IH]; intros t; [reflexivity |].
  cbn [fold_left].
  assert (E : editText t a = editText t b).
  { unfold editText, editAt. now rewrite S, R, T. }
  rewrite E. apply IH.
Qed.

(** X6: [applyTextEdits] never reads the end of the range of a change: the
    code units replaced are the [rangeLength] ones from the start of the
    range.  Two batches whose changes agree, one by one, on the start, the
    range length and the text give the same document text, with every
    engine whose sort has the laws of [ArraySortLaws]. *)
Theorem X6_end_of_range_is_not_read changes1 changes2 newVersion
    (d : CoqDocument Stm) (laws : ArraySortLaws engine) :
  Forall2 sameEffect changes1 changes2 ->
  documentText (stateOf (applyTextEdits changes1 newVersion d))
  = documentText (stateOf (applyTextEdits changes2 newVersion d)).
Proof.
  intros H.
  rewrite (applyTextEdits_run changes1 newVersion d).
  rewrite (applyTextEdits_run changes2 newVersion d).
  cbn. apply fold_editText_sameEffect. now apply sort_sameEffect.
Qed.

Lemma sorted_perm_unique {A} (R : A -> A -> Prop) : forall l1 l2,
  StronglySorted R l1 -> StronglySorted R l2 -> Permutation l1 l2 ->
  (forall a b, In a l1 -> In b l1 -> R a b -> R b a -> a = b) ->
  l1 = l2.
Proof.
  induction l1 as [|a l1 IH]; intros l2 S1 S2 P Anti.
  - apply Permutation_nil in P. now subst.
  - destruct l2 as [|b l2];
      [apply Permutation_sym, Permutation_nil in P; discriminate |].
    apply StronglySorted_inv in S1 as [S1 F1].
    apply StronglySorted_inv in S2 as [S2 F2].
    rewrite Forall_forall in F1, F2.
    assert (E : a = b).
    { assert (Ia : In a (b :: l2))
        by (eapply Permutation_in; [exact P | now left]).
      assert (Ib : In b (a :: l1))
        by (eapply Permutation_in;
            [apply Permutation_sym; exact P | now left]).
      destruct Ia as [-> | Ia]; [reflexivity |].
      destruct Ib as [-> | Ib]; [reflexivity |].
      apply Anti; [now left | now right | now apply F1 | now apply F2]. }
    subst b. f_equal. apply Permutation_cons_inv in P.
    apply IH; auto. intros x y Ix Iy. apply Anti; now right.
Qed.

Lemma NoDup_map_same {A B} (f : A -> B) l a b :
  NoDup (map f l) -> In a l -> In b l -> f a = f b -> a = b.
Proof.
  induction l as [|c l IH]; intros N Ia Ib E; [destruct Ia |].
  cbn [map] in N. apply NoDup_cons_iff in N as [Nc N].
  destruct Ia as [-> | Ia], Ib as [-> | Ib]; auto.
  - exfalso. apply Nc. rewrite E. now apply in_map.
  - exfalso. apply Nc. rewrite <- E. now apply in_map.
Qed.

(** X7: the order in which the changes of a batch are given does not
    matter when no two of them start at the same position: two batches
    with the same changes are sorted into the same list and give the same
    document text, with every engine whose sort has the laws of
    [ArraySortLaws]. *)
Theorem X7_batch_order_does_not_matter changes1 changes2 newVersion
    (d : CoqDocument Stm) (laws : ArraySortLaws engine) :
  Permutation changes1 changes2 ->
  NoDup (map (fun c => start (crange c)) changes1) ->
  sort laterFirst changes1 = sort laterFirst changes2
  /\ documentText (stateOf (applyTextEdits changes1 newVersion d))
     = documentText (stateOf (applyTextEdits changes2 newVersion d)).
Proof.
  intros P N.
  assert (E : sort laterFirst changes1 = sort laterFirst changes2).
  { apply (sorted_perm_unique (fun c1 c2 => startsNotAfter c2 c1));
      try apply sort_laterFirst_sorted.
    - rewrite <- (sort_permutes _ laterFirst changes1).
      rewrite <- (sort_permutes _ laterFirst changes2). exact P.
    - intros a b Ia Ib Rab Rba.
      apply (Permutation_in _
               (Permutation_sym (sort_permutes _ laterFirst changes1)))
        in Ia, Ib.
      unfold startsNotAfter in *.
      apply positionIsAfter_false in Rab, Rba.
      assert (S : start (crange a) = start (crange b)).
      { destruct (start (crange a)), (start (crange b)); cbn in *.
        f_equal; lia. }
      exact (NoDup_map_same (fun c => start (crange c)) changes1 a b
               N Ia Ib S). }
  split; [exact E |].
  rewrite (applyTextEdits_run changes1 newVersion d).
  rewrite (applyTextEdits_run changes2 newVersion d).
  cbn. now rewrite E.
Qed.

(** X8: when the controller holds no machine, [applyTextEdits] still
    applies the batch, in the order in which the engine has sorted it, and
    sets the version: the failed call is written to the client console and
    nothing else is done. *)
Theorem X8_applyTextEdits_without_machine changes newVersion
    (d : CoqDocument Stm) :
  stm d = None ->
  exists err,
    applyTextEdits changes newVersion d
    = (Return tt,
       setVersion
         (setDocumentText d
            (fold_left spliceText (sort laterFirst changes) (documentText d)))
         newVersion,
       [consoleError ("STM crashed while applying text edit: " ++ err)]).
Proof.
  intros E. rewrite (applyTextEdits_run changes newVersion d).
  assert (C : call (callApplyChanges (sort laterFirst changes) newVersion)
                   (applyChanges (sort laterFirst changes) newVersion) d
              = (Throw "TypeError: this.stm is null", d, [])).
  { unfold call, bind, get. cbn. now rewrite E. }
  rewrite C. cbn [stateOf actionsOf outcomeOf fst snd app].
  rewrite fold_editText_splice. eexists. reflexivity.
Qed.

End MoreTextEdits.

(** ** More on the operations *)

Section MoreOperations.
Context {Stm : Type} {machine : CoqStateMachine Stm} {parser : CoqParser}.

Lemma steady_stepForward token : steady (Stm:=Stm) (stepForward token).
Proof.
  destruct (stepForward_shape token) as (b & Hb & _ & ->).
  apply steady_bind; [apply steady_assertStm | intro].
  apply steady_tryFinally; [exact Hb | apply steady_updateDiagnostics].
Qed.

Lemma steady_stepBackward token : steady (Stm:=Stm) (stepBackward token).
Proof.
  destruct (stepBackward_shape token) as (b & Hb & _ & ->).
  apply steady_bind; [apply steady_assertStm | intro].
  apply steady_tryFinally; [exact Hb | apply steady_updateDiagnostics].
Qed.

Lemma steady_interpretToEnd token : steady (Stm:=Stm) (interpretToEnd token).
Proof.
  unfold interpretToEnd.
  apply steady_bind; [apply steady_assertStm | intro].
  apply steady_tryFinally;
    [apply steady_interpretToEndBody | apply steady_updateDiagnostics].
Qed.

Lemma steady_getGoal : steady (Stm:=Stm) getGoal.
Proof.
  unfold getGoal. apply steady_bind; [apply steady_get | intro d].
  apply steady_if; [apply steady_ret |].
  apply steady_tryFinally; [| apply steady_updateDiagnostics].
  apply steady_bind; [apply steady_call | intro; apply steady_toGoal].
Qed.

Lemma quitCoq_run (d : CoqDocument Stm) :
  quitCoq d
  = if stmIsRunning d then
      match call callShutdown shutdown d with
      | (Return _, d1, t) =>
          (Return tt, setStm d1 None (S (stmIdentity d1)), t)
      | (Throw e, d1, t) => (Throw e, d1, t)
      end
    else (Return tt, d, []).
Proof.
  unfold quitCoq. rewrite (bind_run get _ d d d [] eq_refl).
  destruct (stmIsRunning d); cbn [negb]; [| reflexivity].
  destruct (call callShutdown shutdown d) as [[[[]|e] d1] t] eqn:E.
  - rewrite (bind_run _ _ d tt d1 t E).
    rewrite (bind_run get _ d1 d1 d1 [] eq_refl). cbn.
    now rewrite app_nil_r.
  - unfold bind. rewrite E. reflexivity.
Qed.

(** X9: the stepping operations, [getGoal], [close] and the callbacks of
    the machine never change the text, the version, the uri or the settings
    of the document, and never leave the controller without a machine when
    it had one; [quitCoq] changes nothing of the text, the version, the uri
    and the settings either. *)
Theorem X9_operations_keep_the_document token offset cb
    (d : CoqDocument Stm) :
  sameDocument d (stateOf (stepForward token d))
  /\ sameDocument d (stateOf (stepBackward token d))
  /\ sameDocument d (stateOf (interpretToPoint offset token d))
  /\ sameDocument d (stateOf (interpretToEnd token d))
  /\ sameDocument d (stateOf (getGoal d))
  /\ sameDocument d (stateOf (close d))
  /\ sameDocument d (stateOf (callbacks cb d))
  /\ (uri (stateOf (quitCoq d)) = uri d
      /\ version (stateOf (quitCoq d)) = version d
      /\ documentText (stateOf (quitCoq d)) = documentText d
      /\ coqtopSettings (stateOf (quitCoq d)) = coqtopSettings d).
Proof.
  split; [apply steady_stepForward |].
  split; [apply steady_stepBackward |].
  split; [apply steady_interpretToPoint |].
  split; [apply steady_interpretToEnd |].
  split; [apply steady_getGoal |].
  split; [apply steady_call |].
  split; [apply steady_callbacks |].
  rewrite quitCoq_run. destruct (stmIsRunning d); [| cbn; auto].
  assert (H := steady_call callShutdown shutdown d). unfold stateOf in *.
  destruct (call callShutdown shutdown d) as [[[[]|e] d1] t1]; cbn in *;
    destruct H as (U & V & T & C & _); auto.
Qed.

(** The rest of an operation once the machine has resolved its call. *)
Lemma orGoal_run (m : M Stm (option CommandResult)) (d : CoqDocument Stm) :
  let rest :=
    error <- m;;
    match error with
    | Some e => ret e
    | None =>
        logDebuggingSentences;; goal <- call callGetGoal stmGetGoal;;
        toGoal goal
    end in
  match m d with
  | (Throw e, d1, t) => rest d = (Throw e, d1, t)
  | (Return (Some r), d1, t) => rest d = (Return r, d1, t)
  | (Return None, d1, t) =>
      stm d1 <> None -> startsWith (t ++ [onStm callGetGoal]) (rest d)
  end.
Proof.
  cbv zeta. destruct (m d) as [[[[r|]|e] d1] t] eqn:E.
  - rewrite (bind_run _ _ d (Some r) d1 t E). cbn. now rewrite app_nil_r.
  - intros Hs. destruct (stm d1) as [s1|] eqn:E1; [| congruence].
    apply (startsWith_after [onStm callGetGoal] m _ d None d1 t E).
    apply (startsWith_after [onStm callGetGoal] logDebuggingSentences _ d1
             tt d1 []).
    { unfold logDebuggingSentences, withStm, bind, get. cbn. rewrite E1.
      reflexivity. }
    apply startsWith_bind. now apply startsWith_call with s1.
  - unfold bind. rewrite E. reflexivity.
Qed.

(** X10: what [stepForward] does with the answer of the machine.  A
    rejection of the machine rejects [stepForward] with the same error, and
    a failure that the machine resolves to is returned as it is, without a
    goal being asked for; in both cases the diagnostics are sent last.
    When the machine resolves to nothing, the goal is asked for next. *)
Theorem X10_stepForward_passes_failures_on token (d : CoqDocument Stm) :
  stmIsRunning d = true ->
  match call callStepForward (stmStepForward (commandSequence true)) d with
  | (Throw e, d1, t) =>
      exists s1,
        stm d1 = Some s1
        /\ stepForward token d
           = (Throw e, d1,
              t ++ [sendDiagnostics (diagnosticsOf (getErrors s1))])
  | (Return (Some failure), d1, t) =>
      exists s1,
        stm d1 = Some s1
        /\ stepForward token d
           = (Return failure, d1,
              t ++ [sendDiagnostics (diagnosticsOf (getErrors s1))])
  | (Return None, d1, t) =>
      startsWith (t ++ [onStm callGetGoal]) (stepForward token d)
  end.
Proof.
  intros R. unfold stepForward. rewrite (bind_asserted _ d R).
  assert (Hd := stmIsRunning_holds d R).
  assert (Hc := steady_call callStepForward
                  (stmStepForward (commandSequence true)) d).
  assert (Hr := orGoal_run
                  (call callStepForward
                        (stmStepForward (commandSequence true))) d).
  cbv zeta in Hr. unfold stateOf in Hc.
  destruct (call callStepForward (stmStepForward (commandSequence true)) d)
    as [[[[r|]|e] d1] t]; cbn in Hc;
    destruct Hc as (_ & _ & _ & _ & Hs); specialize (Hs Hd).
  - destruct (stm d1) as [s1|] eqn:E1; [| congruence]. exists s1.
    split; [reflexivity |].
    unfold tryFinally. rewrite Hr.
    unfold updateDiagnostics, withStm, bind, get, emit, ret. cbn.
    rewrite E1. reflexivity.
  - apply startsWith_tryFinally. now apply Hr.
  - destruct (stm d1) as [s1|] eqn:E1; [| congruence]. exists s1.
    split; [reflexivity |].
    unfold tryFinally. rewrite Hr.
    unfold updateDiagnostics, withStm, bind, get, emit, ret. cbn.
    rewrite E1. reflexivity.
Qed.

(** X11: what [interpretToPoint] does when the machine is running: it
    first sends one Parsing-style highlight from the focus of the machine to
    the position of the target offset, then calls the machine; a rejection
    of the machine rejects it with the same error and a failure the machine
    resolves to is returned as it is, the diagnostics being sent last. *)
Theorem X11_interpretToPoint_highlights_then_passes_failures_on offset token
    (d : CoqDocument Stm) (s : Stm) :
  stm d = Some s -> isRunning s = true ->
  let pos := textUtil.positionAt (documentText d) offset in
  let highlight :=
    sendHighlightUpdates
      [{| thmProto.style := thmProto.Parsing;
          thmProto.range := RangeNS.create (getFocusedPosition s) pos |}] in
  match call (callInterpretToPoint pos token)
             (stmInterpretToPoint pos (commandSequence false) token) d with
  | (Throw e, d1, t) =>
      exists s1,
        stm d1 = Some s1
        /\ interpretToPoint offset token d
           = (Throw e, d1,
              highlight :: t
              ++ [sendDiagnostics (diagnosticsOf (getErrors s1))])
  | (Return (Some failure), d1, t) =>
      exists s1,
        stm d1 = Some s1
        /\ interpretToPoint offset token d
           = (Return failure, d1,
              highlight :: t
              ++ [sendDiagnostics (diagnosticsOf (getErrors s1))])
  | (Return None, d1, t) =>
      startsWith (highlight :: t ++ [onStm callGetGoal])
                 (interpretToPoint offset token d)
  end.
Proof.
  intros E R pos highlight.
  assert (Rd : stmIsRunning d = true) by (unfold stmIsRunning; now rewrite E).
  unfold interpretToPoint. rewrite (bind_asserted _ d Rd).
  assert (Hd := stmIsRunning_holds d Rd).
  set (m := call (callInterpretToPoint pos token)
                 (stmInterpretToPoint pos (commandSequence false) token)).
  assert (Hc := steady_call (callInterpretToPoint pos token)
                  (stmInterpretToPoint pos (commandSequence false) token) d).
  assert (Hr := orGoal_run m d). cbv zeta in Hr. fold m in Hc.
  set (rest := error <- m;;
               match error with
               | Some e => ret e
               | None =>
                   logDebuggingSentences;;
                   goal <- call callGetGoal stmGetGoal;; toGoal goal
               end) in *.
  assert (B : forall x,
             (pos0 <- positionAt offset;;
              focus <- withStm getFocusedPosition;;
              emit (sendHighlightUpdates
                      [{| thmProto.style := thmProto.Parsing;
                          thmProto.range := RangeNS.create focus pos0 |}]);;
              error <- call (callInterpretToPoint pos0 token)
                            (stmInterpretToPoint pos0 (commandSequence false)
                                                 token);;
              match error with
              | Some e => ret e
              | None =>
                  logDebuggingSentences;;
                  goal <- call callGetGoal stmGetGoal;; toGoal goal
              end) d = x
             -> (outcomeOf (rest d), stateOf (rest d),
                 highlight :: actionsOf (rest d)) = x).
  { intros x <-.
    rewrite (bind_run (positionAt offset) _ d pos d [] eq_refl).
    assert (W : withStm getFocusedPosition d
                = (Return (getFocusedPosition s), d, [])).
    { unfold withStm, bind, get. cbn. now rewrite E. }
    rewrite (bind_run _ _ d _ d [] W).
    rewrite (bind_run (emit _) _ d tt d [_] eq_refl).
    reflexivity. }
  unfold stateOf in Hc.
  destruct (m d) as [[[[r|]|e] d1] t]; cbn in Hc;
    destruct Hc as (_ & _ & _ & _ & Hs); specialize (Hs Hd).
  - destruct (stm d1) as [s1|] eqn:E1; [| congruence]. exists s1.
    split; [reflexivity |].
    unfold tryFinally. rewrite <- (B _ eq_refl), Hr. cbn.
    unfold updateDiagnostics, withStm, bind, get, emit, ret. cbn.
    rewrite E1. reflexivity.
  - apply startsWith_tryFinally. rewrite <- (B _ eq_refl).
    destruct (Hr Hs) as [t' Et]. exists t'. unfold actionsOf in *. cbn.
    now rewrite Et.
  - destruct (stm d1) as [s1|] eqn:E1; [| congruence]. exists s1.
    split; [reflexivity |].
    unfold tryFinally. rewrite <- (B _ eq_refl), Hr. cbn.
    unfold updateDiagnostics, withStm, bind, get, emit, ret. cbn.
    rewrite E1. reflexivity.
Qed.

End MoreOperations.

Section Quitting.
Context {Stm : Type} {machine : CoqStateMachine Stm} {parser : CoqParser}.

Lemma getGoal_not_running (d : CoqDocument Stm) :
  stmIsRunning d = false -> getGoal d = (Return RNotRunning, d, []).
Proof. intros R. unfold getGoal, bind, get, ret. now rewrite R. Qed.

(** X12: [quitCoq] does nothing when the machine is missing or not
    running: a machine that is there and stopped is kept.  When the machine
    runs, it is shut down first; if the shutdown resolves, the controller is
    left without a machine, and if it is rejected the machine stays.  After
    a [quitCoq] that returned, a second [quitCoq] does nothing and
    [getGoal] answers not-running without sending anything. *)
Theorem X12_quitCoq_drops_a_running_machine_only (d : CoqDocument Stm) :
  (if stmIsRunning d then
     startsWith [onStm callShutdown] (quitCoq d)
     /\ match outcomeOf (quitCoq d) with
        | Return _ => stm (stateOf (quitCoq d)) = None
        | Throw _ => stm (stateOf (quitCoq d)) <> None
        end
   else quitCoq d = (Return tt, d, []))
  /\ match outcomeOf (quitCoq d) with
     | Return _ =>
         quitCoq (stateOf (quitCoq d))
         = (Return tt, stateOf (quitCoq d), [])
         /\ getGoal (stateOf (quitCoq d))
            = (Return RNotRunning, stateOf (quitCoq d), [])
     | Throw _ => True
     end.
Proof.
  assert (Q := quitCoq_run d). destruct (stmIsRunning d) eqn:R.
  - assert (Hd := stmIsRunning_holds d R).
    destruct (stm d) as [s|] eqn:E; [| congruence].
    assert (Hs := startsWith_call callShutdown shutdown d s E).
    assert (Hc := steady_call callShutdown shutdown d).
    unfold stateOf, startsWith, actionsOf in Hs, Hc.
    destruct (call callShutdown shutdown d) as [[[[]|e] d1] t];
      rewrite Q; cbn [outcomeOf stateOf actionsOf fst snd] in *.
    + split; [split; [exact Hs | reflexivity] |].
      assert (N : stmIsRunning (setStm d1 None (S (stmIdentity d1))) = false)
        by reflexivity.
      split; [now rewrite quitCoq_run, N | now apply getGoal_not_running].
    + split; [| exact I]. split; [exact Hs |].
      destruct Hc as (_ & _ & _ & _ & Hk). apply Hk. congruence.
  - rewrite Q. cbn [outcomeOf stateOf fst snd].
    split; [reflexivity |].
    split; [now rewrite quitCoq_run, R | now apply getGoal_not_running].
Qed.

(** X13: [highlightTypeToSentenceStatus] undoes
    [sentenceStatusToHighlightType]: when it returns a status, the highlight
    of that status is the style it was given; it throws for the two styles
    that stand for no status, Clear and TacticFailure, and for no other. *)
Theorem X13_highlightTypeToSentenceStatus_is_the_partial_inverse type :
  match highlightTypeToSentenceStatus type with
  | Return status =>
      sentenceStatusToHighlightType status = type
      /\ type <> thmProto.Clear /\ type <> thmProto.TacticFailure
  | Throw _ => type = thmProto.Clear \/ type = thmProto.TacticFailure
  end.
Proof.
  destruct type; cbn; try (repeat split; discriminate);
    [now left | now right].
Qed.

(** X14: what is not guarded against a missing machine.  On a controller
    without a machine, [updateDiagnostics], [toGoal] of every result but
    not-running, and [close] throw a [TypeError] and send nothing, while
    [toGoal] of not-running, [getGoal] and [quitCoq] return without touching
    anything. *)
Theorem X14_missing_machine (d : CoqDocument Stm) :
  stm d = None ->
  (exists e,
      updateDiagnostics d = (Throw e, d, [])
      /\ close d = (Throw e, d, [])
      /\ forall goal,
           toGoal goal d
           = match goal with
             | GNotRunning => (Return RNotRunning, d, [])
             | _ => (Throw e, d, [])
             end)
  /\ getGoal d = (Return RNotRunning, d, [])
  /\ quitCoq d = (Return tt, d, []).
Proof.
  intros E.
  assert (R : stmIsRunning d = false) by (unfold stmIsRunning; now rewrite E).
  split; [| split].
  - eexists. split; [| split].
    + unfold updateDiagnostics, withStm, bind, get, throw. cbn. now rewrite E.
    + unfold close, call, bind, get, throw. cbn. now rewrite E.
    + intros []; cbn [toGoal]; unfold withStm, bind, get, throw, ret; cbn;
        rewrite ?E; reflexivity.
  - now apply getGoal_not_running.
  - now rewrite quitCoq_run, R.
Qed.

End Quitting.

(** X15: [createHighlights] returns no highlight, whatever the sentences of
    the machine are: the highlight of each sentence is computed but not added
    to the list.  [createDiagnostics] returns one diagnostic per error, in
    order, with the range and the message of the error, severity [Error]
    and source [coq].  Neither sends anything or changes the controller, and
    both throw when the controller holds no machine. *)
Theorem X15_createHighlights_is_always_empty :
  forall Stm (views : SentenceViews Stm) (d : CoqDocument Stm),
    match stm d with
    | Some s =>
        createHighlights d = (Return [], d, [])
        /\ createDiagnostics d
           = (Return
                (map (fun e => {| drange := erange e; dmessage := emessage e;
                                  severity := SevError; source := "coq" |})
                     (getSentenceErrors s)),
              d, [])
    | None =>
        exists e,
          createHighlights d = (Throw e, d, [])
          /\ createDiagnostics d = (Throw e, d, [])
    end.
Proof.
  intros Stm views d.
  unfold createHighlights, createDiagnostics, withStm.
  destruct (stm d) as [s|] eqn:E.
  - split.
    + assert (F : forall l,
                 forOf l
                   (fun sent : Sentence =>
                      let dropped :=
                        highlightSentence (sentRange sent)
                          (sentenceStatusToHighlightType (sentStatus sent)) in
                      @ret Stm unit tt) d
                 = (Return tt, d, [])).
      { induction l as [|x l IH]; cbn [forOf]; [reflexivity|].
        unfold bind, ret in *. cbn. rewrite IH. reflexivity. }
      unfold bind, get. cbn. rewrite E. cbn. rewrite F. reflexivity.
    + unfold bind, get, ret. cbn. rewrite E. cbn.
      assert (G : forall errors acc,
                 fold_left
                   (fun diagnostics error =>
                      diagnostics
                      ++ [{| drange := erange error;
                             dmessage := emessage error;
                             severity := SevError; source := "coq" |}])
                   errors acc
                 = acc ++ map (fun e => {| drange := erange e;
                                           dmessage := emessage e;
                                           severity := SevError;
                                           source := "coq" |}) errors).
      { induction errors as [|e l IH]; intros acc; cbn [fold_left map].
        - now rewrite app_nil_r.
        - rewrite IH, <- app_assoc. reflexivity. }
      now rewrite G.
  - eexists. split; unfold bind, get, throw; cbn; rewrite E; reflexivity.
Qed.

(** ** The editor side *)

Section EditorSide.
Import Editor.

Lemma editor_bind_run {A B} (m : C A) (f : A -> C B) st a st1 t1 :
  m st = (Return a, st1, t1) ->
  bind m f st
  = (fst (fst (f a st1)), snd (fst (f a st1)), t1 ++ snd (f a st1)).
Proof.
  intros E. unfold bind. rewrite E. destruct (f a st1) as [[o s2] t2].
  reflexivity.
Qed.

Lemma editor_bind_throw {A B} (m : C A) (f : A -> C B) st e st1 t1 :
  m st = (Throw e, st1, t1) -> bind m f st = (Throw e, st1, t1).
Proof. intros E. unfold bind. now rewrite E. Qed.

Lemma forOf_quiet {A} (body : A -> C unit) (f : State -> A -> list Ui) :
  (forall x st, body x st = (Return tt, st, f st x)) ->
  forall l st, forOf l body st = (Return tt, st, flat_map (f st) l).
Proof.
  intros H l. induction l as [|x r IH]; intros st; cbn [forOf flat_map].
  - reflexivity.
  - rewrite (editor_bind_run _ _ st tt st (f st x) (H x st)), IH. reflexivity.
Qed.

Lemma channelText_app c t1 : forall shown t2,
  channelText c shown (t1 ++ t2) = channelText c (channelText c shown t1) t2.
Proof.
  induction t1 as [|a r IH]; intros shown t2; cbn [app channelText].
  - reflexivity.
  - apply IH.
Qed.

Lemma errorsShown_app t1 t2 :
  errorsShown (t1 ++ t2) = errorsShown t1 ++ errorsShown t2.
Proof.
  induction t1 as [|a r IH]; cbn [app errorsShown]; [reflexivity|].
  destruct a; cbn [app]; now rewrite ?IH.
Qed.


Lemma string_app_assoc (a b c : string) :
  ((a ++ b) ++ c = a ++ (b ++ c))%string.
Proof.
  induction a as [|x a IH]; cbn [String.append]; [reflexivity|].
  now rewrite IH.
Qed.

Lemma string_app_nil_r (a : string) : (a ++ EmptyString = a)%string.
Proof.
  induction a as [|x a IH]; cbn [String.append]; [reflexivity|].
  now rewrite IH.
Qed.

Lemma onCoqMessage_run level text st :
  exists t,
    onCoqMessage level text st = (Return tt, st, t)
    /\ (forall shown,
           channelText infoOut shown t
           = (shown ++ infoLines (level, text))%string)
    /\ (forall shown,
           channelText noticeOut shown t
           = if String.eqb level "notice" then text else shown)
    /\ (forall shown, channelText queryOut shown t = shown)
    /\ errorsShown t = if String.eqb level "error" then [text] else [].
Proof.
  unfold onCoqMessage, infoLines. cbn [fst snd].
  destruct (String.eqb level "warning") eqn:W.
  { apply String.eqb_eq in W. subst level. eexists. split; [reflexivity|].
    cbn. repeat split; try reflexivity.
    intros shown. now rewrite !string_app_assoc. }
  destruct (String.eqb level "info") eqn:I.
  { apply String.eqb_eq in I. subst level. eexists. split; [reflexivity|].
    cbn. repeat split; reflexivity. }
  destruct (String.eqb level "notice") eqn:N.
  { apply String.eqb_eq in N. subst level. eexists. split; [reflexivity|].
    cbn. repeat split; try reflexivity.
    intros shown. now rewrite string_app_nil_r. }
  destruct (String.eqb level "error") eqn:R.
  { eexists. split; [reflexivity|].
    cbn. repeat split; try reflexivity.
    intros shown. now rewrite string_app_nil_r. }
  eexists. split; [reflexivity|]. cbn. repeat split; try reflexivity.
  intros shown. now rewrite string_app_nil_r.
Qed.

(** X16.  Messages of the server, whatever document they are about: every
    info adds its text as one line to the channel of the infos and every
    warning adds its text twice; the channel of the notices shows the text
    of the last notice only; the errors are shown in order; messages of any
    other level do nothing; the channel of the queries is not touched and
    nothing fails. *)
Theorem X16_messages_in_the_channels :
  forall (ms : list (string * string)) (shown : string) (st : State),
    let r := onCoqMessages ms st in
    outcomeOf r = Return tt
    /\ stateOf r = st
    /\ channelText infoOut shown (actionsOf r)
       = fold_left (fun text m => (text ++ infoLines m)%string) ms shown
    /\ channelText noticeOut shown (actionsOf r) = lastNotice ms shown
    /\ channelText queryOut shown (actionsOf r) = shown
    /\ errorsShown (actionsOf r)
       = map snd (filter (fun m => String.eqb (fst m) "error") ms).
Proof.
  intros ms. unfold onCoqMessages.
  induction ms as [|[level text] r IH]; intros shown st.
  - cbn. repeat split; reflexivity.
  - destruct (onCoqMessage_run level text st) as (t & E & I & N & Q & R).
    cbn [forOf fst snd].
    rewrite (editor_bind_run _ _ st tt st t E).
    specialize (IH (channelText infoOut shown t) st) as IHI.
    specialize (IH (channelText noticeOut shown t) st) as IHN.
    specialize (IH (channelText queryOut shown t) st) as IHQ.
    cbv zeta in *.
    unfold outcomeOf, stateOf, actionsOf in *. cbn [fst snd] in *.
    destruct IHI as (O & S & HI & _).
    destruct IHN as (_ & _ & _ & HN & _).
    destruct IHQ as (_ & _ & _ & _ & HQ & HE).
    repeat split.
    + exact O.
    + exact S.
    + rewrite channelText_app, HI, I. reflexivity.
    + rewrite channelText_app, HN, N. reflexivity.
    + rewrite channelText_app, HQ, Q. reflexivity.
    + rewrite errorsShown_app, HE, R. cbn [filter fst].
      destruct (String.eqb level "error"); reflexivity.
Qed.


Lemma setDelete_absent x s : setHas x s = false -> setDelete x s = s.
Proof.
  unfold setHas, setDelete. induction s as [|y r IH]; cbn [existsb filter].
  - reflexivity.
  - intros H. apply Bool.orb_false_iff in H. destruct H as [H1 H2].
    rewrite H1. cbn [negb]. now rewrite IH.
Qed.

Lemma userSelects_run change st :
  userSelects change st
  = (Return tt,
     {| documentUri := documentUri st;
        visibleTextEditors :=
          map (fun e => if Nat.eqb (editorId e) (fst change)
                        then withSelections (snd change) e else e)
              (visibleTextEditors st);
        cursorUnmovedSinceCommandInitiated :=
          setDelete (fst change) (cursorUnmovedSinceCommandInitiated st) |},
     []).
Proof.
  unfold userSelects, onDidChangeTextEditorSelection, bind, get, put, ret,
    setSelections, setUnmoved.
  cbn [documentUri visibleTextEditors cursorUnmovedSinceCommandInitiated app].
  destruct (setHas (fst change) (cursorUnmovedSinceCommandInitiated st)) eqn:H.
  - reflexivity.
  - now rewrite (setDelete_absent _ _ H).
Qed.

Lemma filter_setDelete during x s :
  filter (fun id => negb (movedBy during id)) (setDelete x s)
  = filter (fun id => negb (Nat.eqb x id || movedBy during id)) s.
Proof.
  unfold setDelete. induction s as [|y r IH]; cbn [filter]; [reflexivity|].
  destruct (Nat.eqb x y); cbn [negb orb filter]; rewrite IH; reflexivity.
Qed.

Lemma selecting_run during : forall st,
  forOf during userSelects st
  = (Return tt,
     {| documentUri := documentUri st;
        visibleTextEditors :=
          map (selectedBy during) (visibleTextEditors st);
        cursorUnmovedSinceCommandInitiated :=
          filter (fun id => negb (movedBy during id))
                 (cursorUnmovedSinceCommandInitiated st) |},
     []).
Proof.
  induction during as [|[id sels] r IH]; intros st; cbn [forOf].
  - destruct st as [u eds s]. unfold ret.
    cbn [documentUri visibleTextEditors cursorUnmovedSinceCommandInitiated
         selectedBy movedBy existsb negb].
    rewrite map_id.
    replace (filter (fun _ : nat => true) s) with s; [reflexivity|].
    induction s as [|y l IHs]; cbn [filter]; [reflexivity | now rewrite <- IHs].
  - rewrite (editor_bind_run _ _ st tt _ [] (userSelects_run (id, sels) st)).
    rewrite IH.
    cbn [fst snd app documentUri visibleTextEditors
         cursorUnmovedSinceCommandInitiated].
    rewrite map_map, filter_setDelete. cbn [selectedBy].
    reflexivity.
Qed.

Lemma awaitServer_run {A} r during (reply : Outcome A) st :
  awaitServer r during reply st
  = (reply,
     {| documentUri := documentUri st;
        visibleTextEditors :=
          map (selectedBy during) (visibleTextEditors st);
        cursorUnmovedSinceCommandInitiated :=
          filter (fun id => negb (movedBy during id))
                 (cursorUnmovedSinceCommandInitiated st) |},
     [request r]).
Proof.
  unfold awaitServer.
  rewrite (editor_bind_run _ _ st tt st [request r] eq_refl).
  rewrite (editor_bind_run _ _ st tt _ [] (selecting_run during st)).
  destruct reply; reflexivity.
Qed.

Lemma awaitServer_alone {A} r (reply : Outcome A) st :
  awaitServer r [] reply st = (reply, st, [request r]).
Proof.
  rewrite awaitServer_run. destruct st as [u eds s].
  cbn [documentUri visibleTextEditors cursorUnmovedSinceCommandInitiated
       selectedBy movedBy existsb negb].
  rewrite map_id.
  replace (filter (fun _ : nat => true) s) with s; [reflexivity|].
  induction s as [|y l IHs]; cbn [filter]; [reflexivity | now rewrite <- IHs].
Qed.

Lemma adding_run (l : list TextEditor) : forall st,
  forOf l
    (fun editor =>
       bind get
         (fun st' =>
            put (setUnmoved st'
                   (setAdd (editorId editor)
                           (cursorUnmovedSinceCommandInitiated st'))))) st
  = (Return tt,
     setUnmoved st
       (fold_left (fun s e => setAdd (editorId e) s) l
                  (cursorUnmovedSinceCommandInitiated st)),
     []).
Proof.
  induction l as [|e r IH]; intros st; cbn [forOf fold_left].
  - destruct st; reflexivity.
  - erewrite editor_bind_run by reflexivity. rewrite IH. reflexivity.
Qed.

Lemma rememberCursors_run st :
  rememberCursors st
  = (Return tt,
     setUnmoved st
       (fold_left (fun s e => setAdd (editorId e) s) (allEditors st) []),
     []).
Proof.
  unfold rememberCursors.
  erewrite editor_bind_run by reflexivity.
  erewrite editor_bind_run by reflexivity.
  rewrite adding_run. reflexivity.
Qed.

Lemma setAdd_fresh x s : ~ In x s -> setAdd x s = s ++ [x].
Proof.
  intros H. unfold setAdd, setHas.
  destruct (existsb (Nat.eqb x) s) eqn:E; [|reflexivity].
  apply existsb_exists in E. destruct E as (y & Hy & Exy).
  apply Nat.eqb_eq in Exy. subst y. contradiction.
Qed.

Lemma adding_distinct (l : list TextEditor) : forall acc,
  NoDup (acc ++ map editorId l) ->
  fold_left (fun s e => setAdd (editorId e) s) l acc = acc ++ map editorId l.
Proof.
  induction l as [|e r IH]; intros acc H; cbn [fold_left map].
  - now rewrite app_nil_r.
  - cbn [map] in H.
    assert (F : ~ In (editorId e) acc).
    { apply NoDup_remove_2 in H. intros I. apply H. apply in_or_app. now left. }
    rewrite (setAdd_fresh _ _ F), IH.
    + now rewrite <- app_assoc.
    + now rewrite <- app_assoc.
Qed.

Lemma allEditors_distinct st :
  NoDup (map editorId (visibleTextEditors st)) ->
  NoDup (map editorId (allEditors st)).
Proof.
  unfold allEditors.
  generalize (fun editor => String.eqb (editorUri editor) (documentUri st)).
  intros shown.
  induction (visibleTextEditors st) as [|e eds IH]; intros D.
  - constructor.
  - cbn [map filter] in *. inversion D as [|? ? Fresh D']; subst.
    destruct (shown e); cbn [map]; [|now apply IH].
    constructor; [|now apply IH].
    intros I. apply Fresh. apply in_map_iff in I. destruct I as (y & E & I).
    apply filter_In in I. apply in_map_iff. exists y. tauto.
Qed.

Lemma moving_run sels ids : forall st,
  forOf ids
    (fun editor => bind get (fun st' => put (setSelections editor sels st')))
    st
  = (Return tt,
     {| documentUri := documentUri st;
        visibleTextEditors :=
          map (fun e => if existsb (Nat.eqb (editorId e)) ids
                        then withSelections sels e else e)
              (visibleTextEditors st);
        cursorUnmovedSinceCommandInitiated :=
          cursorUnmovedSinceCommandInitiated st |},
     []).
Proof.
  induction ids as [|x r IH]; intros st; cbn [forOf existsb].
  - destruct st as [u eds s]. unfold ret.
    cbn [documentUri visibleTextEditors cursorUnmovedSinceCommandInitiated].
    now rewrite map_id.
  - erewrite editor_bind_run by reflexivity. rewrite IH.
    cbn [fst snd app documentUri visibleTextEditors
         cursorUnmovedSinceCommandInitiated setSelections].
    rewrite map_map. do 3 f_equal. apply map_ext. intros e.
    destruct (Nat.eqb (editorId e) x); cbn [orb withSelections editorId].
    + destruct (existsb (Nat.eqb (editorId e)) r); reflexivity.
    + reflexivity.
Qed.

Lemma moveCursors_run value st :
  moveCursors value st
  = (Return tt,
     match Client.cursorAfter value with
     | None => st
     | Some focus =>
         {| documentUri := documentUri st;
            visibleTextEditors :=
              map (fun e =>
                     if existsb (Nat.eqb (editorId e))
                                (cursorUnmovedSinceCommandInitiated st)
                     then cursorAt focus e else e)
                  (visibleTextEditors st);
            cursorUnmovedSinceCommandInitiated :=
              cursorUnmovedSinceCommandInitiated st |}
     end,
     []).
Proof.
  unfold moveCursors. destruct (Client.cursorAfter value) as [focus|].
  - erewrite editor_bind_run by reflexivity. rewrite moving_run. reflexivity.
  - reflexivity.
Qed.

Lemma selectedBy_id during : forall e,
  editorId (selectedBy during e) = editorId e
  /\ editorUri (selectedBy during e) = editorUri e.
Proof.
  induction during as [|[id sels] r IH]; intros e; cbn [selectedBy].
  - split; reflexivity.
  - destruct (IH (if Nat.eqb (editorId e) id then withSelections sels e else e))
      as [I U].
    rewrite I, U. destruct (Nat.eqb (editorId e) id); split; reflexivity.
Qed.

Lemma selectedBy_unmoved during : forall e,
  movedBy during (editorId e) = false -> selectedBy during e = e.
Proof.
  induction during as [|[id sels] r IH]; intros e; cbn [selectedBy].
  - reflexivity.
  - unfold movedBy. cbn [existsb fst]. intros H.
    apply Bool.orb_false_iff in H. destruct H as [H1 H2].
    rewrite Nat.eqb_sym, H1. now apply IH.
Qed.

Lemma withSelections_twice sels sels' e :
  withSelections sels (withSelections sels' e) = withSelections sels e.
Proof. reflexivity. Qed.

Lemma remembered_iff st e during :
  NoDup (map editorId (visibleTextEditors st)) ->
  In e (visibleTextEditors st) ->
  existsb (Nat.eqb (editorId e))
    (filter (fun id => negb (movedBy during id))
            (map editorId (allEditors st)))
  = mine st e && negb (movedBy during (editorId e)).
Proof.
  intros D I.
  destruct (mine st e && negb (movedBy during (editorId e))) eqn:G.
  - apply andb_true_iff in G. destruct G as [G1 G2].
    apply existsb_exists. exists (editorId e). split; [|apply Nat.eqb_refl].
    apply filter_In. split; [|exact G2].
    apply in_map. unfold allEditors. apply filter_In. split; assumption.
  - destruct (existsb _ _) eqn:X; [|reflexivity].
    apply existsb_exists in X. destruct X as (y & Iy & Ey).
    apply Nat.eqb_eq in Ey. subst y.
    apply filter_In in Iy. destruct Iy as [Iy M].
    apply in_map_iff in Iy. destruct Iy as (e' & Eid & Ie').
    unfold allEditors in Ie'. apply filter_In in Ie'. destruct Ie' as [Ie' Mine].
    assert (e' = e).
    { clear - D I Ie' Eid. revert D I Ie'.
      induction (visibleTextEditors st) as [|x l IH]; cbn [map In];
        intros D I Ie'; [contradiction|].
      inversion D as [|? ? N D']; subst.
      destruct I as [I | I], Ie' as [J | J].
      - congruence.
      - subst x. exfalso. apply N. rewrite <- Eid. now apply in_map.
      - subst x. exfalso. apply N. rewrite Eid. now apply in_map.
      - now apply IH. }
    subst e'. unfold mine in G. rewrite Mine, M in G. discriminate.
Qed.

Lemma stepping_run name r during reply st :
  NoDup (map editorId (visibleTextEditors st)) ->
  bind (emit (setStateWorking name))
    (fun _ =>
       bind
         (tryCatch
            (bind rememberCursors
               (fun _ =>
                  bind (awaitServer r during reply)
                    (fun value =>
                       bind (emit (viewUpdate value))
                            (fun _ => moveCursors value))))
            (fun err => ret tt))
         (fun _ => emit setStateReady)) st
  = (Return tt,
     {| documentUri := documentUri st;
        visibleTextEditors :=
          map (fun e =>
                 match reply with
                 | Return value =>
                     match Client.cursorAfter value with
                     | Some focus =>
                         if mine st e && negb (movedBy during (editorId e))
                         then cursorAt focus e
                         else selectedBy during e
                     | None => selectedBy during e
                     end
                 | Throw _ => selectedBy during e
                 end)
              (visibleTextEditors st);
        cursorUnmovedSinceCommandInitiated :=
          filter (fun id => negb (movedBy during id))
                 (map editorId (allEditors st)) |},
     setStateWorking name :: request r
       :: match reply with
          | Return value => [viewUpdate value; setStateReady]
          | Throw _ => [setStateReady]
          end).
Proof.
  intros D.
  assert (R : rememberCursors st
              = (Return tt, setUnmoved st (map editorId (allEditors st)), [])).
  { rewrite rememberCursors_run.
    rewrite (adding_distinct (allEditors st) []); [reflexivity|].
    cbn [app]. now apply allEditors_distinct. }
  set (body := bind rememberCursors _).
  assert (B : body st
              = (match reply with
                 | Return _ => Return tt
                 | Throw e => Throw e
                 end,
                 {| documentUri := documentUri st;
                    visibleTextEditors :=
                      map (fun e =>
                             match reply with
                             | Return value =>
                                 match Client.cursorAfter value with
                                 | Some focus =>
                                     if mine st e
                                        && negb (movedBy during (editorId e))
                                     then cursorAt focus e
                                     else selectedBy during e
                                 | None => selectedBy during e
                                 end
                             | Throw _ => selectedBy during e
                             end)
                          (visibleTextEditors st);
                    cursorUnmovedSinceCommandInitiated :=
                      filter (fun id => negb (movedBy during id))
                             (map editorId (allEditors st)) |},
                 request r
                   :: match reply with
                      | Return value => [viewUpdate value]
                      | Throw _ => []
                      end)).
  { unfold body.
    rewrite (editor_bind_run _ _ st tt _ [] R). cbn [fst snd app].
    destruct reply as [value | e].
    - rewrite (editor_bind_run _ _ _ value _ _ (awaitServer_run r during _ _)).
      cbn [fst snd].
      erewrite editor_bind_run by reflexivity.
      rewrite moveCursors_run.
      cbn [fst snd app documentUri visibleTextEditors
           cursorUnmovedSinceCommandInitiated setUnmoved].
      f_equal. f_equal.
      destruct (Client.cursorAfter value) as [focus|]; [|reflexivity].
      cbn [documentUri visibleTextEditors cursorUnmovedSinceCommandInitiated].
      f_equal. rewrite map_map. apply map_ext_in. intros e I.
      destruct (selectedBy_id during e) as [Eid _]. rewrite Eid.
      rewrite (remembered_iff st e during D I).
      destruct (mine st e && negb (movedBy during (editorId e))) eqn:G;
        [|reflexivity].
      apply andb_true_iff in G. destruct G as [_ G].
      apply negb_true_iff in G.
      now rewrite (selectedBy_unmoved during e G).
    - rewrite (editor_bind_throw _ _ _ e _ _ (awaitServer_run r during _ _)).
      reflexivity. }
  assert (T : tryCatch body (fun err => ret tt) st
              = (Return tt, snd (fst (body st)), snd (body st))).
  { unfold tryCatch. rewrite B. destruct reply as [value | e]; cbn [fst snd].
    - reflexivity.
    - unfold ret. now rewrite app_nil_r. }
  rewrite (editor_bind_run _ _ st tt st [setStateWorking name] eq_refl).
  rewrite (editor_bind_run _ _ st tt _ _ T).
  rewrite B. destruct reply as [value | e]; reflexivity.
Qed.

(** X17.  [stepForward] and [stepBackward], in a window whose editors are
    distinct objects: when the server answers with a result that has a focus,
    the editors of this document whose selections the user did not change
    while the request was running get their only cursor at the focus;
    every other editor keeps what the user selected.  Nothing is moved
    when the machine is not running or the request fails.  The request is
    sent once, the view is updated only with an answer, and the methods
    do not fail. *)
Theorem X17_stepping_moves_the_cursors_left_alone :
  forall (during : list (nat * list Selection))
         (reply : Outcome CommandResult) (st : State),
    NoDup (map editorId (visibleTextEditors st)) ->
    let moved (e : TextEditor) :=
      match reply with
      | Return value =>
          match Client.cursorAfter value with
          | Some focus =>
              if mine st e && negb (movedBy during (editorId e))
              then cursorAt focus e
              else selectedBy during e
          | None => selectedBy during e
          end
      | Throw _ => selectedBy during e
      end in
    let seen :=
      match reply with
      | Return value => [viewUpdate value; setStateReady]
      | Throw _ => [setStateReady]
      end in
    (outcomeOf (stepForward during reply st) = Return tt
     /\ visibleTextEditors (stateOf (stepForward during reply st))
        = map moved (visibleTextEditors st)
     /\ actionsOf (stepForward during reply st)
        = setStateWorking "Stepping forward" :: request reqStepForward :: seen)
    /\ (outcomeOf (stepBackward during reply st) = Return tt
        /\ visibleTextEditors (stateOf (stepBackward during reply st))
           = map moved (visibleTextEditors st)
        /\ actionsOf (stepBackward during reply st)
           = setStateWorking "Stepping backward" :: request reqStepBackward
               :: seen).
Proof.
  intros during reply st D moved seen.
  unfold stepForward, stepBackward.
  rewrite !(stepping_run _ _ during reply st D).
  repeat split; reflexivity.
Qed.


Lemma stepping_trace name r during reply st :
  exists st',
    bind (emit (setStateWorking name))
      (fun _ =>
         bind
           (tryCatch
              (bind rememberCursors
                 (fun _ =>
                    bind (awaitServer r during reply)
                      (fun value =>
                         bind (emit (viewUpdate value))
                              (fun _ => moveCursors value))))
              (fun err => ret tt))
           (fun _ => emit setStateReady)) st
    = (Return tt, st',
       setStateWorking name :: request r
         :: match reply with
            | Return value => [viewUpdate value; setStateReady]
            | Throw _ => [setStateReady]
            end).
Proof.
  set (body := bind rememberCursors _).
  assert (B : exists st',
             body st
             = (match reply with
                | Return _ => Return tt
                | Throw e => Throw e
                end, st',
                request r
                  :: match reply with
                     | Return value => [viewUpdate value]
                     | Throw _ => []
                     end)).
  { unfold body.
    rewrite (editor_bind_run _ _ st tt _ [] (rememberCursors_run st)).
    cbn [fst snd app].
    destruct reply as [value | e].
    - rewrite (editor_bind_run _ _ _ value _ _ (awaitServer_run r during _ _)).
      cbn [fst snd].
      erewrite editor_bind_run by reflexivity.
      rewrite moveCursors_run. cbn [fst snd app]. eexists. reflexivity.
    - rewrite (editor_bind_throw _ _ _ e _ _ (awaitServer_run r during _ _)).
      eexists. reflexivity. }
  destruct B as (st' & B). exists st'.
  assert (T : tryCatch body (fun err => ret tt) st
              = (Return tt, snd (fst (body st)), snd (body st))).
  { unfold tryCatch. rewrite B. destruct reply as [value | e]; cbn [fst snd].
    - reflexivity.
    - unfold ret. now rewrite app_nil_r. }
  rewrite (editor_bind_run _ _ st tt st [setStateWorking name] eq_refl).
  rewrite (editor_bind_run _ _ st tt _ _ T).
  rewrite B. destruct reply as [value | e]; reflexivity.
Qed.

Lemma interpretToEnd_run during reply st :
  exists st',
    interpretToEnd during reply st
    = (Return tt, st',
       setStateWorking "Interpreting to end" :: request reqInterpretToEnd
         :: match reply with
            | Return value => [viewUpdate value; setStateReady]
            | Throw _ => [setStateReady]
            end).
Proof.
  unfold interpretToEnd.
  set (body := bind (awaitServer _ _ _) _).
  assert (T : exists st',
             tryCatch body (fun err => ret tt) st
             = (Return tt, st',
                request reqInterpretToEnd
                  :: match reply with
                     | Return value => [viewUpdate value]
                     | Throw _ => []
                     end)).
  { unfold tryCatch, body. destruct reply as [value | e].
    - rewrite (editor_bind_run _ _ _ value _ _ (awaitServer_run _ during _ _)).
      eexists. reflexivity.
    - rewrite (editor_bind_throw _ _ _ e _ _ (awaitServer_run _ during _ _)).
      eexists. reflexivity. }
  destruct T as (st' & T). exists st'.
  rewrite (editor_bind_run _ _ st tt st [_] eq_refl).
  rewrite (editor_bind_run _ _ st tt _ _ T).
  destruct reply as [value | e]; reflexivity.
Qed.

Lemma interpretToCursorPosition_run editor offset during reply st :
  exists st',
    interpretToCursorPosition editor offset during reply st
    = (Return tt, st',
       setStateWorking "Interpretting to point"
         :: if notMine editor st then []
            else request (reqInterpretToPoint offset)
                   :: match reply with
                      | Return value => [viewUpdate value; setStateReady]
                      | Throw _ => [setStateReady]
                      end)
    /\ (notMine editor st = true -> st' = st).
Proof.
  unfold interpretToCursorPosition.
  set (body := bind get _).
  assert (T : exists st',
             tryCatch body (fun err => ret false) st
             = (Return (notMine editor st), st',
                if notMine editor st then []
                else request (reqInterpretToPoint offset)
                       :: match reply with
                          | Return value => [viewUpdate value]
                          | Throw _ => []
                          end)
             /\ (notMine editor st = true -> st' = st)).
  { unfold tryCatch, body.
    rewrite (editor_bind_run _ _ st st st [] eq_refl). cbn [fst snd app].
    destruct (notMine editor st) eqn:G.
    - exists st. split; [reflexivity | reflexivity].
    - destruct reply as [value | e].
      + rewrite (editor_bind_run _ _ _ value _ _ (awaitServer_run _ during _ _)).
        eexists. split; [reflexivity | discriminate].
      + rewrite (editor_bind_throw _ _ _ e _ _ (awaitServer_run _ during _ _)).
        eexists. split; [reflexivity | discriminate]. }
  destruct T as (st' & T & K). exists st'. split; [|exact K].
  rewrite (editor_bind_run _ _ st tt st [_] eq_refl).
  rewrite (editor_bind_run _ _ st _ _ _ T).
  destruct (notMine editor st); [reflexivity|].
  destruct reply as [value | e]; reflexivity.
Qed.

Lemma check_run q reply st :
  check q reply st
  = (Return match reply with Return r => Some r | Throw _ => None end, st,
     [setStateWorking "Running query"; request (reqCheck q); setStateReady]).
Proof.
  unfold check.
  rewrite (editor_bind_run _ _ st tt st [_] eq_refl).
  unfold tryFinally, tryCatch.
  destruct reply as [r | e].
  - rewrite (editor_bind_run _ _ _ r _ _ (awaitServer_alone _ _ _)).
    reflexivity.
  - rewrite (editor_bind_throw _ _ _ e _ _ (awaitServer_alone _ _ _)).
    reflexivity.
Qed.

Lemma query_run r reply st :
  query r reply st
  = (Return tt, st,
     setStateWorking "Running query" :: request r
       :: match reply with
          | Return results =>
              [channelClear queryOut; channelShow queryOut;
               channelAppend queryOut results; setStateReady]
          | Throw _ => [setStateReady]
          end).
Proof.
  unfold query.
  rewrite (editor_bind_run _ _ st tt st [_] eq_refl).
  unfold tryFinally, tryCatch.
  destruct reply as [results | e].
  - rewrite (editor_bind_run _ _ _ results _ _ (awaitServer_alone _ _ _)).
    reflexivity.
  - rewrite (editor_bind_throw _ _ _ e _ _ (awaitServer_alone _ _ _)).
    reflexivity.
Qed.

Lemma ltacProfGetResults_run editor offset reply st :
  ltacProfGetResults editor offset reply st
  = (Return tt, st,
     setStateWorking "Running query"
       :: if notMine editor st then [setStateReady]
          else [request (reqLtacProfGetResults offset); setStateReady]).
Proof.
  unfold ltacProfGetResults.
  rewrite (editor_bind_run _ _ st tt st [_] eq_refl).
  unfold tryFinally, tryCatch.
  rewrite (editor_bind_run _ _ st st st [] eq_refl). cbn [fst snd app].
  destruct (notMine editor st); [reflexivity|].
  rewrite awaitServer_alone. destruct reply as [[] | e]; reflexivity.
Qed.

Lemma killing_run name r (reply : Outcome unit) (rest : C unit) st :
  bind (emit (setStateWorking name))
    (fun _ => bind (tryFinally (awaitServer r [] reply) (ret tt))
                   (fun _ => rest)) st
  = match reply with
    | Return _ =>
        (fst (fst (rest st)), snd (fst (rest st)),
         setStateWorking name :: request r :: snd (rest st))
    | Throw e => (Throw e, st, [setStateWorking name; request r])
    end.
Proof.
  rewrite (editor_bind_run _ _ st tt st [_] eq_refl).
  assert (T : tryFinally (awaitServer r [] reply) (ret tt) st
              = (reply, st, [request r])).
  { unfold tryFinally. rewrite awaitServer_alone. reflexivity. }
  destruct reply as [[] | e].
  - rewrite (editor_bind_run _ _ st tt _ _ T). reflexivity.
  - rewrite (editor_bind_throw _ _ st e _ _ T). reflexivity.
Qed.

(** X18.  The commands that catch the failure of their request: whatever
    the server answers and whatever the user selects meanwhile,
    [stepForward], [stepBackward], [interpretToEnd], [check], [locate],
    [search], [searchAbout] and [ltacProfGetResults] do not fail and the
    last state they give the status bar is ready. *)
Theorem X18_commands_end_with_the_status_bar_ready :
  forall (during : list (nat * list Selection))
         (value : Outcome CommandResult) (answer : Outcome string)
         (done : Outcome unit) (editor : option TextEditor) (offset : Z)
         (q : string) (before : option Ui) (st : State),
    let ready {A} (r : Outcome A * State * list Ui) :=
      (exists a, outcomeOf r = Return a)
      /\ statusAfter (actionsOf r) before = Some setStateReady in
    ready (stepForward during value st)
    /\ ready (stepBackward during value st)
    /\ ready (interpretToEnd during value st)
    /\ ready (check q answer st)
    /\ ready (locate q answer st)
    /\ ready (search q answer st)
    /\ ready (searchAbout q answer st)
    /\ ready (ltacProfGetResults editor offset done st).
Proof.
  intros during value answer done editor offset q before st ready.
  unfold ready, locate, search, searchAbout, stepForward, stepBackward.
  rewrite check_run, !query_run, ltacProfGetResults_run.
  destruct (stepping_trace "Stepping forward" reqStepForward during value st)
    as (s1 & E1).
  destruct (stepping_trace "Stepping backward" reqStepBackward during value st)
    as (s2 & E2).
  destruct (interpretToEnd_run during value st) as (s3 & E3).
  rewrite E1, E2, E3.
  unfold outcomeOf, actionsOf. cbn [fst snd].
  repeat split; try (eexists; reflexivity).
  all: try (destruct value; reflexivity).
  all: try (destruct answer; reflexivity).
  destruct (notMine editor st); reflexivity.
Qed.

(** X19.  The commands that can leave the status bar working.
    [interpretToCursorPosition] without an editor, or with an editor of
    another document, sends no request, changes nothing and leaves the
    status bar on working; with an editor of the document it sends the
    request once and ends ready.  [interruptCoq], [quitCoq] and [resetCoq]
    fail with the failure of their request and then leave the status bar
    on working; [quitCoq] and [resetCoq] clear the highlights of the
    editors of the document exactly when the request succeeds. *)
Theorem X19_commands_that_leave_the_status_bar_working :
  forall (during : list (nat * list Selection))
         (value : Outcome CommandResult) (done : Outcome unit)
         (editor : option TextEditor) (offset : Z)
         (before : option Ui) (st : State),
    let r := interpretToCursorPosition editor offset during value st in
    let killed (name : string) (x : Outcome unit * State * list Ui) :=
      outcomeOf x = done
      /\ statusAfter (actionsOf x) before
         = Some (match done with
                 | Return _ => setStateReady
                 | Throw _ => setStateWorking name
                 end) in
    let cleared :=
      match done with
      | Return _ => [map editorId (allEditors st)]
      | Throw _ => []
      end in
    (outcomeOf r = Return tt
     /\ (if notMine editor st
         then actionsOf r = [setStateWorking "Interpretting to point"]
              /\ stateOf r = st
         else statusAfter (actionsOf r) before = Some setStateReady
              /\ requestsOf (actionsOf r) = [reqInterpretToPoint offset]))
    /\ killed "Killing CoqTop"%string (interruptCoq done st)
    /\ killed "Killing CoqTop"%string (quitCoq done st)
    /\ killed "Resetting Coq"%string (resetCoq done st)
    /\ clearsOf (actionsOf (interruptCoq done st)) = []
    /\ clearsOf (actionsOf (quitCoq done st)) = cleared
    /\ clearsOf (actionsOf (resetCoq done st)) = cleared.
Proof.
  intros during value done editor offset before st r killed cleared.
  split.
  - subst r.
    destruct (interpretToCursorPosition_run editor offset during value st)
      as (st' & E & K).
    rewrite E. unfold outcomeOf, stateOf, actionsOf. cbn [fst snd].
    split; [reflexivity|].
    destruct (notMine editor st).
    + split; [reflexivity | now apply K].
    + destruct value; split; reflexivity.
  - unfold killed, cleared, interruptCoq, quitCoq, resetCoq.
    rewrite !killing_run.
    unfold outcomeOf, actionsOf.
    destruct done as [[] | e]; cbn; repeat split; reflexivity.
Qed.

Lemma onDidUpdateHighlights_run params st :
  onDidUpdateHighlights params st
  = (Return tt, st,
     repeat (updateHighlightsOf (map editorId (allEditors st)) params)
            (List.length (allEditors st))).
Proof.
  assert (F : forall (l : list TextEditor) ids,
             flat_map (fun _ : TextEditor => [updateHighlightsOf ids params]) l
             = repeat (updateHighlightsOf ids params) (List.length l)).
  { intros l ids. induction l as [|e l IH]; cbn; [reflexivity | now rewrite IH]. }
  unfold onDidUpdateHighlights.
  rewrite (editor_bind_run _ _ st st st [] eq_refl).
  rewrite (forOf_quiet _
             (fun st' _ =>
                [updateHighlightsOf (map editorId (allEditors st')) params]));
    [|intros x st'; reflexivity].
  cbn [fst snd app]. now rewrite F.
Qed.

(** X20.  A notification of highlights makes one call of the highlights
    for every visible editor of the document, and each of these calls is
    given all the editors of the document: with [n] editors on the document
    every editor is updated [n] times, and with none nothing is done.  The
    uri of the notification is not looked at. *)
Theorem X20_highlights_are_updated_once_for_every_editor :
  forall (uri : string) (params : list thmProto.Highlight) (st : State),
    onNotification (notifyHighlights uri params) st
    = (Return tt, st,
       repeat (updateHighlightsOf (map editorId (allEditors st)) params)
              (List.length (allEditors st))).
Proof.
  intros uri params st. cbn [onNotification].
  apply onDidUpdateHighlights_run.
Qed.

(** X21.  Notifications about another document.  A reset, a computing
    status, the results of the profiler and the url of the state view do
    nothing when their uri is not that of the document.  A message and an
    update of the highlights are handled as if they were about the
    document: their uri is not looked at.  No notification fails or
    changes a selection. *)
Theorem X21_notifications_of_other_documents :
  forall (uri : string) (st : State),
    uri <> documentUri st ->
    (forall status ms results url,
        onNotification (notifyReset uri) st = (Return tt, st, [])
        /\ onNotification (notifyComputingStatus uri status ms) st
           = (Return tt, st, [])
        /\ onNotification (notifyLtacProfResults uri results) st
           = (Return tt, st, [])
        /\ onNotification (notifyStateViewUrl uri url) st
           = (Return tt, st, []))
    /\ (forall level text,
           onNotification (notifyMessage uri level text) st
           = onNotification (notifyMessage (documentUri st) level text) st
           /\ outcomeOf (onNotification (notifyMessage uri level text) st)
              = Return tt
           /\ stateOf (onNotification (notifyMessage uri level text) st) = st)
    /\ (forall params,
           onNotification (notifyHighlights uri params) st
           = onNotification (notifyHighlights (documentUri st) params) st
           /\ outcomeOf (onNotification (notifyHighlights uri params) st)
              = Return tt
           /\ stateOf (onNotification (notifyHighlights uri params) st) = st)
    /\ onNotification (notifyReset (documentUri st)) st
       = (Return tt, st,
          [clearAllHighlights (map editorId (allEditors st)); setStateReady]).
Proof.
  intros uri st N.
  assert (F : String.eqb uri (documentUri st) = false)
    by now apply String.eqb_neq.
  split; [|split; [|split]].
  - intros status ms results url. cbn [onNotification].
    unfold bind, get. rewrite F. repeat split; reflexivity.
  - intros level text. cbn [onNotification].
    destruct (onCoqMessage_run level text st) as (t & E & _).
    rewrite E. repeat split; reflexivity.
  - intros params. cbn [onNotification].
    rewrite onDidUpdateHighlights_run. repeat split; reflexivity.
  - cbn [onNotification]. unfold bind, get, onCoqReset, reset.
    rewrite String.eqb_refl. reflexivity.
Qed.

(** X22.  The queries.  [check] gives the answer of the server, and
    [undefined] when the request fails.  [locate], [search] and
    [searchAbout] replace what the channel of the queries shows by the
    results; when the request fails the channel keeps what it shows.  Each
    sends its request once and changes no selection. *)
Theorem X22_queries_show_their_results :
  forall (q : string) (answer : Outcome string) (shown : string) (st : State),
    let result := match answer with
                  | Return results => results
                  | Throw _ => shown
                  end in
    let asked (r : Request) (x : Outcome unit * State * list Ui) :=
      stateOf x = st
      /\ requestsOf (actionsOf x) = [r]
      /\ channelText queryOut shown (actionsOf x) = result
      /\ channelText infoOut shown (actionsOf x) = shown
      /\ channelText noticeOut shown (actionsOf x) = shown in
    (outcomeOf (check q answer st)
     = Return match answer with Return r => Some r | Throw _ => None end
     /\ stateOf (check q answer st) = st
     /\ requestsOf (actionsOf (check q answer st)) = [reqCheck q]
     /\ channelText queryOut shown (actionsOf (check q answer st)) = shown)
    /\ asked (reqLocate q) (locate q answer st)
    /\ asked (reqSearch q) (search q answer st)
    /\ asked (reqSearchAbout q) (searchAbout q answer st).
Proof.
  intros q answer shown st result asked.
  unfold asked, result, locate, search, searchAbout.
  rewrite check_run, !query_run.
  unfold outcomeOf, stateOf, actionsOf. cbn [fst snd].
  destruct answer as [results | e]; cbn; repeat split; reflexivity.
Qed.

End EditorSide.

(** ** The language server *)

Section LspManagerFacts.
Import lspManager.
Context {DM : DocumentManager}.

Lemma find_opt_replace_same {V} (k : string) (v : V) tbl :
  Hashtbl.find_opt (Hashtbl.replace k v tbl) k = Some v.
Proof.
  induction tbl as [|[k' v'] r IH]; cbn [Hashtbl.replace Hashtbl.find_opt].
  - now rewrite String.eqb_refl.
  - destruct (String.eqb k' k) eqn:E; cbn [Hashtbl.find_opt].
    + now rewrite String.eqb_refl.
    + now rewrite E.
Qed.

Lemma find_opt_replace_other {V} (k k' : string) (v : V) tbl :
  k' <> k ->
  Hashtbl.find_opt (Hashtbl.replace k v tbl) k' = Hashtbl.find_opt tbl k'.
Proof.
  intros N.
  assert (F : String.eqb k k' = false) by (apply String.eqb_neq; congruence).
  induction tbl as [|[k0 v0] r IH]; cbn [Hashtbl.replace Hashtbl.find_opt].
  - now rewrite F.
  - destruct (String.eqb k0 k) eqn:E; cbn [Hashtbl.find_opt].
    + apply String.eqb_eq in E. subst k0. now rewrite F.
    + now rewrite IH.
Qed.

Lemma find_opt_add_same {V} (k : string) (v : V) tbl :
  Hashtbl.find_opt (Hashtbl.add k v tbl) k = Some v.
Proof. unfold Hashtbl.add. cbn. now rewrite String.eqb_refl. Qed.

Lemma find_opt_add_other {V} (k k' : string) (v : V) tbl :
  k' <> k ->
  Hashtbl.find_opt (Hashtbl.add k v tbl) k' = Hashtbl.find_opt tbl k'.
Proof.
  intros N. unfold Hashtbl.add. cbn.
  assert (F : String.eqb k k' = false) by (apply String.eqb_neq; congruence).
  now rewrite F.
Qed.

(** X23.  [TraceValue.of_string] and [TraceValue.to_string] are inverse
    of each other: every value is read back from its name, a string that
    is read is the name of what it is read as, and every other string
    raises [Invalid_argument]. *)
Theorem X23_trace_values_and_their_names :
  (forall v, TraceValue.of_string (TraceValue.to_string v) = Ok v)
  /\ (forall s v,
         TraceValue.of_string s = Ok v <-> s = TraceValue.to_string v)
  /\ (forall s,
         (exists v, s = TraceValue.to_string v)
         \/ TraceValue.of_string s
            = Raise (Invalid_argument "TraceValue.parse")).
Proof.
  split; [|split].
  - intros []; reflexivity.
  - intros s v. split.
    + unfold TraceValue.of_string.
      destruct (String.eqb s "messages") eqn:M;
        [apply String.eqb_eq in M; intros [= <-]; exact M|].
      destruct (String.eqb s "verbose") eqn:V;
        [apply String.eqb_eq in V; intros [= <-]; exact V|].
      destruct (String.eqb s "off") eqn:O;
        [apply String.eqb_eq in O; intros [= <-]; exact O|].
      discriminate.
    + intros ->. destruct v; reflexivity.
  - intros s. unfold TraceValue.of_string.
    destruct (String.eqb s "messages") eqn:M;
      [apply String.eqb_eq in M; left; now exists TraceValue.Messages|].
    destruct (String.eqb s "verbose") eqn:V;
      [apply String.eqb_eq in V; left; now exists TraceValue.Verbose|].
    destruct (String.eqb s "off") eqn:O;
      [apply String.eqb_eq in O; left; now exists TraceValue.Off|].
    now right.
Qed.


Lemma lsp_triple {A} (x : Result A * Server * list Out) :
  (let '(o, s2, t2) := x in (o, s2, [] ++ t2)) = x.
Proof. destruct x as [[o s2] t2]. reflexivity. Qed.

Lemma bind_lift {A B} (r : Result A) (f : A -> L B) s :
  bind (lift r) f s
  = match r with
    | Ok a => f a s
    | Raise e => (Raise e, s, [])
    end.
Proof.
  unfold bind, lift. destruct r as [a | e]; [apply lsp_triple | reflexivity].
Qed.

Lemma bind_pure {A B} (m : L A) (f : A -> L B) s r :
  m s = (r, s, []) ->
  bind m f s
  = match r with
    | Ok a => f a s
    | Raise e => (Raise e, s, [])
    end.
Proof.
  intros E. unfold bind. rewrite E.
  destruct r as [a | e]; [apply lsp_triple | reflexivity].
Qed.

Lemma bind_get {B} (f : Server -> L B) s : bind get f s = f s s.
Proof. unfold bind, get. apply lsp_triple. Qed.

Lemma get_init_state_run s :
  get_init_state s
  = (match init_state s with
     | Some st => Ok st
     | None => Raise (Anomaly "Initial state not available")
     end, s, []).
Proof.
  unfold get_init_state. rewrite bind_get.
  destruct (init_state s); reflexivity.
Qed.

Lemma bind_ret {A B} (a : A) (f : A -> L B) s : bind (ret a) f s = f a s.
Proof. unfold bind, ret. apply lsp_triple. Qed.

Lemma store_and_view {A} (a : A) uri st s :
  bind (set_states (Hashtbl.replace uri st (states s)))
       (fun _ => bind (update_view uri st) (fun _ => ret a)) s
  = (Ok a,
     {| trace_value := trace_value s; init_state := init_state s;
        states := Hashtbl.replace uri st (states s) |},
     outputOf (update_view uri st s)).
Proof. reflexivity. Qed.

Lemma store_and_view_unit uri st s :
  bind (set_states (Hashtbl.replace uri st (states s)))
       (fun _ => update_view uri st) s
  = (Ok tt,
     {| trace_value := trace_value s; init_state := init_state s;
        states := Hashtbl.replace uri st (states s) |},
     outputOf (update_view uri st s)).
Proof. reflexivity. Qed.

Lemma viewSent_replace {A} (a : A) s uri st :
  viewSent s uri
    (Ok a,
     {| trace_value := trace_value s; init_state := init_state s;
        states := Hashtbl.replace uri st (states s) |},
     outputOf (update_view uri st s)).
Proof.
  exists st. unfold serverOf, outputOf.
  cbn [fst snd states trace_value init_state].
  repeat split.
  - apply find_opt_replace_same.
  - intros u N. now apply find_opt_replace_other.
Qed.

Lemma viewSent_add {A} (a : A) s uri st :
  viewSent s uri
    (Ok a,
     {| trace_value := trace_value s; init_state := init_state s;
        states := Hashtbl.add uri st (states s) |},
     outputOf (update_view uri st s)).
Proof.
  exists st. unfold serverOf, outputOf.
  cbn [fst snd states trace_value init_state].
  repeat split.
  - apply find_opt_add_same.
  - intros u N. now apply find_opt_add_other.
Qed.

Ltac decode :=
  repeat (rewrite ?bind_get, ?bind_ret;
          match goal with
          | |- context [bind (lift ?r) _ _] =>
              rewrite (bind_lift r); destruct r eqn:?
          end;
          cbn [resultOf serverOf outputOf fst snd]).

Ltac nothing := cbn [resultOf serverOf outputOf fst snd]; split; reflexivity.

Lemma coqtopStepForward_handled id params s :
  let r := coqtopStepForward id params s in
  match resultOf r with
  | Raise _ => serverOf r = s /\ outputOf r = []
  | Ok x => viewSent s (fst x) r
  end.
Proof.
  unfold coqtopStepForward. decode; try nothing.
  destruct (interpret_to_next _) as [st events].
  rewrite store_and_view. apply viewSent_replace.
Qed.

Lemma coqtopStepBackward_handled id params s :
  let r := coqtopStepBackward id params s in
  match resultOf r with
  | Raise _ => serverOf r = s /\ outputOf r = []
  | Ok x => viewSent s (fst x) r
  end.
Proof.
  unfold coqtopStepBackward. decode; try nothing.
  destruct (interpret_to_previous _) as [st events].
  rewrite store_and_view. apply viewSent_replace.
Qed.

Lemma coqtopInterpretToEnd_handled id params s :
  let r := coqtopInterpretToEnd id params s in
  match resultOf r with
  | Raise _ => serverOf r = s /\ outputOf r = []
  | Ok x => viewSent s (fst x) r
  end.
Proof.
  unfold coqtopInterpretToEnd. decode; try nothing.
  destruct (interpret_to_end _) as [st events].
  rewrite store_and_view. apply viewSent_replace.
Qed.

Lemma coqtopInterpretToPoint_handled id params s :
  let r := coqtopInterpretToPoint id params s in
  match resultOf r with
  | Raise _ => serverOf r = s /\ outputOf r = []
  | Ok x => viewSent s (fst x) r
  end.
Proof.
  unfold coqtopInterpretToPoint. decode; try nothing.
  destruct (interpret_to_position _ _) as [st events].
  rewrite store_and_view. apply viewSent_replace.
Qed.

Lemma textDocumentDidChange_handled params s :
  let r := textDocumentDidChange params s in
  match resultOf r with
  | Raise _ => serverOf r = s /\ outputOf r = []
  | Ok x => viewSent s (fst x) r
  end.
Proof.
  unfold textDocumentDidChange. decode; try nothing.
  destruct (interpret_to_end _) as [st events].
  rewrite bind_get, store_and_view. apply viewSent_replace.
Qed.

Lemma textDocumentDidOpen_handled params s :
  let r := textDocumentDidOpen params s in
  match resultOf r with
  | Raise _ => serverOf r = s /\ outputOf r = []
  | Ok x => viewSent s (fst x) r
  end.
Proof.
  unfold textDocumentDidOpen. decode; try nothing.
  rewrite (bind_pure _ _ s _ (get_init_state_run s)).
  destruct (init_state s) as [[vst opts]|] eqn:I.
  - destruct (init vst opts _ _) as [st events].
    destruct (interpret_to_end _) as [st' events'].
    rewrite bind_get.
    apply (viewSent_add (a0, events ++ events') s a0 st').
  - nothing.
Qed.

Lemma textDocumentDidSave_handled params s :
  let r := textDocumentDidSave params s in
  match resultOf r with
  | Raise _ => serverOf r = s /\ outputOf r = []
  | Ok _ => exists uri, viewSent s uri r
  end.
Proof.
  unfold textDocumentDidSave. decode; try nothing.
  rewrite store_and_view_unit. eexists. apply viewSent_replace.
Qed.

Lemma coqtopResetCoq_handled id params s :
  let r := coqtopResetCoq id params s in
  match resultOf r with
  | Raise _ => serverOf r = s /\ outputOf r = []
  | Ok _ => exists uri, viewSent s uri r
  end.
Proof.
  unfold coqtopResetCoq. decode; try nothing.
  rewrite store_and_view_unit. eexists. apply viewSent_replace.
Qed.


Lemma bind_then_ret {A B} (m : L A) (g : A -> B) s :
  bind m (fun x => ret (g x)) s
  = (match resultOf (m s) with
     | Ok a => Ok (g a)
     | Raise e => Raise e
     end, serverOf (m s), outputOf (m s)).
Proof.
  unfold bind, ret, resultOf, serverOf, outputOf.
  destruct (m s) as [[[a | e] s1] t1]; cbn [fst snd]; [|reflexivity].
  now rewrite app_nil_r.
Qed.

Lemma viewSent_same {A B} s uri (r : Result A * Server * list Out)
    (r' : Result B * Server * list Out) :
  serverOf r' = serverOf r -> outputOf r' = outputOf r ->
  viewSent s uri r -> viewSent s uri r'.
Proof.
  intros E1 E2 (st & H1 & H2 & H3 & H4 & H5). exists st.
  rewrite E1, E2. repeat split; assumption.
Qed.

Lemma do_initialize_run id params s :
  do_initialize id params s
  = match andThen (Util.member "trace" params) Util.to_string with
    | Raise e => (Raise e, s, [])
    | Ok trace =>
        match TraceValue.of_string trace with
        | Raise e => (Raise e, s, [])
        | Ok v =>
            (Ok tt,
             {| trace_value := v; init_state := init_state s;
                states := states s |},
             [output_json
                (mk_response id
                   (Yojson.Assoc
                      [("capabilities"%string,
                        Yojson.Assoc
                          [("textDocumentSync"%string, Yojson.Int 2)])]))])
        end
    end.
Proof.
  unfold do_initialize. decode; reflexivity.
Qed.

Lemma coqtopUpdateProofView_run id params s :
  let r := coqtopUpdateProofView id params s in
  serverOf r = s
  /\ Forall noView (outputOf r)
  /\ match resultOf r with
     | Raise _ => outputOf r = []
     | Ok _ => True
     end.
Proof.
  unfold coqtopUpdateProofView. decode;
    try (split; [reflexivity | split; [constructor | reflexivity]]).
  destruct (get_proof _ _) as [pv|]; cbn; repeat split; repeat constructor.
Qed.

(** The shape of what [dispatch_method] does, method by method. *)
Lemma dispatch_method_cases id method_name params s :
  let r := dispatch_method id method_name params s in
  match resultOf r with
  | Raise e =>
      serverOf r = s /\ outputOf r = []
  | Ok events =>
      init_state (serverOf r) = init_state s
      /\ ((exists uri,
              viewSent s uri r
              /\ exists l, events = map (inject_dm_event uri) l)
          \/ (states (serverOf r) = states s
              /\ events = []
              /\ Forall noView (outputOf r)))
  end.
Proof.
  assert (H1 : forall (m : L (string * list dm_events)),
             (let r := m s in
              match resultOf r with
              | Raise _ => serverOf r = s /\ outputOf r = []
              | Ok x => viewSent s (fst x) r
              end) ->
             let r := bind m (fun x => ret (inject_dm_events x)) s in
             match resultOf r with
             | Raise e => serverOf r = s /\ outputOf r = []
             | Ok events =>
                 init_state (serverOf r) = init_state s
                 /\ ((exists uri,
                         viewSent s uri r
                         /\ exists l, events = map (inject_dm_event uri) l)
                     \/ (states (serverOf r) = states s
                         /\ events = []
                         /\ Forall noView (outputOf r)))
             end).
  { intros m H. cbv zeta in *. rewrite bind_then_ret.
    destruct (m s) as [[[x | e] s1] t1]; cbn [resultOf serverOf outputOf fst snd] in *.
    - split; [destruct H as (st & _ & _ & _ & _ & I); exact I|].
      left. exists (fst x). split.
      + eapply viewSent_same; [| |exact H]; reflexivity.
      + exists (snd x). reflexivity.
    - exact H. }
  assert (H2 : forall (m : L unit),
             (let r := m s in
              match resultOf r with
              | Raise _ => serverOf r = s /\ outputOf r = []
              | Ok _ => exists uri, viewSent s uri r
              end) ->
             let r := bind m (fun _ => ret (@nil sel_event)) s in
             match resultOf r with
             | Raise e => serverOf r = s /\ outputOf r = []
             | Ok events =>
                 init_state (serverOf r) = init_state s
                 /\ ((exists uri,
                         viewSent s uri r
                         /\ exists l, events = map (inject_dm_event uri) l)
                     \/ (states (serverOf r) = states s
                         /\ events = []
                         /\ Forall noView (outputOf r)))
             end).
  { intros m H. cbv zeta in *. rewrite (bind_then_ret m (fun _ => [])).
    destruct (m s) as [[[x | e] s1] t1]; cbn [resultOf serverOf outputOf fst snd] in *.
    - destruct H as (uri & H).
      split; [destruct H as (st & _ & _ & _ & _ & I); exact I|].
      left. exists uri. split.
      + eapply viewSent_same; [| |exact H]; reflexivity.
      + exists []. reflexivity.
    - exact H. }
  unfold dispatch_method.
  destruct (String.eqb method_name "initialize").
  { cbv zeta. rewrite (bind_then_ret _ (fun _ => [])), do_initialize_run.
    destruct (andThen _ _) as [trace | e]; [|split; reflexivity].
    destruct (TraceValue.of_string trace) as [v | e]; [|split; reflexivity].
    cbn. split; [reflexivity|]. right.
    repeat split; repeat constructor. }
  destruct (String.eqb method_name "initialized").
  { cbn. split; [reflexivity|]. right. repeat split; constructor. }
  destruct (String.eqb method_name "textDocument/didOpen").
  { apply H1, textDocumentDidOpen_handled. }
  destruct (String.eqb method_name "textDocument/didChange").
  { apply H1, textDocumentDidChange_handled. }
  destruct (String.eqb method_name "textDocument/didSave").
  { apply H2, textDocumentDidSave_handled. }
  destruct (String.eqb method_name "vscoq/interpretToPoint").
  { apply H1, coqtopInterpretToPoint_handled. }
  destruct (String.eqb method_name "vscoq/stepBackward").
  { apply H1, coqtopStepBackward_handled. }
  destruct (String.eqb method_name "vscoq/stepForward").
  { apply H1, coqtopStepForward_handled. }
  destruct (String.eqb method_name "vscoq/resetCoq").
  { apply H2, coqtopResetCoq_handled. }
  destruct (String.eqb method_name "vscoq/interpretToEnd").
  { apply H1, coqtopInterpretToEnd_handled. }
  destruct (String.eqb method_name "vscoq/updateProofView").
  { cbv zeta. rewrite (bind_then_ret _ (fun _ => [])).
    destruct (coqtopUpdateProofView_run id params s) as (S & F & R).
    cbv zeta in *.
    destruct (coqtopUpdateProofView id params s) as [[[x | e] s1] t1];
      cbn [resultOf serverOf outputOf fst snd] in *.
    - subst s1. split; [reflexivity|]. right. repeat split. exact F.
    - split; assumption. }
  cbn. split; [reflexivity|]. right. repeat split; repeat constructor.
Qed.


(** X24.  [do_initialize] answers once, with the incremental
    synchronisation of the text as its only capability, and sets the trace
    value to the one that the field [trace] names; when the field is not a
    string, or names no trace value, it raises before anything is written
    and the trace value stays.  The documents and the initial state are
    not touched.  After it [logTrace] gives the verbose part of a message
    exactly when the trace value is [Verbose] and the part is there. *)
Theorem X24_initialize_sets_the_trace_or_raises :
  forall (id : Z) (params : Yojson.t) (s : Server),
    let r := do_initialize id params s in
    init_state (serverOf r) = init_state s
    /\ states (serverOf r) = states s
    /\ match resultOf r with
       | Ok _ =>
           Util.member "trace" params
           = Ok (Yojson.String
                   (TraceValue.to_string (trace_value (serverOf r))))
           /\ outputOf r
              = [output_json
                   (mk_response id
                      (Yojson.Assoc
                         [("capabilities"%string,
                           Yojson.Assoc
                             [("textDocumentSync"%string, Yojson.Int 2)])]))]
       | Raise e =>
           serverOf r = s /\ outputOf r = []
           /\ (e = Type_error \/ e = Invalid_argument "TraceValue.parse")
       end
    /\ forall message extra,
         logTrace message extra (serverOf r)
         = (Ok (mk_notification "$/logTrace"
                  (Yojson.Assoc
                     (("message"%string, Yojson.String message)
                        :: match trace_value (serverOf r), extra with
                           | TraceValue.Verbose, Some x =>
                               [("verbose"%string, Yojson.String x)]
                           | _, _ => []
                           end))),
            serverOf r, []).
Proof.
  intros id params s r. subst r. rewrite do_initialize_run.
  assert (LT : forall s' message extra,
             logTrace message extra s'
             = (Ok (mk_notification "$/logTrace"
                      (Yojson.Assoc
                         (("message"%string, Yojson.String message)
                            :: match trace_value s', extra with
                               | TraceValue.Verbose, Some x =>
                                   [("verbose"%string, Yojson.String x)]
                               | _, _ => []
                               end))),
                s', [])).
  { intros s' message extra. unfold logTrace. rewrite bind_get.
    destruct (trace_value s'), extra; reflexivity. }
  destruct (Util.member "trace" params) as [js | e] eqn:M; cbn [andThen].
  - destruct (Util.to_string js) as [trace | e] eqn:T.
    + destruct (TraceValue.of_string trace) as [v | e] eqn:V;
        cbn [resultOf serverOf outputOf fst snd init_state states trace_value].
      * repeat split; [|apply LT].
        destruct js; try discriminate. injection T as ->.
        assert (E : trace = TraceValue.to_string v).
        { revert V. unfold TraceValue.of_string.
          destruct (String.eqb trace "messages") eqn:E1;
            [apply String.eqb_eq in E1; intros [= <-]; exact E1|].
          destruct (String.eqb trace "verbose") eqn:E2;
            [apply String.eqb_eq in E2; intros [= <-]; exact E2|].
          destruct (String.eqb trace "off") eqn:E3;
            [apply String.eqb_eq in E3; intros [= <-]; exact E3|].
          discriminate. }
        now rewrite <- E.
      * repeat split; [|apply LT]. right.
        revert V. unfold TraceValue.of_string.
        destruct (String.eqb trace "messages"); [discriminate|].
        destruct (String.eqb trace "verbose"); [discriminate|].
        destruct (String.eqb trace "off"); [discriminate|].
        now intros [= <-].
    + cbn [resultOf serverOf outputOf fst snd]. repeat split; [|apply LT].
      left. destruct js; cbn in T; congruence.
  - cbn [resultOf serverOf outputOf fst snd]. repeat split; [|apply LT].
    left. destruct params; cbn in M; congruence.
Qed.

(** X25.  A request that raises has done nothing: whatever the method
    and its parameters, when [dispatch_method] raises the three references
    are as before and nothing was written or logged. *)
Theorem X25_request_that_raises_has_done_nothing :
  forall (id : Z) (method_name : string) (params : Yojson.t) (s : Server)
         (e : exn),
    resultOf (dispatch_method id method_name params s) = Raise e ->
    serverOf (dispatch_method id method_name params s) = s
    /\ outputOf (dispatch_method id method_name params s) = [].
Proof.
  intros id method_name params s e H.
  pose proof (dispatch_method_cases id method_name params s) as C.
  cbv zeta in C. rewrite H in C. exact C.
Qed.

(** X26.  A request that is served.  Either it is on one document: then
    the table gives a state for this document, the highlights and the
    diagnostics of exactly this state were written, in this order and
    nothing else, the other documents, the trace value and the initial
    state are as before, and all the events returned are events of this
    document.  Or the documents are as before, no event is returned and no
    view is written. *)
Theorem X26_served_request_sends_the_view_of_the_stored_state :
  forall (id : Z) (method_name : string) (params : Yojson.t) (s : Server)
         (events : list sel_event),
    resultOf (dispatch_method id method_name params s) = Ok events ->
    let r := dispatch_method id method_name params s in
    init_state (serverOf r) = init_state s
    /\ ((exists uri,
            viewSent s uri r
            /\ exists l, events = map (inject_dm_event uri) l)
        \/ (states (serverOf r) = states s
            /\ events = []
            /\ Forall noView (outputOf r))).
Proof.
  intros id method_name params s events H r. subst r.
  pose proof (dispatch_method_cases id method_name params s) as C.
  cbv zeta in C. rewrite H in C. exact C.
Qed.

Lemma handle_lsp_event_run req s :
  handle_lsp_event (Request (Some req)) s
  = match andThen (Util.member "id" req) Util.to_int_option with
    | Raise e => (Raise e, s, [])
    | Ok i =>
        match andThen (Util.member "method" req) Util.to_string with
        | Raise e => (Raise e, s, [])
        | Ok method_name =>
            match Util.member "params" req with
            | Raise e => (Raise e, s, [])
            | Ok params =>
                let r := dispatch_method
                           (match i with Some id => id | None => 0 end)
                           method_name params s in
                (match resultOf r with
                 | Ok more_events => Ok (more_events ++ [lsp])
                 | Raise e => Raise e
                 end, serverOf r,
                 log ("ui request: " ++ method_name)%string :: outputOf r)
            end
        end
    end.
Proof.
  unfold handle_lsp_event. decode; try reflexivity.
  unfold bind at 1. unfold emit at 1.
  rewrite (bind_then_ret _ (fun more_events => more_events ++ [lsp])).
  reflexivity.
Qed.

(** X27.  When the server listens again.  What could not be read, or not
    be decoded, becomes a request without content, and for such a request
    [handle_event] returns no event at all, not even the one of the
    standard input, and does nothing.  A request that is served returns
    the events of its document followed by the event of the standard
    input, once and last.  A request that raises has written no message
    and has changed nothing. *)
Theorem X27_listening_again_after_a_request :
  forall (msg : string + string) (s : Server),
    let r := bind (lsp_ready msg) handle_event s in
    match msg with
    | inr exn_text =>
        r = (Ok [], s, [log ("failed to read message: " ++ exn_text)%string])
    | inl buff =>
        match from_string buff with
        | None =>
            r = (Ok [], s, [log "UI req ready"; log "failed to decode json"])
        | Some req =>
            match resultOf r with
            | Ok events =>
                exists more, events = more ++ [lsp] /\ ~ In lsp more
            | Raise _ =>
                serverOf r = s /\ exists logs, outputOf r = map log logs
            end
        end
    end.
Proof.
  intros msg s r. subst r. destruct msg as [buff | exn_text].
  - unfold lsp_ready. destruct (from_string buff) as [req|]; [|reflexivity].
    assert (E : bind (bind (emit (log "UI req ready"))
                        (fun _ => ret (LspManagerEvent (Request (Some req)))))
                     handle_event s
                = (resultOf (handle_lsp_event (Request (Some req)) s),
                   serverOf (handle_lsp_event (Request (Some req)) s),
                   log "UI req ready"
                     :: outputOf (handle_lsp_event (Request (Some req)) s))).
    { unfold bind, emit, ret. cbn [app handle_event].
      destruct (handle_lsp_event (Request (Some req)) s) as [[o s2] t2].
      reflexivity. }
    rewrite E. rewrite handle_lsp_event_run.
    cbn [resultOf serverOf outputOf fst snd].
    destruct (andThen (Util.member "id" req) Util.to_int_option) as [i | e];
      [|split; [reflexivity | exists ["UI req ready"%string]; reflexivity]].
    destruct (andThen (Util.member "method" req) Util.to_string)
      as [method_name | e];
      [|split; [reflexivity | exists ["UI req ready"%string]; reflexivity]].
    destruct (Util.member "params" req) as [params | e];
      [|split; [reflexivity | exists ["UI req ready"%string]; reflexivity]].
    cbv zeta. cbn [fst snd].
    pose proof (dispatch_method_cases
                  (match i with Some id => id | None => 0 end)
                  method_name params s) as C.
    cbv zeta in C.
    destruct (resultOf (dispatch_method _ method_name params s))
      as [more | e].
    + exists more. split; [reflexivity|].
      destruct C as (_ & [(uri & _ & l & ->) | (_ & -> & _)]).
      * intros I. apply in_map_iff in I. destruct I as (x & X & _).
        discriminate.
      * intros [].
    + destruct C as [C1 C2]. split; [exact C1|].
      exists ["UI req ready"; ("ui request: " ++ method_name)]%string.
      rewrite C2. reflexivity.
  - reflexivity.
Qed.

(** X28.  An event of the document manager.  For a document that is not
    in the table it is ignored: nothing changes, nothing is written and no
    event is returned.  For a document of the table the events that the
    manager returns are returned as events of this document; when the
    manager gives a new state, this state is stored for the document, the
    other documents stay and the view of the new state is written;
    when it gives none, nothing changes and nothing is written. *)
Theorem X28_events_of_the_document_manager :
  forall (uri : string) (e : event) (s : Server),
    let r := handle_event (DocumentManagerEvent uri e) s in
    match Hashtbl.find_opt (states s) uri with
    | None =>
        r = (Ok [], s, [log "ignoring event on non-existing document"])
    | Some st =>
        resultOf r
        = Ok (map (inject_dm_event uri) (snd (dm_handle_event e st)))
        /\ match fst (dm_handle_event e st) with
           | None => serverOf r = s /\ outputOf r = []
           | Some st' =>
               Hashtbl.find_opt (states (serverOf r)) uri = Some st'
               /\ (forall uri', uri' <> uri ->
                     Hashtbl.find_opt (states (serverOf r)) uri'
                     = Hashtbl.find_opt (states s) uri')
               /\ outputOf r = outputOf (update_view uri st' s)
               /\ trace_value (serverOf r) = trace_value s
               /\ init_state (serverOf r) = init_state s
           end
    end.
Proof.
  intros uri e s r. subst r. cbn [handle_event]. rewrite bind_get.
  destruct (Hashtbl.find_opt (states s) uri) as [st|]; [|reflexivity].
  destruct (dm_handle_event e st) as [[st'|] events]; cbn [fst snd].
  - rewrite (bind_then_ret _ (fun _ => inject_dm_events (uri, events))).
    rewrite bind_get, store_and_view_unit.
    cbn [resultOf serverOf outputOf fst snd states trace_value init_state].
    repeat split.
    + apply find_opt_replace_same.
    + intros u N. now apply find_opt_replace_other.
  - rewrite bind_ret. repeat split.
Qed.

Lemma dm_event_keeps uri' (e : event) s :
  forall uri st,
    Hashtbl.find_opt (states s) uri = Some st ->
    exists st',
      Hashtbl.find_opt
        (states (serverOf (handle_event (DocumentManagerEvent uri' e) s))) uri
      = Some st'.
Proof.
  intros uri st H. cbn [handle_event]. rewrite bind_get.
  destruct (Hashtbl.find_opt (states s) uri') as [st0|];
    [|exists st; exact H].
  destruct (dm_handle_event e st0) as [[st1|] events].
  - rewrite (bind_then_ret _ (fun _ => inject_dm_events (uri', events))).
    rewrite bind_get, store_and_view_unit.
    cbn [serverOf fst snd states].
    destruct (String.eqb uri' uri) eqn:E.
    + apply String.eqb_eq in E. subst uri'. exists st1.
      apply find_opt_replace_same.
    + apply String.eqb_neq in E. exists st.
      rewrite find_opt_replace_other; [exact H | congruence].
  - rewrite bind_ret. exists st. exact H.
Qed.

(** X29.  No document is ever closed.  Whatever the event is, a request
    of any method, known or not, or an event of the document manager, and
    whether it is served or raises: a document that has a state in the
    table before [handle_event] has one after it. *)
Theorem X29_documents_are_never_closed :
  forall (e : event_t) (s : Server) (uri : string) (st : state),
    Hashtbl.find_opt (states s) uri = Some st ->
    exists st',
      Hashtbl.find_opt (states (serverOf (handle_event e s))) uri = Some st'.
Proof.
  intros e s uri st H.
  assert (K : forall (s' : Server) uri',
             (uri' = uri ->
              exists st', Hashtbl.find_opt (states s') uri = Some st') ->
             (uri <> uri' ->
              Hashtbl.find_opt (states s') uri
              = Hashtbl.find_opt (states s) uri) ->
             exists st', Hashtbl.find_opt (states s') uri = Some st').
  { intros s' uri' Same Other.
    destruct (String.eqb uri' uri) eqn:E.
    - apply String.eqb_eq in E. now apply Same.
    - apply String.eqb_neq in E. exists st. rewrite Other; [exact H|].
      congruence. }
  destruct e as [[[req|]] | uri' e].
  - cbn [handle_event]. rewrite handle_lsp_event_run.
    destruct (andThen (Util.member "id" req) Util.to_int_option) as [i | x];
      [|exists st; exact H].
    destruct (andThen (Util.member "method" req) Util.to_string)
      as [method_name | x]; [|exists st; exact H].
    destruct (Util.member "params" req) as [params | x];
      [|exists st; exact H].
    cbv zeta. cbn [serverOf fst snd].
    pose proof (dispatch_method_cases
                  (match i with Some id => id | None => 0 end)
                  method_name params s) as C.
    cbv zeta in C.
    destruct (resultOf (dispatch_method _ method_name params s))
      as [more | x].
    + destruct C as (_ & [(uri' & (st' & F & O & _) & _) | (T & _)]).
      * apply (K _ uri').
        -- intros ->. exists st'. exact F.
        -- intros N. now apply O.
      * exists st. unfold serverOf. unfold serverOf in T. rewrite T. exact H.
    + destruct C as [C _]. unfold serverOf. unfold serverOf in C. rewrite C.
      exists st. exact H.
  - exists st. exact H.
  - now apply (dm_event_keeps uri' e s uri st).
Qed.

End LspManagerFacts.

(** ** The editor, the server and the edits on the examples *)

Lemma X3_witness :
  pull 2 (commandSequenceGenerator (Scenario.at_ 0 8) None false) Scenario.abc
  = (Return ([], GenDone), Scenario.abc, []).
Proof.
  assert (H : endOffsetOf (documentText Scenario.abc) None
              <= textUtil.offsetAt (documentText Scenario.abc)
                                   (Scenario.at_ 0 8))
    by (vm_compute; discriminate).
  exact (proj1 (X3_empty_span_yields_no_command
                  (Scenario.at_ 0 8) None false 1 Scenario.abc H)).
Defined.

Lemma X4_witness :
  documentText
    (stateOf (applyEditToDocument 5 (Scenario.insertion 0 5 "X")
                                  Scenario.versioned))
  = documentText Scenario.versioned ++ Scenario.text "X".
Proof.
  assert (H1 : 0 <= 5) by lia.
  assert (H2 : 0 <= rangeLength (Scenario.insertion 0 5 "X"))
    by (vm_compute; discriminate).
  assert (H3 : textLength (documentText Scenario.versioned) <= 5)
    by (vm_compute; discriminate).
  exact (proj1 (proj2 (proj2 (proj2
           (X4_applyEditToDocument_clamps
              5 (Scenario.insertion 0 5 "X") Scenario.versioned H1 H2))))
           H3).
Defined.

Lemma X5_witness :
  documentText
    (stateOf
       ((applyEditToDocument 1
           {| crange := RangeNS.create (Scenario.at_ 0 1) (Scenario.at_ 0 1);
              rangeLength := 0; ctext := Scenario.text "ZZ" |};;
         applyEditToDocument 1
           {| crange := RangeNS.create (Scenario.at_ 0 1) (Scenario.at_ 0 3);
              rangeLength := textLength (Scenario.text "ZZ"); ctext := [] |})
          Scenario.versioned))
  = documentText Scenario.versioned.
Proof.
  assert (H : 0 <= 1 <= textLength (documentText Scenario.versioned))
    by (vm_compute; split; discriminate).
  exact (X5_insert_then_delete_restores_text
           1 (Scenario.text "ZZ")
           (RangeNS.create (Scenario.at_ 0 1) (Scenario.at_ 0 1))
           (RangeNS.create (Scenario.at_ 0 1) (Scenario.at_ 0 3))
           Scenario.versioned H).
Defined.

Lemma X6_witness :
  documentText
    (stateOf (applyTextEdits [Scenario.replacement 0 0 1 "XX"] 6
                             Scenario.versioned))
  = documentText
      (stateOf
         (applyTextEdits
            [{| crange := RangeNS.create (Scenario.at_ 0 0) (Scenario.at_ 7 7);
                rangeLength := 1; ctext := Scenario.text "XX" |}] 6
            Scenario.versioned)).
Proof.
  apply (X6_end_of_range_is_not_read
           [Scenario.replacement 0 0 1 "XX"]
           [{| crange := RangeNS.create (Scenario.at_ 0 0) (Scenario.at_ 7 7);
               rangeLength := 1; ctext := Scenario.text "XX" |}]
           6 Scenario.versioned insertionSort_laws).
  constructor; [|constructor].
  split; [reflexivity | split; reflexivity].
Defined.

Lemma X7_witness :
  documentText
    (stateOf (applyTextEdits [Scenario.replacement 0 0 1 "XX";
                              Scenario.replacement 0 2 1 "YY"] 6
                             Scenario.versioned))
  = documentText
      (stateOf (applyTextEdits [Scenario.replacement 0 2 1 "YY";
                                Scenario.replacement 0 0 1 "XX"] 6
                               Scenario.versioned)).
Proof.
  assert (P : Permutation [Scenario.replacement 0 0 1 "XX";
                           Scenario.replacement 0 2 1 "YY"]
                          [Scenario.replacement 0 2 1 "YY";
                           Scenario.replacement 0 0 1 "XX"])
    by apply perm_swap.
  assert (D : NoDup (map (fun c => start (crange c))
                         [Scenario.replacement 0 0 1 "XX";
                          Scenario.replacement 0 2 1 "YY"])).
  { simpl. constructor.
    - intros [E | []]. discriminate E.
    - constructor; [intros [] | constructor]. }
  exact (proj2 (X7_batch_order_does_not_matter
                  _ _ 6 Scenario.versioned insertionSort_laws P D)).
Defined.

Lemma X8_witness :
  exists err,
    applyTextEdits [Scenario.insertion 0 0 "X"] 2 Cases.quitted
    = (Return tt,
       setVersion
         (setDocumentText Cases.quitted
            (fold_left spliceText
               (sort laterFirst [Scenario.insertion 0 0 "X"])
               (documentText Cases.quitted)))
         2,
       [consoleError ("STM crashed while applying text edit: " ++ err)]).
Proof.
  apply (X8_applyTextEdits_without_machine
           [Scenario.insertion 0 0 "X"] 2 Cases.quitted).
  reflexivity.
Defined.

Lemma X10_witness :
  match call callStepForward (stmStepForward (commandSequence true))
             (Scenario.opened "Fail.") with
  | (Throw e, d1, t) =>
      exists s1,
        stm d1 = Some s1
        /\ stepForward Scenario.token (Scenario.opened "Fail.")
           = (Throw e, d1,
              t ++ [sendDiagnostics (diagnosticsOf (getErrors s1))])
  | (Return (Some failure), d1, t) =>
      exists s1,
        stm d1 = Some s1
        /\ stepForward Scenario.token (Scenario.opened "Fail.")
           = (Return failure, d1,
              t ++ [sendDiagnostics (diagnosticsOf (getErrors s1))])
  | (Return None, d1, t) =>
      startsWith (t ++ [onStm callGetGoal])
                 (stepForward Scenario.token (Scenario.opened "Fail."))
  end.
Proof.
  apply (X10_stepForward_passes_failures_on
           Scenario.token (Scenario.opened "Fail.")).
  reflexivity.
Defined.

Lemma X11_witness :
  let d := Scenario.abc in
  let pos := textUtil.positionAt (documentText d) 8 in
  let highlight :=
    sendHighlightUpdates
      [{| thmProto.style := thmProto.Parsing;
          thmProto.range :=
            RangeNS.create
              (getFocusedPosition (construct Scenario.settings)) pos |}] in
  match call (callInterpretToPoint pos Scenario.token)
             (stmInterpretToPoint pos (commandSequence false) Scenario.token)
             d with
  | (Throw e, d1, t) =>
      exists s1,
        stm d1 = Some s1
        /\ interpretToPoint 8 Scenario.token d
           = (Throw e, d1,
              highlight :: t
              ++ [sendDiagnostics (diagnosticsOf (getErrors s1))])
  | (Return (Some failure), d1, t) =>
      exists s1,
        stm d1 = Some s1
        /\ interpretToPoint 8 Scenario.token d
           = (Return failure, d1,
              highlight :: t
              ++ [sendDiagnostics (diagnosticsOf (getErrors s1))])
  | (Return None, d1, t) =>
      startsWith (highlight :: t ++ [onStm callGetGoal])
                 (interpretToPoint 8 Scenario.token d)
  end.
Proof.
  apply (X11_interpretToPoint_highlights_then_passes_failures_on
           8 Scenario.token Scenario.abc (construct Scenario.settings)).
  - reflexivity.
  - reflexivity.
Defined.

Lemma X14_witness :
  getGoal Cases.quitted = (Return RNotRunning, Cases.quitted, [])
  /\ quitCoq Cases.quitted = (Return tt, Cases.quitted, []).
Proof.
  assert (H : stm Cases.quitted = None) by reflexivity.
  exact (proj2 (X14_missing_machine Cases.quitted H)).
Defined.

Lemma X17_witness :
  let moved := {| Editor.anchor := Scenario.at_ 2 0;
                  Editor.active := Scenario.at_ 2 4 |} in
  let focus := {| Editor.anchor := Scenario.at_ 0 3;
                  Editor.active := Scenario.at_ 0 3 |} in
  Editor.visibleTextEditors
    (Editor.stateOf
       (Editor.stepForward [(1%nat, [moved])]
          (Return (RNoProof (Scenario.at_ 0 3))) Cases.window))
  = [ {| Editor.editorId := 0; Editor.editorUri := "file:///a.v";
         Editor.selections := [focus] |};
      {| Editor.editorId := 1; Editor.editorUri := "file:///a.v";
         Editor.selections := [moved] |};
      {| Editor.editorId := 2; Editor.editorUri := "file:///b.v";
         Editor.selections := [] |} ].
Proof.
  assert (D : NoDup (map Editor.editorId
                         (Editor.visibleTextEditors Cases.window))).
  { simpl. constructor; [simpl; lia|].
    constructor; [simpl; lia|].
    constructor; [intros [] | constructor]. }
  exact (proj1 (proj2 (proj1
           (X17_stepping_moves_the_cursors_left_alone
              [(1%nat, [{| Editor.anchor := Scenario.at_ 2 0;
                           Editor.active := Scenario.at_ 2 4 |}])]
              (Return (RNoProof (Scenario.at_ 0 3))) Cases.window D)))).
Defined.

Lemma X21_witness :
  Editor.onNotification (Editor.notifyReset "file:///b.v") Cases.window
  = (Return tt, Cases.window, []).
Proof.
  assert (N : "file:///b.v"%string <> Editor.documentUri Cases.window)
    by (simpl; discriminate).
  exact (proj1 (proj1 (X21_notifications_of_other_documents
                         "file:///b.v" Cases.window N)
                  EmptyString 0 {| profEntries := [] |} EmptyString)).
Defined.

Lemma X25_witness :
  lspManager.serverOf
    (lspManager.dispatch_method 1 "vscoq/stepForward"
       CountingManager.onDocument CountingManager.started)
  = CountingManager.started
  /\ lspManager.outputOf
       (lspManager.dispatch_method 1 "vscoq/stepForward"
          CountingManager.onDocument CountingManager.started)
     = [].
Proof.
  apply (@X25_request_that_raises_has_done_nothing
           CountingManager.instance 1 "vscoq/stepForward"
           CountingManager.onDocument CountingManager.started
           lspManager.Not_found).
  reflexivity.
Defined.

Lemma X26_witness :
  let r := lspManager.dispatch_method 1 "vscoq/stepForward"
             CountingManager.onDocument CountingManager.opened in
  let events := [@lspManager.inject_dm_event CountingManager.instance
                   "file:///a.v" tt] in
  lspManager.init_state (lspManager.serverOf r)
  = lspManager.init_state CountingManager.opened
  /\ ((exists uri,
          lspManager.viewSent CountingManager.opened uri r
          /\ exists l, events = map (lspManager.inject_dm_event uri) l)
      \/ (lspManager.states (lspManager.serverOf r)
          = lspManager.states CountingManager.opened
          /\ events = []
          /\ Forall lspManager.noView (lspManager.outputOf r))).
Proof.
  apply (@X26_served_request_sends_the_view_of_the_stored_state
           CountingManager.instance 1 "vscoq/stepForward"
           CountingManager.onDocument CountingManager.opened
           [@lspManager.inject_dm_event CountingManager.instance
              "file:///a.v" tt]).
  reflexivity.
Defined.

Lemma X29_witness :
  exists st',
    lspManager.Hashtbl.find_opt
      (lspManager.states
         (lspManager.serverOf
            (lspManager.handle_event
               (lspManager.LspManagerEvent
                  (lspManager.Request
                     (Some (lspManager.Yojson.Assoc
                              [("method"%string,
                                lspManager.Yojson.String
                                  "textDocument/didClose");
                               ("params"%string,
                                CountingManager.onDocument)]))))
               CountingManager.opened)))
      "file:///a.v"
    = Some st'.
Proof.
  apply (@X29_documents_are_never_closed
           CountingManager.instance
           (lspManager.LspManagerEvent
              (lspManager.Request
                 (Some (lspManager.Yojson.Assoc
                          [("method"%string,
                            lspManager.Yojson.String "textDocument/didClose");
                           ("params"%string, CountingManager.onDocument)]))))
           CountingManager.opened "file:///a.v" 3%nat).
  reflexivity.
Defined.
